(** * GEventos backend: the event-layout routes of [src/routes/eventRoutes.js]

    A shallow embedding of the three layout handlers

      - [GET    /:eventoID/layout]
      - [PUT    /:eventoID/layout]          (the layout reconciler)
      - [DELETE /:eventoID/areas/:areaID]

    over a model of the relational store declared in [src/schema.sql].

    Conventions of the embedding.

    - A request body is what [express.json()] hands to the handler: a tree of
      JSON values.  JSON numbers are restricted to integer values: [VNum n] is
      the double nearest to [n], and it prints as JavaScript prints a double.
      A string is held as its UTF-8 bytes; [toUpperCase] follows the case
      mapping of Unicode 14 (UnicodeData and SpecialCasing), and the blanks
      [parseInt] and [trim] skip are those of ECMAScript.  An object is the
      list of its properties in insertion order.
    - The handlers mutate [req.body] in place.  A parsed body is a tree (no two
      paths reach the same object), so the mutation is modelled by threading
      the updated value.
    - A handler is a computation in a state-and-exception monad over [world]:
      the committed tables, the transaction open on the pooled client, the
      [SERIAL] sequences (which PostgreSQL never rolls back), and a schedule
      of connection faults telling which statements fail to reach the server.
      [pool.connect()] itself is taken to succeed, and [client.release()]
      does nothing to the tables.
    - Statements follow the SQL text of the source; the constraints they check
      are the ones of [schema.sql] for the five tables the routes touch
      ([AreaManager] and [Boleto], which also reference [Area] and [Asiento],
      are left out).  Parameters travel as the text node-postgres makes of
      them, and the server reads that text as PostgreSQL 16 and later do.
    - Of an answer the model keeps the status, the [message] (or [error]) of
      a failure, and the [layoutConfig] and [seats] of a success; the
      [detail] of a 500 and the [message] of a 200 are left out.  What the
      handlers log is left out too, except that a message which prints a
      value of the request body is kept as the conversion to text it makes:
      that conversion can fail, and the request with it. *)

From Stdlib Require Import ZArith List String Ascii Bool Lia Sorted Permutation.
From Stdlib Require Import DecimalString.
Import ListNotations.
Set Warnings "-register-all".
Open Scope string_scope.
Open Scope Z_scope.

(* ------------------------------------------------------------------------- *)
(** ** JavaScript values *)

(** A JSON tree as JavaScript sees it.  An array is an object too: besides its
    items it may carry named properties, which is what an assignment such as
    [asiento.areaID = ...] creates when [asiento] happens to be an array. *)
Inductive value : Type :=
| VUndef
| VNull
| VBool (b : bool)
| VNum (n : Z)
| VStr (s : string)
| VArr (items : list value) (props : list (string * value))
| VObj (props : list (string * value)).

Inductive exn : Type :=
| TypeError                 (* property of null/undefined, call of a non-function *)
| DbError (detail : string) (* the server rejected the statement *)
| ConnError.                (* the statement never reached the server *)

Inductive outcome (A : Type) : Type :=
| Val (a : A)
| Throw (e : exn).
Arguments Val {A} a.
Arguments Throw {A} e.

Fixpoint lookup (k : string) (ps : list (string * value)) : value :=
  match ps with
  | [] => VUndef
  | (k', v) :: r => if String.eqb k k' then v else lookup k r
  end.

Fixpoint assign (k : string) (x : value) (ps : list (string * value))
  : list (string * value) :=
  match ps with
  | [] => [(k, x)]
  | (k', v) :: r => if String.eqb k k' then (k', x) :: r else (k', v) :: assign k x r
  end.

(** [v.k]: reading a property of [null] or [undefined] throws; the primitives
    have none of the property names the routes use. *)
Definition get_prop (v : value) (k : string) : outcome value :=
  match v with
  | VUndef | VNull => Throw TypeError
  | VObj ps | VArr _ ps => Val (lookup k ps)
  | _ => Val VUndef
  end.

(** [v.k = x]: the module is not in strict mode, so an assignment to a
    property of a primitive is silently dropped. *)
Definition set_prop (v : value) (k : string) (x : value) : outcome value :=
  match v with
  | VUndef | VNull => Throw TypeError
  | VObj ps => Val (VObj (assign k x ps))
  | VArr items ps => Val (VArr items (assign k x ps))
  | _ => Val v
  end.

Definition truthy (v : value) : bool :=
  match v with
  | VUndef | VNull => false
  | VBool b => b
  | VNum n => negb (n =? 0)
  | VStr s => negb (String.eqb s "")
  | VArr _ _ | VObj _ => true
  end.

(** [a || b] *)
Definition js_or (a b : value) : value := if truthy a then a else b.

(** [a === b].  Two objects are equal only when they are the same object,
    which never happens between two places of a parsed body. *)
Definition strict_eq (a b : value) : bool :=
  match a, b with
  | VUndef, VUndef => true
  | VNull, VNull => true
  | VBool x, VBool y => Bool.eqb x y
  | VNum x, VNum y => x =? y
  | VStr x, VStr y => String.eqb x y
  | _, _ => false
  end.

Definition is_undefined (v : value) : bool :=
  match v with VUndef => true | _ => false end.

Definition is_nullish (v : value) : bool :=
  match v with VUndef | VNull => true | _ => false end.

Definition isArray (v : value) : bool :=
  match v with VArr _ _ => true | _ => false end.

(** [typeof v === 'object'] *)
Definition typeof_object (v : value) : bool :=
  match v with VNull | VArr _ _ | VObj _ => true | _ => false end.

(** Decimal text of an integer. *)
Definition dec (n : Z) : string := NilZero.string_of_int (Z.to_int n).

(** *** [Number.prototype.toString]

    Below 2^53 every integer is a double and prints as it is.  Above, the
    double nearest to [a] is [m * 2^e] with [2^52 <= m < 2^53] (ties go to the
    even mantissa; [Z.shiftl m e] is [m * 2^e]), and what is printed is the
    decimal with the fewest digits that reads back as that double, the
    nearest one when there are several; from 10^21 on it is printed with an
    exponent. *)
Definition nearest_double (a : Z) : Z * Z :=
  let e := Z.log2 a - 52 in
  let q := Z.shiftr a e in
  let r := a - Z.shiftl q e in
  let half := Z.shiftl 1 (e - 1) in
  let q' := if orb (half <? r) (andb (r =? half) (Z.odd q)) then q + 1 else q in
  if q' =? 2 ^ 53 then (2 ^ 52, e + 1) else (q', e).

(** Does the decimal [x] read back as [m * 2^e]?  (Everything times four:
    below a power of two the neighbour is half as far.) *)
Definition reads_back (m e x : Z) : bool :=
  let v4 := Z.shiftl m (e + 2) in
  let lo4 := v4 - (if m =? 2 ^ 52 then Z.shiftl 1 e else Z.shiftl 1 (e + 1)) in
  let hi4 := v4 + Z.shiftl 1 (e + 1) in
  if Z.even m then andb (lo4 <=? 4 * x) (4 * x <=? hi4)
  else andb (lo4 <? 4 * x) (4 * x <? hi4).

(** The multiple of [p] nearest to [m * 2^e] among those that read back as
    it. *)
Definition nearest_multiple (m e p : Z) : option Z :=
  let v := Z.shiftl m e in
  let c1 := v / p * p in
  let c2 := c1 + p in
  match reads_back m e c1, reads_back m e c2 with
  | true, true =>
      if v - c1 <? c2 - v then Some c1
      else if c2 - v <? v - c1 then Some c2
      else if Z.even (c1 / p) then Some c1 else Some c2
  | true, false => Some c1
  | false, true => Some c2
  | false, false => None
  end.

Fixpoint shortest_decimal (fuel : nat) (m e p best : Z) : Z :=
  match fuel with
  | O => best
  | S fuel' =>
      match nearest_multiple m e (10 * p) with
      | Some x => shortest_decimal fuel' m e (10 * p) x
      | None => best
      end
  end.

Fixpoint strip_zeros (fuel : nat) (x : Z) : Z :=
  match fuel with
  | O => x
  | S fuel' => if andb (negb (x =? 0)) (x mod 10 =? 0) then strip_zeros fuel' (x / 10) else x
  end.

Definition exponent_form (x : Z) : string :=
  let digits := dec x in
  match dec (strip_zeros 400 x) with
  | String d EmptyString => String d "e+" ++ dec (Z.of_nat (String.length digits) - 1)
  | String d rest =>
      String d ("." ++ rest) ++ "e+" ++ dec (Z.of_nat (String.length digits) - 1)
  | EmptyString => digits
  end.

Definition number_to_string (n : Z) : string :=
  let a := Z.abs n in
  let sign := if n <? 0 then "-" else "" in
  if a <? 2 ^ 53 then dec n
  else
    let (m, e) := nearest_double a in
    if 971 <? e then sign ++ "Infinity"
    else
      let x := shortest_decimal 400 m e 1 (Z.shiftl m e) in
      if Z.of_nat (String.length (dec x)) <=? 21 then sign ++ dec x
      else sign ++ exponent_form x.

Definition has_key (k : string) (ps : list (string * value)) : bool :=
  existsb (fun kv => String.eqb k (fst kv)) ps.

(** The text [String(v)] gives when it gives one.  An array is printed by its
    [join], unless a property of that name hides it. *)
Fixpoint to_js_string (v : value) : string :=
  match v with
  | VUndef => "undefined"
  | VNull => "null"
  | VBool true => "true"
  | VBool false => "false"
  | VNum n => number_to_string n
  | VStr s => s
  | VObj _ => "[object Object]"
  | VArr items ps =>
      if has_key "join" ps then "[object Array]"
      else
        (fix join (l : list value) : string :=
           match l with
           | [] => ""
           | x :: r =>
               let sx := match x with VUndef | VNull => "" | _ => to_js_string x end in
               match r with [] => sx | _ => sx ++ "," ++ join r end
           end) items
  end.

(** Can [v] be converted to a text?  A parsed body holds no function, so an
    object with a property named [toString] has no usable conversion left,
    and neither has an array whose [join] meets one. *)
Fixpoint printable (v : value) : bool :=
  match v with
  | VObj ps => negb (has_key "toString" ps)
  | VArr items ps =>
      andb (negb (has_key "toString" ps))
           (orb (has_key "join" ps)
                ((fix all (l : list value) : bool :=
                    match l with
                    | [] => true
                    | x :: r => andb (printable x) (all r)
                    end) items))
  | _ => true
  end.

(** [String(v)], as a template literal and [parseInt] apply it: the text, or
    a TypeError. *)
Definition ToString (v : value) : outcome string :=
  if printable v then Val (to_js_string v) else Throw TypeError.

(** *** Text as code points *)

Definition byte (n : Z) : ascii := ascii_of_nat (Z.to_nat n).

(** The code points of a UTF-8 text: [pending] continuation bytes are still
    to come for the code point begun in [acc]. *)
Fixpoint utf8_decode_from (pending : nat) (acc : Z) (s : string) : list Z :=
  match s with
  | EmptyString => []
  | String c r =>
      let n := Z.of_nat (nat_of_ascii c) in
      match pending with
      | S p =>
          let acc' := acc * 64 + n mod 64 in
          match p with
          | O => acc' :: utf8_decode_from O 0 r
          | S _ => utf8_decode_from p acc' r
          end
      | O =>
          if n <? 192 then n :: utf8_decode_from O 0 r
          else if n <? 224 then utf8_decode_from 1 (n - 192) r
          else if n <? 240 then utf8_decode_from 2 (n - 224) r
          else utf8_decode_from 3 (n - 240) r
      end
  end.

Definition utf8_decode (s : string) : list Z := utf8_decode_from O 0 s.

Definition utf8_encode_cp (cp : Z) : string :=
  if cp <? 128 then String (byte cp) ""
  else if cp <? 2048 then
    String (byte (192 + cp / 64)) (String (byte (128 + cp mod 64)) "")
  else if cp <? 65536 then
    String (byte (224 + cp / 4096))
      (String (byte (128 + cp / 64 mod 64)) (String (byte (128 + cp mod 64)) ""))
  else
    String (byte (240 + cp / 262144))
      (String (byte (128 + cp / 4096 mod 64))
         (String (byte (128 + cp / 64 mod 64)) (String (byte (128 + cp mod 64)) ""))).

Fixpoint utf8_encode (l : list Z) : string :=
  match l with
  | [] => ""
  | cp :: r => utf8_encode_cp cp ++ utf8_encode r
  end.

(** *** [String.prototype.toUpperCase]

    The code points above U+007F that have an upper-case form of their own,
    each with that form (one to three code points). *)
Definition upper_table : list (Z * list Z) :=
  [(181, [924]); (223, [83; 83]); (224, [192]); (225, [193]); (226, [194]);
   (227, [195]); (228, [196]); (229, [197]); (230, [198]); (231, [199]);
   (232, [200]); (233, [201]); (234, [202]); (235, [203]); (236, [204]);
   (237, [205]); (238, [206]); (239, [207]); (240, [208]); (241, [209]);
   (242, [210]); (243, [211]); (244, [212]); (245, [213]); (246, [214]);
   (248, [216]); (249, [217]); (250, [218]); (251, [219]); (252, [220]);
   (253, [221]); (254, [222]); (255, [376]); (257, [256]); (259, [258]);
   (261, [260]); (263, [262]); (265, [264]); (267, [266]); (269, [268]);
   (271, [270]); (273, [272]); (275, [274]); (277, [276]); (279, [278]);
   (281, [280]); (283, [282]); (285, [284]); (287, [286]); (289, [288]);
   (291, [290]); (293, [292]); (295, [294]); (297, [296]); (299, [298]);
   (301, [300]); (303, [302]); (305, [73]); (307, [306]); (309, [308]);
   (311, [310]); (314, [313]); (316, [315]); (318, [317]); (320, [319]);
   (322, [321]); (324, [323]); (326, [325]); (328, [327]); (329, [700; 78]);
   (331, [330]); (333, [332]); (335, [334]); (337, [336]); (339, [338]);
   (341, [340]); (343, [342]); (345, [344]); (347, [346]); (349, [348]);
   (351, [350]); (353, [352]); (355, [354]); (357, [356]); (359, [358]);
   (361, [360]); (363, [362]); (365, [364]); (367, [366]); (369, [368]);
   (371, [370]); (373, [372]); (375, [374]); (378, [377]); (380, [379]);
   (382, [381]); (383, [83]); (384, [579]); (387, [386]); (389, [388]);
   (392, [391]); (396, [395]); (402, [401]); (405, [502]); (409, [408]);
   (410, [573]); (414, [544]); (417, [416]); (419, [418]); (421, [420]);
   (424, [423]); (429, [428]); (432, [431]); (436, [435]); (438, [437]);
   (441, [440]); (445, [444]); (447, [503]); (453, [452]); (454, [452]);
   (456, [455]); (457, [455]); (459, [458]); (460, [458]); (462, [461]);
   (464, [463]); (466, [465]); (468, [467]); (470, [469]); (472, [471]);
   (474, [473]); (476, [475]); (477, [398]); (479, [478]); (481, [480]);
   (483, [482]); (485, [484]); (487, [486]); (489, [488]); (491, [490]);
   (493, [492]); (495, [494]); (496, [74; 780]); (498, [497]); (499, [497]);
   (501, [500]); (505, [504]); (507, [506]); (509, [508]); (511, [510]);
   (513, [512]); (515, [514]); (517, [516]); (519, [518]); (521, [520]);
   (523, [522]); (525, [524]); (527, [526]); (529, [528]); (531, [530]);
   (533, [532]); (535, [534]); (537, [536]); (539, [538]); (541, [540]);
   (543, [542]); (547, [546]); (549, [548]); (551, [550]); (553, [552]);
   (555, [554]); (557, [556]); (559, [558]); (561, [560]); (563, [562]);
   (572, [571]); (575, [11390]); (576, [11391]); (578, [577]); (583, [582]);
   (585, [584]); (587, [586]); (589, [588]); (591, [590]); (592, [11375]);
   (593, [11373]); (594, [11376]); (595, [385]); (596, [390]); (598, [393]);
   (599, [394]); (601, [399]); (603, [400]); (604, [42923]); (608, [403]);
   (609, [42924]); (611, [404]); (613, [42893]); (614, [42922]); (616, [407]);
   (617, [406]); (618, [42926]); (619, [11362]); (620, [42925]); (623, [412]);
   (625, [11374]); (626, [413]); (629, [415]); (637, [11364]); (640, [422]);
   (642, [42949]); (643, [425]); (647, [42929]); (648, [430]); (649, [580]);
   (650, [433]); (651, [434]); (652, [581]); (658, [439]); (669, [42930]);
   (670, [42928]); (837, [921]); (881, [880]); (883, [882]); (887, [886]);
   (891, [1021]); (892, [1022]); (893, [1023]); (912, [921; 776; 769]);
   (940, [902]); (941, [904]); (942, [905]); (943, [906]); (944, [933; 776; 769]);
   (945, [913]); (946, [914]); (947, [915]); (948, [916]); (949, [917]);
   (950, [918]); (951, [919]); (952, [920]); (953, [921]); (954, [922]);
   (955, [923]); (956, [924]); (957, [925]); (958, [926]); (959, [927]);
   (960, [928]); (961, [929]); (962, [931]); (963, [931]); (964, [932]);
   (965, [933]); (966, [934]); (967, [935]); (968, [936]); (969, [937]);
   (970, [938]); (971, [939]); (972, [908]); (973, [910]); (974, [911]);
   (976, [914]); (977, [920]); (981, [934]); (982, [928]); (983, [975]);
   (985, [984]); (987, [986]); (989, [988]); (991, [990]); (993, [992]);
   (995, [994]); (997, [996]); (999, [998]); (1001, [1000]); (1003, [1002]);
   (1005, [1004]); (1007, [1006]); (1008, [922]); (1009, [929]); (1010, [1017]);
   (1011, [895]); (1013, [917]); (1016, [1015]); (1019, [1018]); (1072, [1040]);
   (1073, [1041]); (1074, [1042]); (1075, [1043]); (1076, [1044]); (1077, [1045]);
   (1078, [1046]); (1079, [1047]); (1080, [1048]); (1081, [1049]); (1082, [1050]);
   (1083, [1051]); (1084, [1052]); (1085, [1053]); (1086, [1054]); (1087, [1055]);
   (1088, [1056]); (1089, [1057]); (1090, [1058]); (1091, [1059]); (1092, [1060]);
   (1093, [1061]); (1094, [1062]); (1095, [1063]); (1096, [1064]); (1097, [1065]);
   (1098, [1066]); (1099, [1067]); (1100, [1068]); (1101, [1069]); (1102, [1070]);
   (1103, [1071]); (1104, [1024]); (1105, [1025]); (1106, [1026]); (1107, [1027]);
   (1108, [1028]); (1109, [1029]); (1110, [1030]); (1111, [1031]); (1112, [1032]);
   (1113, [1033]); (1114, [1034]); (1115, [1035]); (1116, [1036]); (1117, [1037]);
   (1118, [1038]); (1119, [1039]); (1121, [1120]); (1123, [1122]); (1125, [1124]);
   (1127, [1126]); (1129, [1128]); (1131, [1130]); (1133, [1132]); (1135, [1134]);
   (1137, [1136]); (1139, [1138]); (1141, [1140]); (1143, [1142]); (1145, [1144]);
   (1147, [1146]); (1149, [1148]); (1151, [1150]); (1153, [1152]); (1163, [1162]);
   (1165, [1164]); (1167, [1166]); (1169, [1168]); (1171, [1170]); (1173, [1172]);
   (1175, [1174]); (1177, [1176]); (1179, [1178]); (1181, [1180]); (1183, [1182]);
   (1185, [1184]); (1187, [1186]); (1189, [1188]); (1191, [1190]); (1193, [1192]);
   (1195, [1194]); (1197, [1196]); (1199, [1198]); (1201, [1200]); (1203, [1202]);
   (1205, [1204]); (1207, [1206]); (1209, [1208]); (1211, [1210]); (1213, [1212]);
   (1215, [1214]); (1218, [1217]); (1220, [1219]); (1222, [1221]); (1224, [1223]);
   (1226, [1225]); (1228, [1227]); (1230, [1229]); (1231, [1216]); (1233, [1232]);
   (1235, [1234]); (1237, [1236]); (1239, [1238]); (1241, [1240]); (1243, [1242]);
   (1245, [1244]); (1247, [1246]); (1249, [1248]); (1251, [1250]); (1253, [1252]);
   (1255, [1254]); (1257, [1256]); (1259, [1258]); (1261, [1260]); (1263, [1262]);
   (1265, [1264]); (1267, [1266]); (1269, [1268]); (1271, [1270]); (1273, [1272]);
   (1275, [1274]); (1277, [1276]); (1279, [1278]); (1281, [1280]); (1283, [1282]);
   (1285, [1284]); (1287, [1286]); (1289, [1288]); (1291, [1290]); (1293, [1292]);
   (1295, [1294]); (1297, [1296]); (1299, [1298]); (1301, [1300]); (1303, [1302]);
   (1305, [1304]); (1307, [1306]); (1309, [1308]); (1311, [1310]); (1313, [1312]);
   (1315, [1314]); (1317, [1316]); (1319, [1318]); (1321, [1320]); (1323, [1322]);
   (1325, [1324]); (1327, [1326]); (1377, [1329]); (1378, [1330]); (1379, [1331]);
   (1380, [1332]); (1381, [1333]); (1382, [1334]); (1383, [1335]); (1384, [1336]);
   (1385, [1337]); (1386, [1338]); (1387, [1339]); (1388, [1340]); (1389, [1341]);
   (1390, [1342]); (1391, [1343]); (1392, [1344]); (1393, [1345]); (1394, [1346]);
   (1395, [1347]); (1396, [1348]); (1397, [1349]); (1398, [1350]); (1399, [1351]);
   (1400, [1352]); (1401, [1353]); (1402, [1354]); (1403, [1355]); (1404, [1356]);
   (1405, [1357]); (1406, [1358]); (1407, [1359]); (1408, [1360]); (1409, [1361]);
   (1410, [1362]); (1411, [1363]); (1412, [1364]); (1413, [1365]); (1414, [1366]);
   (1415, [1333; 1362]); (4304, [7312]); (4305, [7313]); (4306, [7314]);
   (4307, [7315]); (4308, [7316]); (4309, [7317]); (4310, [7318]); (4311, [7319]);
   (4312, [7320]); (4313, [7321]); (4314, [7322]); (4315, [7323]); (4316, [7324]);
   (4317, [7325]); (4318, [7326]); (4319, [7327]); (4320, [7328]); (4321, [7329]);
   (4322, [7330]); (4323, [7331]); (4324, [7332]); (4325, [7333]); (4326, [7334]);
   (4327, [7335]); (4328, [7336]); (4329, [7337]); (4330, [7338]); (4331, [7339]);
   (4332, [7340]); (4333, [7341]); (4334, [7342]); (4335, [7343]); (4336, [7344]);
   (4337, [7345]); (4338, [7346]); (4339, [7347]); (4340, [7348]); (4341, [7349]);
   (4342, [7350]); (4343, [7351]); (4344, [7352]); (4345, [7353]); (4346, [7354]);
   (4349, [7357]); (4350, [7358]); (4351, [7359]); (5112, [5104]); (5113, [5105]);
   (5114, [5106]); (5115, [5107]); (5116, [5108]); (5117, [5109]); (7296, [1042]);
   (7297, [1044]); (7298, [1054]); (7299, [1057]); (7300, [1058]); (7301, [1058]);
   (7302, [1066]); (7303, [1122]); (7304, [42570]); (7545, [42877]);
   (7549, [11363]); (7566, [42950]); (7681, [7680]); (7683, [7682]);
   (7685, [7684]); (7687, [7686]); (7689, [7688]); (7691, [7690]); (7693, [7692]);
   (7695, [7694]); (7697, [7696]); (7699, [7698]); (7701, [7700]); (7703, [7702]);
   (7705, [7704]); (7707, [7706]); (7709, [7708]); (7711, [7710]); (7713, [7712]);
   (7715, [7714]); (7717, [7716]); (7719, [7718]); (7721, [7720]); (7723, [7722]);
   (7725, [7724]); (7727, [7726]); (7729, [7728]); (7731, [7730]); (7733, [7732]);
   (7735, [7734]); (7737, [7736]); (7739, [7738]); (7741, [7740]); (7743, [7742]);
   (7745, [7744]); (7747, [7746]); (7749, [7748]); (7751, [7750]); (7753, [7752]);
   (7755, [7754]); (7757, [7756]); (7759, [7758]); (7761, [7760]); (7763, [7762]);
   (7765, [7764]); (7767, [7766]); (7769, [7768]); (7771, [7770]); (7773, [7772]);
   (7775, [7774]); (7777, [7776]); (7779, [7778]); (7781, [7780]); (7783, [7782]);
   (7785, [7784]); (7787, [7786]); (7789, [7788]); (7791, [7790]); (7793, [7792]);
   (7795, [7794]); (7797, [7796]); (7799, [7798]); (7801, [7800]); (7803, [7802]);
   (7805, [7804]); (7807, [7806]); (7809, [7808]); (7811, [7810]); (7813, [7812]);
   (7815, [7814]); (7817, [7816]); (7819, [7818]); (7821, [7820]); (7823, [7822]);
   (7825, [7824]); (7827, [7826]); (7829, [7828]); (7830, [72; 817]);
   (7831, [84; 776]); (7832, [87; 778]); (7833, [89; 778]); (7834, [65; 702]);
   (7835, [7776]); (7841, [7840]); (7843, [7842]); (7845, [7844]); (7847, [7846]);
   (7849, [7848]); (7851, [7850]); (7853, [7852]); (7855, [7854]); (7857, [7856]);
   (7859, [7858]); (7861, [7860]); (7863, [7862]); (7865, [7864]); (7867, [7866]);
   (7869, [7868]); (7871, [7870]); (7873, [7872]); (7875, [7874]); (7877, [7876]);
   (7879, [7878]); (7881, [7880]); (7883, [7882]); (7885, [7884]); (7887, [7886]);
   (7889, [7888]); (7891, [7890]); (7893, [7892]); (7895, [7894]); (7897, [7896]);
   (7899, [7898]); (7901, [7900]); (7903, [7902]); (7905, [7904]); (7907, [7906]);
   (7909, [7908]); (7911, [7910]); (7913, [7912]); (7915, [7914]); (7917, [7916]);
   (7919, [7918]); (7921, [7920]); (7923, [7922]); (7925, [7924]); (7927, [7926]);
   (7929, [7928]); (7931, [7930]); (7933, [7932]); (7935, [7934]); (7936, [7944]);
   (7937, [7945]); (7938, [7946]); (7939, [7947]); (7940, [7948]); (7941, [7949]);
   (7942, [7950]); (7943, [7951]); (7952, [7960]); (7953, [7961]); (7954, [7962]);
   (7955, [7963]); (7956, [7964]); (7957, [7965]); (7968, [7976]); (7969, [7977]);
   (7970, [7978]); (7971, [7979]); (7972, [7980]); (7973, [7981]); (7974, [7982]);
   (7975, [7983]); (7984, [7992]); (7985, [7993]); (7986, [7994]); (7987, [7995]);
   (7988, [7996]); (7989, [7997]); (7990, [7998]); (7991, [7999]); (8000, [8008]);
   (8001, [8009]); (8002, [8010]); (8003, [8011]); (8004, [8012]); (8005, [8013]);
   (8016, [933; 787]); (8017, [8025]); (8018, [933; 787; 768]); (8019, [8027]);
   (8020, [933; 787; 769]); (8021, [8029]); (8022, [933; 787; 834]);
   (8023, [8031]); (8032, [8040]); (8033, [8041]); (8034, [8042]); (8035, [8043]);
   (8036, [8044]); (8037, [8045]); (8038, [8046]); (8039, [8047]); (8048, [8122]);
   (8049, [8123]); (8050, [8136]); (8051, [8137]); (8052, [8138]); (8053, [8139]);
   (8054, [8154]); (8055, [8155]); (8056, [8184]); (8057, [8185]); (8058, [8170]);
   (8059, [8171]); (8060, [8186]); (8061, [8187]); (8064, [7944; 921]);
   (8065, [7945; 921]); (8066, [7946; 921]); (8067, [7947; 921]);
   (8068, [7948; 921]); (8069, [7949; 921]); (8070, [7950; 921]);
   (8071, [7951; 921]); (8072, [7944; 921]); (8073, [7945; 921]);
   (8074, [7946; 921]); (8075, [7947; 921]); (8076, [7948; 921]);
   (8077, [7949; 921]); (8078, [7950; 921]); (8079, [7951; 921]);
   (8080, [7976; 921]); (8081, [7977; 921]); (8082, [7978; 921]);
   (8083, [7979; 921]); (8084, [7980; 921]); (8085, [7981; 921]);
   (8086, [7982; 921]); (8087, [7983; 921]); (8088, [7976; 921]);
   (8089, [7977; 921]); (8090, [7978; 921]); (8091, [7979; 921]);
   (8092, [7980; 921]); (8093, [7981; 921]); (8094, [7982; 921]);
   (8095, [7983; 921]); (8096, [8040; 921]); (8097, [8041; 921]);
   (8098, [8042; 921]); (8099, [8043; 921]); (8100, [8044; 921]);
   (8101, [8045; 921]); (8102, [8046; 921]); (8103, [8047; 921]);
   (8104, [8040; 921]); (8105, [8041; 921]); (8106, [8042; 921]);
   (8107, [8043; 921]); (8108, [8044; 921]); (8109, [8045; 921]);
   (8110, [8046; 921]); (8111, [8047; 921]); (8112, [8120]); (8113, [8121]);
   (8114, [8122; 921]); (8115, [913; 921]); (8116, [902; 921]);
   (8118, [913; 834]); (8119, [913; 834; 921]); (8124, [913; 921]); (8126, [921]);
   (8130, [8138; 921]); (8131, [919; 921]); (8132, [905; 921]);
   (8134, [919; 834]); (8135, [919; 834; 921]); (8140, [919; 921]);
   (8144, [8152]); (8145, [8153]); (8146, [921; 776; 768]);
   (8147, [921; 776; 769]); (8150, [921; 834]); (8151, [921; 776; 834]);
   (8160, [8168]); (8161, [8169]); (8162, [933; 776; 768]);
   (8163, [933; 776; 769]); (8164, [929; 787]); (8165, [8172]);
   (8166, [933; 834]); (8167, [933; 776; 834]); (8178, [8186; 921]);
   (8179, [937; 921]); (8180, [911; 921]); (8182, [937; 834]);
   (8183, [937; 834; 921]); (8188, [937; 921]); (8526, [8498]); (8560, [8544]);
   (8561, [8545]); (8562, [8546]); (8563, [8547]); (8564, [8548]); (8565, [8549]);
   (8566, [8550]); (8567, [8551]); (8568, [8552]); (8569, [8553]); (8570, [8554]);
   (8571, [8555]); (8572, [8556]); (8573, [8557]); (8574, [8558]); (8575, [8559]);
   (8580, [8579]); (9424, [9398]); (9425, [9399]); (9426, [9400]); (9427, [9401]);
   (9428, [9402]); (9429, [9403]); (9430, [9404]); (9431, [9405]); (9432, [9406]);
   (9433, [9407]); (9434, [9408]); (9435, [9409]); (9436, [9410]); (9437, [9411]);
   (9438, [9412]); (9439, [9413]); (9440, [9414]); (9441, [9415]); (9442, [9416]);
   (9443, [9417]); (9444, [9418]); (9445, [9419]); (9446, [9420]); (9447, [9421]);
   (9448, [9422]); (9449, [9423]); (11312, [11264]); (11313, [11265]);
   (11314, [11266]); (11315, [11267]); (11316, [11268]); (11317, [11269]);
   (11318, [11270]); (11319, [11271]); (11320, [11272]); (11321, [11273]);
   (11322, [11274]); (11323, [11275]); (11324, [11276]); (11325, [11277]);
   (11326, [11278]); (11327, [11279]); (11328, [11280]); (11329, [11281]);
   (11330, [11282]); (11331, [11283]); (11332, [11284]); (11333, [11285]);
   (11334, [11286]); (11335, [11287]); (11336, [11288]); (11337, [11289]);
   (11338, [11290]); (11339, [11291]); (11340, [11292]); (11341, [11293]);
   (11342, [11294]); (11343, [11295]); (11344, [11296]); (11345, [11297]);
   (11346, [11298]); (11347, [11299]); (11348, [11300]); (11349, [11301]);
   (11350, [11302]); (11351, [11303]); (11352, [11304]); (11353, [11305]);
   (11354, [11306]); (11355, [11307]); (11356, [11308]); (11357, [11309]);
   (11358, [11310]); (11359, [11311]); (11361, [11360]); (11365, [570]);
   (11366, [574]); (11368, [11367]); (11370, [11369]); (11372, [11371]);
   (11379, [11378]); (11382, [11381]); (11393, [11392]); (11395, [11394]);
   (11397, [11396]); (11399, [11398]); (11401, [11400]); (11403, [11402]);
   (11405, [11404]); (11407, [11406]); (11409, [11408]); (11411, [11410]);
   (11413, [11412]); (11415, [11414]); (11417, [11416]); (11419, [11418]);
   (11421, [11420]); (11423, [11422]); (11425, [11424]); (11427, [11426]);
   (11429, [11428]); (11431, [11430]); (11433, [11432]); (11435, [11434]);
   (11437, [11436]); (11439, [11438]); (11441, [11440]); (11443, [11442]);
   (11445, [11444]); (11447, [11446]); (11449, [11448]); (11451, [11450]);
   (11453, [11452]); (11455, [11454]); (11457, [11456]); (11459, [11458]);
   (11461, [11460]); (11463, [11462]); (11465, [11464]); (11467, [11466]);
   (11469, [11468]); (11471, [11470]); (11473, [11472]); (11475, [11474]);
   (11477, [11476]); (11479, [11478]); (11481, [11480]); (11483, [11482]);
   (11485, [11484]); (11487, [11486]); (11489, [11488]); (11491, [11490]);
   (11500, [11499]); (11502, [11501]); (11507, [11506]); (11520, [4256]);
   (11521, [4257]); (11522, [4258]); (11523, [4259]); (11524, [4260]);
   (11525, [4261]); (11526, [4262]); (11527, [4263]); (11528, [4264]);
   (11529, [4265]); (11530, [4266]); (11531, [4267]); (11532, [4268]);
   (11533, [4269]); (11534, [4270]); (11535, [4271]); (11536, [4272]);
   (11537, [4273]); (11538, [4274]); (11539, [4275]); (11540, [4276]);
   (11541, [4277]); (11542, [4278]); (11543, [4279]); (11544, [4280]);
   (11545, [4281]); (11546, [4282]); (11547, [4283]); (11548, [4284]);
   (11549, [4285]); (11550, [4286]); (11551, [4287]); (11552, [4288]);
   (11553, [4289]); (11554, [4290]); (11555, [4291]); (11556, [4292]);
   (11557, [4293]); (11559, [4295]); (11565, [4301]); (42561, [42560]);
   (42563, [42562]); (42565, [42564]); (42567, [42566]); (42569, [42568]);
   (42571, [42570]); (42573, [42572]); (42575, [42574]); (42577, [42576]);
   (42579, [42578]); (42581, [42580]); (42583, [42582]); (42585, [42584]);
   (42587, [42586]); (42589, [42588]); (42591, [42590]); (42593, [42592]);
   (42595, [42594]); (42597, [42596]); (42599, [42598]); (42601, [42600]);
   (42603, [42602]); (42605, [42604]); (42625, [42624]); (42627, [42626]);
   (42629, [42628]); (42631, [42630]); (42633, [42632]); (42635, [42634]);
   (42637, [42636]); (42639, [42638]); (42641, [42640]); (42643, [42642]);
   (42645, [42644]); (42647, [42646]); (42649, [42648]); (42651, [42650]);
   (42787, [42786]); (42789, [42788]); (42791, [42790]); (42793, [42792]);
   (42795, [42794]); (42797, [42796]); (42799, [42798]); (42803, [42802]);
   (42805, [42804]); (42807, [42806]); (42809, [42808]); (42811, [42810]);
   (42813, [42812]); (42815, [42814]); (42817, [42816]); (42819, [42818]);
   (42821, [42820]); (42823, [42822]); (42825, [42824]); (42827, [42826]);
   (42829, [42828]); (42831, [42830]); (42833, [42832]); (42835, [42834]);
   (42837, [42836]); (42839, [42838]); (42841, [42840]); (42843, [42842]);
   (42845, [42844]); (42847, [42846]); (42849, [42848]); (42851, [42850]);
   (42853, [42852]); (42855, [42854]); (42857, [42856]); (42859, [42858]);
   (42861, [42860]); (42863, [42862]); (42874, [42873]); (42876, [42875]);
   (42879, [42878]); (42881, [42880]); (42883, [42882]); (42885, [42884]);
   (42887, [42886]); (42892, [42891]); (42897, [42896]); (42899, [42898]);
   (42900, [42948]); (42903, [42902]); (42905, [42904]); (42907, [42906]);
   (42909, [42908]); (42911, [42910]); (42913, [42912]); (42915, [42914]);
   (42917, [42916]); (42919, [42918]); (42921, [42920]); (42933, [42932]);
   (42935, [42934]); (42937, [42936]); (42939, [42938]); (42941, [42940]);
   (42943, [42942]); (42945, [42944]); (42947, [42946]); (42952, [42951]);
   (42954, [42953]); (42961, [42960]); (42967, [42966]); (42969, [42968]);
   (42998, [42997]); (43859, [42931]); (43888, [5024]); (43889, [5025]);
   (43890, [5026]); (43891, [5027]); (43892, [5028]); (43893, [5029]);
   (43894, [5030]); (43895, [5031]); (43896, [5032]); (43897, [5033]);
   (43898, [5034]); (43899, [5035]); (43900, [5036]); (43901, [5037]);
   (43902, [5038]); (43903, [5039]); (43904, [5040]); (43905, [5041]);
   (43906, [5042]); (43907, [5043]); (43908, [5044]); (43909, [5045]);
   (43910, [5046]); (43911, [5047]); (43912, [5048]); (43913, [5049]);
   (43914, [5050]); (43915, [5051]); (43916, [5052]); (43917, [5053]);
   (43918, [5054]); (43919, [5055]); (43920, [5056]); (43921, [5057]);
   (43922, [5058]); (43923, [5059]); (43924, [5060]); (43925, [5061]);
   (43926, [5062]); (43927, [5063]); (43928, [5064]); (43929, [5065]);
   (43930, [5066]); (43931, [5067]); (43932, [5068]); (43933, [5069]);
   (43934, [5070]); (43935, [5071]); (43936, [5072]); (43937, [5073]);
   (43938, [5074]); (43939, [5075]); (43940, [5076]); (43941, [5077]);
   (43942, [5078]); (43943, [5079]); (43944, [5080]); (43945, [5081]);
   (43946, [5082]); (43947, [5083]); (43948, [5084]); (43949, [5085]);
   (43950, [5086]); (43951, [5087]); (43952, [5088]); (43953, [5089]);
   (43954, [5090]); (43955, [5091]); (43956, [5092]); (43957, [5093]);
   (43958, [5094]); (43959, [5095]); (43960, [5096]); (43961, [5097]);
   (43962, [5098]); (43963, [5099]); (43964, [5100]); (43965, [5101]);
   (43966, [5102]); (43967, [5103]); (64256, [70; 70]); (64257, [70; 73]);
   (64258, [70; 76]); (64259, [70; 70; 73]); (64260, [70; 70; 76]);
   (64261, [83; 84]); (64262, [83; 84]); (64275, [1348; 1350]);
   (64276, [1348; 1333]); (64277, [1348; 1339]); (64278, [1358; 1350]);
   (64279, [1348; 1341]); (65345, [65313]); (65346, [65314]); (65347, [65315]);
   (65348, [65316]); (65349, [65317]); (65350, [65318]); (65351, [65319]);
   (65352, [65320]); (65353, [65321]); (65354, [65322]); (65355, [65323]);
   (65356, [65324]); (65357, [65325]); (65358, [65326]); (65359, [65327]);
   (65360, [65328]); (65361, [65329]); (65362, [65330]); (65363, [65331]);
   (65364, [65332]); (65365, [65333]); (65366, [65334]); (65367, [65335]);
   (65368, [65336]); (65369, [65337]); (65370, [65338]); (66600, [66560]);
   (66601, [66561]); (66602, [66562]); (66603, [66563]); (66604, [66564]);
   (66605, [66565]); (66606, [66566]); (66607, [66567]); (66608, [66568]);
   (66609, [66569]); (66610, [66570]); (66611, [66571]); (66612, [66572]);
   (66613, [66573]); (66614, [66574]); (66615, [66575]); (66616, [66576]);
   (66617, [66577]); (66618, [66578]); (66619, [66579]); (66620, [66580]);
   (66621, [66581]); (66622, [66582]); (66623, [66583]); (66624, [66584]);
   (66625, [66585]); (66626, [66586]); (66627, [66587]); (66628, [66588]);
   (66629, [66589]); (66630, [66590]); (66631, [66591]); (66632, [66592]);
   (66633, [66593]); (66634, [66594]); (66635, [66595]); (66636, [66596]);
   (66637, [66597]); (66638, [66598]); (66639, [66599]); (66776, [66736]);
   (66777, [66737]); (66778, [66738]); (66779, [66739]); (66780, [66740]);
   (66781, [66741]); (66782, [66742]); (66783, [66743]); (66784, [66744]);
   (66785, [66745]); (66786, [66746]); (66787, [66747]); (66788, [66748]);
   (66789, [66749]); (66790, [66750]); (66791, [66751]); (66792, [66752]);
   (66793, [66753]); (66794, [66754]); (66795, [66755]); (66796, [66756]);
   (66797, [66757]); (66798, [66758]); (66799, [66759]); (66800, [66760]);
   (66801, [66761]); (66802, [66762]); (66803, [66763]); (66804, [66764]);
   (66805, [66765]); (66806, [66766]); (66807, [66767]); (66808, [66768]);
   (66809, [66769]); (66810, [66770]); (66811, [66771]); (66967, [66928]);
   (66968, [66929]); (66969, [66930]); (66970, [66931]); (66971, [66932]);
   (66972, [66933]); (66973, [66934]); (66974, [66935]); (66975, [66936]);
   (66976, [66937]); (66977, [66938]); (66979, [66940]); (66980, [66941]);
   (66981, [66942]); (66982, [66943]); (66983, [66944]); (66984, [66945]);
   (66985, [66946]); (66986, [66947]); (66987, [66948]); (66988, [66949]);
   (66989, [66950]); (66990, [66951]); (66991, [66952]); (66992, [66953]);
   (66993, [66954]); (66995, [66956]); (66996, [66957]); (66997, [66958]);
   (66998, [66959]); (66999, [66960]); (67000, [66961]); (67001, [66962]);
   (67003, [66964]); (67004, [66965]); (68800, [68736]); (68801, [68737]);
   (68802, [68738]); (68803, [68739]); (68804, [68740]); (68805, [68741]);
   (68806, [68742]); (68807, [68743]); (68808, [68744]); (68809, [68745]);
   (68810, [68746]); (68811, [68747]); (68812, [68748]); (68813, [68749]);
   (68814, [68750]); (68815, [68751]); (68816, [68752]); (68817, [68753]);
   (68818, [68754]); (68819, [68755]); (68820, [68756]); (68821, [68757]);
   (68822, [68758]); (68823, [68759]); (68824, [68760]); (68825, [68761]);
   (68826, [68762]); (68827, [68763]); (68828, [68764]); (68829, [68765]);
   (68830, [68766]); (68831, [68767]); (68832, [68768]); (68833, [68769]);
   (68834, [68770]); (68835, [68771]); (68836, [68772]); (68837, [68773]);
   (68838, [68774]); (68839, [68775]); (68840, [68776]); (68841, [68777]);
   (68842, [68778]); (68843, [68779]); (68844, [68780]); (68845, [68781]);
   (68846, [68782]); (68847, [68783]); (68848, [68784]); (68849, [68785]);
   (68850, [68786]); (71872, [71840]); (71873, [71841]); (71874, [71842]);
   (71875, [71843]); (71876, [71844]); (71877, [71845]); (71878, [71846]);
   (71879, [71847]); (71880, [71848]); (71881, [71849]); (71882, [71850]);
   (71883, [71851]); (71884, [71852]); (71885, [71853]); (71886, [71854]);
   (71887, [71855]); (71888, [71856]); (71889, [71857]); (71890, [71858]);
   (71891, [71859]); (71892, [71860]); (71893, [71861]); (71894, [71862]);
   (71895, [71863]); (71896, [71864]); (71897, [71865]); (71898, [71866]);
   (71899, [71867]); (71900, [71868]); (71901, [71869]); (71902, [71870]);
   (71903, [71871]); (93792, [93760]); (93793, [93761]); (93794, [93762]);
   (93795, [93763]); (93796, [93764]); (93797, [93765]); (93798, [93766]);
   (93799, [93767]); (93800, [93768]); (93801, [93769]); (93802, [93770]);
   (93803, [93771]); (93804, [93772]); (93805, [93773]); (93806, [93774]);
   (93807, [93775]); (93808, [93776]); (93809, [93777]); (93810, [93778]);
   (93811, [93779]); (93812, [93780]); (93813, [93781]); (93814, [93782]);
   (93815, [93783]); (93816, [93784]); (93817, [93785]); (93818, [93786]);
   (93819, [93787]); (93820, [93788]); (93821, [93789]); (93822, [93790]);
   (93823, [93791]); (125218, [125184]); (125219, [125185]); (125220, [125186]);
   (125221, [125187]); (125222, [125188]); (125223, [125189]); (125224, [125190]);
   (125225, [125191]); (125226, [125192]); (125227, [125193]); (125228, [125194]);
   (125229, [125195]); (125230, [125196]); (125231, [125197]); (125232, [125198]);
   (125233, [125199]); (125234, [125200]); (125235, [125201]); (125236, [125202]);
   (125237, [125203]); (125238, [125204]); (125239, [125205]); (125240, [125206]);
   (125241, [125207]); (125242, [125208]); (125243, [125209]); (125244, [125210]);
   (125245, [125211]); (125246, [125212]); (125247, [125213]); (125248, [125214]);
   (125249, [125215]); (125250, [125216]); (125251, [125217])].

Fixpoint assoc_cp (cp : Z) (t : list (Z * list Z)) : option (list Z) :=
  match t with
  | [] => None
  | (k, u) :: r => if cp =? k then Some u else assoc_cp cp r
  end.

Definition upper_cp (cp : Z) : list Z :=
  if andb (97 <=? cp) (cp <=? 122) then [cp - 32]
  else if cp <? 128 then [cp]
  else
    match assoc_cp cp upper_table with
    | Some u => u
    | None => [cp]
    end.

Definition toUpperCase (s : string) : string :=
  utf8_encode (flat_map upper_cp (utf8_decode s)).

(** [v.toUpperCase()] *)
Definition call_toUpperCase (v : value) : outcome string :=
  match v with
  | VStr s => Val (toUpperCase s)
  | _ => Throw TypeError
  end.

(** [v.startsWith(p)] *)
Definition call_startsWith (v : value) (p : string) : outcome bool :=
  match v with
  | VStr s => Val (String.prefix p s)
  | _ => Throw TypeError
  end.

(** *** Blanks

    The C library's [isspace], which is also the ASCII part of the blanks of
    ECMAScript. *)
Definition isspace (c : ascii) : bool :=
  let n := nat_of_ascii c in
  orb (Nat.eqb n 32) (andb (Nat.leb 9 n) (Nat.leb n 13)).

Fixpoint skip_isspace (s : string) : string :=
  match s with
  | String c r => if isspace c then skip_isspace r else s
  | EmptyString => s
  end.

(** The blanks of ECMAScript (WhiteSpace and LineTerminator) are the ASCII
    ones and U+00A0, U+1680, U+2000 to U+200A, U+2028, U+2029, U+202F, U+205F,
    U+3000 and U+FEFF.  [blank_prefix s] is what follows the blank at the head
    of [s], when there is one. *)
Definition blank_prefix (s : string) : option string :=
  match s with
  | EmptyString => None
  | String c r =>
      if isspace c then Some r
      else
        match r with
        | String c2 r2 =>
            let n := nat_of_ascii c in
            let n2 := nat_of_ascii c2 in
            if andb (Nat.eqb n 194) (Nat.eqb n2 160) then Some r2
            else
              match r2 with
              | String c3 r3 =>
                  let n3 := nat_of_ascii c3 in
                  if orb (andb (Nat.eqb n 225) (andb (Nat.eqb n2 154) (Nat.eqb n3 128)))
                    (orb (andb (Nat.eqb n 226)
                               (orb (andb (Nat.eqb n2 128)
                                          (orb (andb (Nat.leb 128 n3) (Nat.leb n3 138))
                                               (orb (Nat.eqb n3 168)
                                                    (orb (Nat.eqb n3 169) (Nat.eqb n3 175)))))
                                    (andb (Nat.eqb n2 129) (Nat.eqb n3 159))))
                    (orb (andb (Nat.eqb n 227) (andb (Nat.eqb n2 128) (Nat.eqb n3 128)))
                         (andb (Nat.eqb n 239) (andb (Nat.eqb n2 187) (Nat.eqb n3 191)))))
                  then Some r3 else None
              | EmptyString => None
              end
        | EmptyString => None
        end
  end.

(** Is the text made of blanks only?  Each blank takes at least one byte. *)
Fixpoint only_blanks (fuel : nat) (s : string) : bool :=
  match s with
  | EmptyString => true
  | _ =>
      match fuel with
      | O => false
      | S fuel' =>
          match blank_prefix s with
          | Some r => only_blanks fuel' r
          | None => false
          end
      end
  end.

Fixpoint trim_start (fuel : nat) (s : string) : string :=
  match fuel with
  | O => s
  | S fuel' =>
      match blank_prefix s with
      | Some r => trim_start fuel' r
      | None => s
      end
  end.

Fixpoint trim_end (s : string) : string :=
  match s with
  | EmptyString => EmptyString
  | String c r =>
      if only_blanks (String.length s) s then EmptyString else String c (trim_end r)
  end.

(** [s.trim()] *)
Definition js_trim (s : string) : string :=
  trim_end (trim_start (String.length s) s).

(** *** Reading integers out of text *)

Definition digit_of (radix : Z) (c : ascii) : option Z :=
  let n := Z.of_nat (nat_of_ascii c) in
  let d :=
    if andb (48 <=? n) (n <=? 57) then n - 48
    else if andb (97 <=? n) (n <=? 102) then n - 87
    else if andb (65 <=? n) (n <=? 70) then n - 55
    else radix in
  if d <? radix then Some d else None.

(** The longest run of digits at the head of [s], and what follows it. *)
Fixpoint read_digits (radix : Z) (acc : option Z) (s : string) : option Z * string :=
  match s with
  | String c r =>
      match digit_of radix c with
      | Some d => read_digits radix (Some (radix * match acc with Some a => a | None => 0 end + d)) r
      | None => (acc, s)
      end
  | EmptyString => (acc, s)
  end.

Definition read_sign (s : string) : bool * string :=
  match s with
  | String "-" r => (true, r)
  | String "+" r => (false, r)
  | _ => (false, s)
  end.

(** [parseInt] on a text: leading blanks, a sign, [0x] for radix 16, then the
    longest run of digits. *)
Definition parseInt_text (s : string) : option Z :=
  let (neg, s1) := read_sign (trim_start (String.length s) s) in
  let (radix, s2) :=
    match s1 with
    | String "0" (String "x" r) | String "0" (String "X" r) => (16, r)
    | _ => (10, s1)
    end in
  match fst (read_digits radix None s2) with
  | Some n => Some (if neg then - n else n)
  | None => None
  end.

(** [parseInt(v)]; [None] is [NaN].  The argument is read as text; an integer
    below 2^53 reads back as itself. *)
Definition parseInt (v : value) : option Z :=
  match v with
  | VNum n => if Z.abs n <? 2 ^ 53 then Some n else parseInt_text (number_to_string n)
  | _ => parseInt_text (to_js_string v)
  end.

(** The call [parseInt(v)], which converts [v] to a text first. *)
Definition call_parseInt (v : value) : outcome (option Z) :=
  match ToString v with
  | Val _ => Val (parseInt v)
  | Throw e => Throw e
  end.


(** The first [n] characters of a UTF-8 text, and the rest. *)
Fixpoint utf8_split (n : nat) (s : string) : string * string :=
  match s with
  | EmptyString => (EmptyString, EmptyString)
  | String c r =>
      let k := nat_of_ascii c in
      if andb (Nat.leb 128 k) (Nat.ltb k 192) then
        let (h, t) := utf8_split n r in (String c h, t)
      else
        match n with
        | O => (EmptyString, s)
        | S n' => let (h, t) := utf8_split n' r in (String c h, t)
        end
  end.

Fixpoint all_bytes (p : ascii -> bool) (s : string) : bool :=
  match s with
  | EmptyString => true
  | String c r => andb (p c) (all_bytes p r)
  end.

(* ------------------------------------------------------------------------- *)
(** ** The store: rows and tables of [schema.sql] *)

Module Evento.
(** [lugarID] is declared [NOT NULL]; the handler still tests it for null,
    so the column is kept nullable here. *)
Record row := { eventoID : Z; lugarID : option Z }.
End Evento.

Module Area.
Record row := {
  areaID : Z; nombre : string; capacidad : Z; tipo : string; lugarID : Z }.
End Area.

Module Asiento.
Record row := {
  asientoID : Z; codigo : option string; fila : option Z; columna : option Z;
  estado : string; areaID : Z }.

Definition with_estado (e : string) (r : row) : row :=
  {| asientoID := asientoID r; codigo := codigo r; fila := fila r;
     columna := columna r; estado := e; areaID := areaID r |}.
End Asiento.

Module Croquis.
Record row := { croquisID : Z; eventoID : Z; configuracion : value }.

Definition with_configuracion (c : value) (r : row) : row :=
  {| croquisID := croquisID r; eventoID := eventoID r; configuracion := c |}.
End Croquis.

Record database := {
  tbl_Lugar : list Z;              (* the lugarID column is all the routes use *)
  tbl_Evento : list Evento.row;
  tbl_Area : list Area.row;
  tbl_Asiento : list Asiento.row;
  tbl_Croquis : list Croquis.row }.

Definition with_Area (l : list Area.row) (d : database) : database :=
  {| tbl_Lugar := tbl_Lugar d; tbl_Evento := tbl_Evento d; tbl_Area := l;
     tbl_Asiento := tbl_Asiento d; tbl_Croquis := tbl_Croquis d |}.

Definition with_Asiento (l : list Asiento.row) (d : database) : database :=
  {| tbl_Lugar := tbl_Lugar d; tbl_Evento := tbl_Evento d; tbl_Area := tbl_Area d;
     tbl_Asiento := l; tbl_Croquis := tbl_Croquis d |}.

Definition with_Croquis (l : list Croquis.row) (d : database) : database :=
  {| tbl_Lugar := tbl_Lugar d; tbl_Evento := tbl_Evento d; tbl_Area := tbl_Area d;
     tbl_Asiento := tbl_Asiento d; tbl_Croquis := l |}.

(** The [SERIAL] sequences: next value each will hand out. *)
Record sequences := {
  area_areaid_seq : Z;
  asiento_asientoid_seq : Z;
  croquis_croquisid_seq : Z }.

(** [CREATE TYPE tipo_area], [CREATE TYPE estado_asiento] *)
Definition tipo_area : list string := ["GENERAL"; "VIP"; "ESCENARIO"; "RESERVADO"].
Definition estado_asiento : list string :=
  ["DISPONIBLE"; "OCUPADO"; "RESERVADO"; "BLOQUEADO"].

Definition mem_string (s : string) (l : list string) : bool :=
  existsb (String.eqb s) l.

Definition mem_Z (n : Z) (l : list Z) : bool := existsb (Z.eqb n) l.

(** *** What the driver sends

    node-postgres sends every parameter as text ([prepareValue]): [null] and
    [undefined] as NULL, a number or a boolean through [toString], an array
    as an array literal, any other object through [JSON.stringify]. *)

Definition dquote : string := String (ascii_of_nat 34) EmptyString.

Definition hex_digit (n : nat) : ascii :=
  if Nat.ltb n 10 then ascii_of_nat (48 + n) else ascii_of_nat (87 + n).

(** The escapes of [JSON.stringify] inside a string. *)
Definition json_escape_byte (c : ascii) : string :=
  let n := nat_of_ascii c in
  if Nat.eqb n 34 then "\" ++ dquote
  else if Nat.eqb n 92 then "\\"
  else if Nat.eqb n 8 then "\b"
  else if Nat.eqb n 9 then "\t"
  else if Nat.eqb n 10 then "\n"
  else if Nat.eqb n 12 then "\f"
  else if Nat.eqb n 13 then "\r"
  else if Nat.ltb n 32 then
    "\u00" ++ String (hex_digit (Nat.div n 16)) (String (hex_digit (Nat.modulo n 16)) "")
  else String c "".

Fixpoint json_escape (s : string) : string :=
  match s with
  | EmptyString => EmptyString
  | String c r => json_escape_byte c ++ json_escape r
  end.

Definition json_quote (s : string) : string := dquote ++ json_escape s ++ dquote.

Fixpoint join_with (sep : string) (l : list string) : string :=
  match l with
  | [] => ""
  | [x] => x
  | x :: r => x ++ sep ++ join_with sep r
  end.

(** An array index: the canonical decimal text of an integer below 2^32 - 1.
    The properties so named come first, in ascending order, when the
    properties of an object are enumerated. *)
Definition array_index (k : string) : option Z :=
  match k with
  | EmptyString => None
  | String c r =>
      match read_digits 10 None k with
      | (Some n, EmptyString) =>
          if andb (orb (negb (Ascii.eqb c "0")) (String.eqb r "")) (n <? 4294967295)
          then Some n else None
      | _ => None
      end
  end.

(** A property assigned twice is one property, at its first place. *)
Fixpoint first_of_each {A} (seen : list string) (l : list (string * A)) : list (string * A) :=
  match l with
  | [] => []
  | (k, x) :: r =>
      if existsb (String.eqb k) seen then first_of_each seen r
      else (k, x) :: first_of_each (k :: seen) r
  end.

Fixpoint insert_index {A} (n : Z) (x : A) (l : list (Z * A)) : list (Z * A) :=
  match l with
  | [] => [(n, x)]
  | (m, y) :: r => if n <? m then (n, x) :: l else (m, y) :: insert_index n x r
  end.

(** [Object.keys] order: the array indices in ascending order, then the other
    names in the order of their creation. *)
Definition enumeration_order {A} (l : list (string * A)) : list (string * A) :=
  let own := first_of_each [] l in
  let indexed :=
    fold_right (fun kx acc =>
                  match array_index (fst kx) with
                  | Some n => insert_index n kx acc
                  | None => acc
                  end) [] own in
  (map snd indexed
   ++ filter (fun kx => match array_index (fst kx) with Some _ => false | None => true end)
             own)%list.

(** [JSON.stringify(v)]; [None] is [undefined].  A number that overflowed to
    an infinity is written [null]. *)
Fixpoint json_stringify (v : value) : option string :=
  match v with
  | VUndef => None
  | VNull => Some "null"
  | VBool true => Some "true"
  | VBool false => Some "false"
  | VNum n =>
      if String.eqb (number_to_string (Z.abs n)) "Infinity" then Some "null"
      else Some (number_to_string n)
  | VStr s => Some (json_quote s)
  | VArr items _ =>
      Some ("[" ++ join_with ","
                     ((fix each (l : list value) : list string :=
                         match l with
                         | [] => []
                         | x :: r =>
                             match json_stringify x with
                             | Some t => t
                             | None => "null"
                             end :: each r
                         end) items)
                ++ "]")
  | VObj ps =>
      let texts :=
        (fix each (l : list (string * value)) : list (string * option string) :=
           match l with
           | [] => []
           | (k, x) :: r => (k, json_stringify x) :: each r
           end) ps in
      Some ("{" ++ join_with ","
                     (flat_map (fun kt =>
                                  match snd kt with
                                  | Some t => [json_quote (fst kt) ++ ":" ++ t]
                                  | None => []
                                  end)
                               (enumeration_order texts))
                ++ "}")
  end.

(** [escapeElement] *)
Fixpoint escape_element (s : string) : string :=
  match s with
  | EmptyString => EmptyString
  | String c r =>
      let n := nat_of_ascii c in
      if orb (Nat.eqb n 34) (Nat.eqb n 92) then String "\" (String c (escape_element r))
      else String c (escape_element r)
  end.

(** [arrayString] *)
Fixpoint array_literal (v : value) : string :=
  match v with
  | VArr items _ =>
      "{" ++ join_with ","
               ((fix each (l : list value) : list string :=
                   match l with
                   | [] => []
                   | x :: r =>
                       match x with
                       | VUndef | VNull => "NULL"
                       | VArr _ _ => array_literal x
                       | VObj _ =>
                           dquote
                           ++ escape_element
                                (match json_stringify x with Some t => t | None => "" end)
                           ++ dquote
                       | _ => dquote ++ escape_element (to_js_string x) ++ dquote
                       end :: each r
                   end) items)
          ++ "}"
  | _ => ""
  end.

(** [prepareValue]; [None] is NULL. *)
Definition pg_text (v : value) : option string :=
  match v with
  | VUndef | VNull => None
  | VArr _ _ => Some (array_literal v)
  | VObj _ => json_stringify v
  | _ => Some (to_js_string v)
  end.

(** *** How the server reads the text of a parameter

    The server reads the text at the type of the column.  [None] inside [Val]
    is SQL NULL.  A text that holds a zero byte is refused whatever the
    type. *)

Definition int4_syntax : exn := DbError "invalid input syntax for type integer".
Definition int4_range : exn := DbError "integer out of range".

(** The digits of an integer literal (PostgreSQL 16 and later): single
    underscores may separate digits, and in decimal the first character is a
    digit.  [tmp] is the value read so far, [seen] tells that something was
    read. *)
Fixpoint int4_digits (base : Z) (decimal seen : bool) (tmp : Z) (s : string)
  : outcome (Z * bool * string) :=
  match s with
  | EmptyString => Val (tmp, seen, s)
  | String c r =>
      match digit_of base c with
      | Some d =>
          if 2147483648 / base <? tmp then Throw int4_range
          else int4_digits base decimal true (tmp * base + d) r
      | None =>
          if Ascii.eqb c "_" then
            if andb decimal (negb seen) then Throw int4_syntax
            else
              match r with
              | String c' _ =>
                  match digit_of base c' with
                  | Some _ => int4_digits base decimal true tmp r
                  | None => Throw int4_syntax
                  end
              | EmptyString => Throw int4_syntax
              end
          else Val (tmp, seen, s)
      end
  end.

(** An [INT] column ([pg_strtoint32_safe]): optional blanks, a sign, digits
    in decimal or after [0x], [0o] or [0b], optional blanks, within 32 bits. *)
Definition int4_in (s : string) : outcome Z :=
  let (neg, s1) := read_sign (skip_isspace s) in
  let '(base, decimal, s2) :=
    match s1 with
    | String "0" (String "x" r) | String "0" (String "X" r) => (16, false, r)
    | String "0" (String "o" r) | String "0" (String "O" r) => (8, false, r)
    | String "0" (String "b" r) | String "0" (String "B" r) => (2, false, r)
    | _ => (10, true, s1)
    end in
  match int4_digits base decimal false 0 s2 with
  | Throw e => Throw e
  | Val (tmp, seen, rest) =>
      if negb seen then Throw int4_syntax
      else if negb (String.eqb (skip_isspace rest) "") then Throw int4_syntax
      else if neg then (if 2147483648 <? tmp then Throw int4_range else Val (- tmp))
      else if 2147483647 <? tmp then Throw int4_range else Val tmp
  end.

(** What is not a string is a number, whose text is that of an integer (out
    of range from 2^31 on, and no integer literal once it carries an
    exponent), or a boolean, an array literal or a JSON text, none of which
    is an integer literal. *)
Definition pg_int4 (v : value) : outcome (option Z) :=
  match v with
  | VUndef | VNull => Val None
  | VNum n =>
      if andb (-2147483648 <=? n) (n <=? 2147483647) then Val (Some n)
      else if Z.abs n <? 10 ^ 21 then Throw int4_range
      else Throw int4_syntax
  | VStr s =>
      match int4_in s with
      | Val n => Val (Some n)
      | Throw e => Throw e
      end
  | _ => Throw int4_syntax
  end.

(** An enumerated column: the text has to be one of the labels.  The text of
    an array or of an object starts with a brace, and no label does. *)
Definition pg_enum (labels : list string) (v : value) : outcome (option string) :=
  match v with
  | VUndef | VNull => Val None
  | VArr _ _ | VObj _ => Throw (DbError "invalid input value for enum")
  | _ =>
      if mem_string (to_js_string v) labels then Val (Some (to_js_string v))
      else Throw (DbError "invalid input value for enum")
  end.

Definition is_nul (c : ascii) : bool := Nat.eqb (nat_of_ascii c) 0.
Definition is_blank_byte (c : ascii) : bool := Nat.eqb (nat_of_ascii c) 32.

(** A text assigned to a [VARCHAR(n)] column: what goes beyond [n] characters
    is dropped when it is made of spaces, and refused otherwise. *)
Definition varchar_in (n : Z) (t : string) : outcome string :=
  if negb (all_bytes (fun c => negb (is_nul c)) t)
  then Throw (DbError "invalid byte sequence for encoding UTF8: 0x00")
  else
    let (head, excess) := utf8_split (Z.to_nat n) t in
    if all_bytes is_blank_byte excess then Val head
    else Throw (DbError "value too long for type character varying").

Definition pg_varchar (n : Z) (v : value) : outcome (option string) :=
  match pg_text v with
  | None => Val None
  | Some t =>
      match varchar_in n t with
      | Val r => Val (Some r)
      | Throw e => Throw e
      end
  end.

(** A [JSON] column receiving a JavaScript object.  An object goes through
    [JSON.stringify] and is read back by [JSON.parse]; on a value that came
    out of [JSON.parse] in the first place that round trip changes nothing, so
    the object is stored as it is.  An array goes out as an array literal, and
    only that of the empty array, the text of two braces, is a JSON text (of
    the empty object).  The routes pass nothing else. *)
Definition pg_json (v : value) : outcome value :=
  match v with
  | VObj _ => Val v
  | VUndef | VNull => Val VNull
  | VArr [] _ => Val (VObj [])
  | _ => Throw (DbError "invalid input syntax for type json")
  end.

Definition not_null {A} (column : string) (o : option A) : outcome A :=
  match o with
  | Some a => Val a
  | None => Throw (DbError ("null value in column " ++ column))
  end.

(* ------------------------------------------------------------------------- *)
(** ** Statements

    A statement runs against the tables it sees and the sequences.  A rejected
    statement leaves the tables alone; a sequence value it drew is spent. *)

Definition stmt (A : Type) : Type :=
  database -> sequences -> outcome (A * database) * sequences.

Definition obind {A B} (o : outcome A) (f : A -> outcome B) : outcome B :=
  match o with
  | Val a => f a
  | Throw e => Throw e
  end.

(** Parameters are read before the statement runs. *)
Definition with_param {A B} (o : outcome A) (k : A -> stmt B) : stmt B :=
  fun d q =>
    match o with
    | Val a => k a d q
    | Throw e => (Throw e, q)
    end.

(** A read-only statement. *)
Definition select {A} (f : database -> A) : stmt A :=
  fun d q => (Val (f d, d), q).

Definition eqb_opt (a : option Z) (b : Z) : bool :=
  match a with
  | Some x => x =? b
  | None => false
  end.

(** [SELECT eventoID, lugarID AS lugarid FROM Evento WHERE eventoID = $1] *)
Definition select_evento (eventoID : value) : stmt (list Evento.row) :=
  with_param (pg_int4 eventoID) (fun id =>
    select (fun d => filter (fun e => eqb_opt id (Evento.eventoID e)) (tbl_Evento d))).

(** [INSERT INTO Area (nombre, capacidad, tipo, lugarID)
     VALUES ($1, $2, $3, $4) RETURNING areaID, nombre] *)
Definition insert_area (nombre capacidad tipo : value) (lugarID : Z) : stmt Area.row :=
  with_param (obind (pg_varchar 100 nombre) (not_null "nombre")) (fun n =>
  with_param (obind (pg_int4 capacidad) (not_null "capacidad")) (fun c =>
  with_param (obind (pg_enum tipo_area tipo) (not_null "tipo")) (fun t =>
    fun d q =>
      let id := area_areaid_seq q in
      let q' := {| area_areaid_seq := id + 1;
                   asiento_asientoid_seq := asiento_asientoid_seq q;
                   croquis_croquisid_seq := croquis_croquisid_seq q |} in
      let r := {| Area.areaID := id; Area.nombre := n; Area.capacidad := c;
                  Area.tipo := t; Area.lugarID := lugarID |} in
      if negb (0 <? c) then (Throw (DbError "check_area_capacidad_positiva"), q')
      else if negb (mem_Z lugarID (tbl_Lugar d)) then (Throw (DbError "fk_area_lugar"), q')
      else if mem_Z id (map Area.areaID (tbl_Area d)) then (Throw (DbError "area_pkey"), q')
      else (Val (r, with_Area (tbl_Area d ++ [r]) d), q')))).

(** [SELECT croquisID FROM Croquis WHERE eventoID = $1] *)
Definition select_croquis_id (eventoID : value) : stmt (list Z) :=
  with_param (pg_int4 eventoID) (fun id =>
    select (fun d =>
      map Croquis.croquisID
          (filter (fun c => eqb_opt id (Croquis.eventoID c)) (tbl_Croquis d)))).

(** [UPDATE Croquis SET configuracion = $1, fechaModificacion = NOW()
     WHERE eventoID = $2] *)
Definition update_croquis (configuracion eventoID : value) : stmt unit :=
  with_param (pg_json configuracion) (fun c =>
  with_param (pg_int4 eventoID) (fun id =>
    fun d q =>
      (Val (tt, with_Croquis
                  (map (fun r => if eqb_opt id (Croquis.eventoID r)
                                 then Croquis.with_configuracion c r else r)
                       (tbl_Croquis d)) d), q))).

(** [INSERT INTO Croquis(eventoID, configuracion, fechaCreacion, fechaModificacion)
     VALUES($1, $2, NOW(), NOW())] *)
Definition insert_croquis (eventoID configuracion : value) : stmt unit :=
  with_param (obind (pg_int4 eventoID) (not_null "eventoID")) (fun ev =>
  with_param (pg_json configuracion) (fun c =>
    fun d q =>
      let id := croquis_croquisid_seq q in
      let q' := {| area_areaid_seq := area_areaid_seq q;
                   asiento_asientoid_seq := asiento_asientoid_seq q;
                   croquis_croquisid_seq := id + 1 |} in
      let r := {| Croquis.croquisID := id; Croquis.eventoID := ev;
                  Croquis.configuracion := c |} in
      if mem_Z ev (map Croquis.eventoID (tbl_Croquis d))
      then (Throw (DbError "croquis_eventoid_key"), q')
      else if negb (mem_Z ev (map Evento.eventoID (tbl_Evento d)))
      then (Throw (DbError "fk_croquis_evento"), q')
      else if mem_Z id (map Croquis.croquisID (tbl_Croquis d))
      then (Throw (DbError "croquis_pkey"), q')
      else (Val (tt, with_Croquis (tbl_Croquis d ++ [r]) d), q'))).

(** [INSERT INTO Asiento (codigo, fila, columna, estado, areaID)
     VALUES ($1, $2, $3, $4, $5) RETURNING ...] *)
Definition insert_asiento (codigo fila columna estado areaID : value)
  : stmt Asiento.row :=
  with_param (pg_varchar 20 codigo) (fun co =>
  with_param (pg_int4 fila) (fun fi =>
  with_param (pg_int4 columna) (fun cl =>
  with_param (obind (pg_enum estado_asiento estado) (not_null "estado")) (fun es =>
  with_param (obind (pg_int4 areaID) (not_null "areaID")) (fun ar =>
    fun d q =>
      let id := asiento_asientoid_seq q in
      let q' := {| area_areaid_seq := area_areaid_seq q;
                   asiento_asientoid_seq := id + 1;
                   croquis_croquisid_seq := croquis_croquisid_seq q |} in
      let r := {| Asiento.asientoID := id; Asiento.codigo := co; Asiento.fila := fi;
                  Asiento.columna := cl; Asiento.estado := es; Asiento.areaID := ar |} in
      if negb (mem_Z ar (map Area.areaID (tbl_Area d)))
      then (Throw (DbError "fk_asiento_area"), q')
      else if mem_Z id (map Asiento.asientoID (tbl_Asiento d))
      then (Throw (DbError "asiento_pkey"), q')
      else (Val (r, with_Asiento (tbl_Asiento d ++ [r]) d), q')))))).

(** Does area [areaID] exist and lie in venue [lugarID]? *)
Definition area_in_lugar (d : database) (areaID lugarID : Z) : bool :=
  existsb (fun ar => andb (Area.areaID ar =? areaID) (Area.lugarID ar =? lugarID))
          (tbl_Area d).

(** [SELECT a.asientoID FROM Asiento a JOIN Area ar ON a.areaID = ar.areaID
     WHERE a.asientoID = $1 AND ar.lugarID = $2] *)
Definition select_asiento_in_lugar (asientoID : value) (lugarID : Z) : stmt (list Z) :=
  with_param (pg_int4 asientoID) (fun id =>
    select (fun d =>
      flat_map (fun a =>
        flat_map (fun ar =>
          if andb (Asiento.areaID a =? Area.areaID ar)
                  (andb (eqb_opt id (Asiento.asientoID a)) (Area.lugarID ar =? lugarID))
          then [Asiento.asientoID a] else [])
          (tbl_Area d))
        (tbl_Asiento d))).

(** [UPDATE Asiento SET estado = $1 WHERE asientoID = $2] *)
Definition update_asiento_estado (estado asientoID : value) : stmt unit :=
  with_param (obind (pg_enum estado_asiento estado) (not_null "estado")) (fun es =>
  with_param (pg_int4 asientoID) (fun id =>
    fun d q =>
      (Val (tt, with_Asiento
                  (map (fun r => if eqb_opt id (Asiento.asientoID r)
                                 then Asiento.with_estado es r else r)
                       (tbl_Asiento d)) d), q))).

(** [SELECT configuracion FROM Croquis WHERE eventoID = $1] *)
Definition select_configuracion (eventoID : value) : stmt (list value) :=
  with_param (pg_int4 eventoID) (fun id =>
    select (fun d =>
      map Croquis.configuracion
          (filter (fun c => eqb_opt id (Croquis.eventoID c)) (tbl_Croquis d)))).

(** [ORDER BY a.asientoID ASC] *)
Fixpoint insert_by_id (r : Asiento.row) (l : list Asiento.row) : list Asiento.row :=
  match l with
  | [] => [r]
  | x :: t =>
      if Asiento.asientoID r <=? Asiento.asientoID x then r :: l
      else x :: insert_by_id r t
  end.

Definition order_by_asientoID (l : list Asiento.row) : list Asiento.row :=
  fold_right insert_by_id [] l.

Definition eqb_opt2 (a : Z) (b : option Z) : bool :=
  match b with
  | Some y => a =? y
  | None => false
  end.

(** [SELECT a.asientoID, a.codigo, a.fila, a.columna, a.estado, a.areaID AS areaid
     FROM Asiento a JOIN Area ar ON a.areaID = ar.areaID
     JOIN Evento e ON ar.lugarID = e.lugarID
     WHERE e.eventoID = $1 ORDER BY a.asientoID ASC]
    (the re-read of the PUT and DELETE handlers) *)
Definition seats_of_event (d : database) (id : option Z) : list Asiento.row :=
  order_by_asientoID
    (flat_map (fun a =>
       flat_map (fun ar =>
         flat_map (fun e =>
           if andb (Asiento.areaID a =? Area.areaID ar)
                   (andb (eqb_opt2 (Area.lugarID ar) (Evento.lugarID e))
                         (eqb_opt id (Evento.eventoID e)))
           then [a] else [])
           (tbl_Evento d))
         (tbl_Area d))
       (tbl_Asiento d)).

Definition select_seats (eventoID : value) : stmt (list Asiento.row) :=
  with_param (pg_int4 eventoID) (fun id => select (fun d => seats_of_event d id)).

(** [... FROM Asiento a JOIN Area ar ON a.areaID = ar.areaID
     JOIN Lugar l ON ar.lugarID = l.lugarID
     JOIN Evento e ON l.lugarID = e.lugarID
     WHERE e.eventoID = $1 ORDER BY a.asientoID ASC]
    (the GET handler, which goes through [Lugar]) *)
Definition seats_of_event_via_lugar (d : database) (id : option Z) : list Asiento.row :=
  order_by_asientoID
    (flat_map (fun a =>
       flat_map (fun ar =>
         flat_map (fun l =>
           flat_map (fun e =>
             if andb (Asiento.areaID a =? Area.areaID ar)
                     (andb (Area.lugarID ar =? l)
                           (andb (eqb_opt2 l (Evento.lugarID e))
                                 (eqb_opt id (Evento.eventoID e))))
             then [a] else [])
             (tbl_Evento d))
           (tbl_Lugar d))
         (tbl_Area d))
       (tbl_Asiento d)).

Definition select_seats_via_lugar (eventoID : value) : stmt (list Asiento.row) :=
  with_param (pg_int4 eventoID) (fun id =>
    select (fun d => seats_of_event_via_lugar d id)).

(** [SELECT ar.areaID, ar.lugarID FROM Area ar
     JOIN Lugar l ON ar.lugarID = l.lugarID
     JOIN Evento e ON l.lugarID = e.lugarID
     WHERE ar.areaID = $1 AND e.eventoID = $2] *)
Definition select_area_of_event (areaID eventoID : value) : stmt (list Area.row) :=
  with_param (pg_int4 areaID) (fun aid =>
  with_param (pg_int4 eventoID) (fun eid =>
    select (fun d =>
      flat_map (fun ar =>
        flat_map (fun l =>
          flat_map (fun e =>
            if andb (Area.lugarID ar =? l)
                    (andb (eqb_opt2 l (Evento.lugarID e))
                          (andb (eqb_opt aid (Area.areaID ar))
                                (eqb_opt eid (Evento.eventoID e))))
            then [ar] else [])
            (tbl_Evento d))
          (tbl_Lugar d))
        (tbl_Area d)))).

(** [DELETE FROM Area WHERE areaID = $1 RETURNING areaID], with the
    [ON DELETE CASCADE] of [fk_asiento_area].  Returns [rowCount]. *)
Definition delete_area (areaID : value) : stmt nat :=
  with_param (pg_int4 areaID) (fun aid =>
    fun d q =>
      let gone := filter (fun ar => eqb_opt aid (Area.areaID ar)) (tbl_Area d) in
      let d1 := with_Area (filter (fun ar => negb (eqb_opt aid (Area.areaID ar)))
                                  (tbl_Area d)) d in
      let d2 := with_Asiento
                  (filter (fun a => negb (mem_Z (Asiento.areaID a) (map Area.areaID gone)))
                          (tbl_Asiento d)) d1 in
      (Val (List.length gone, d2), q)).

(** [SELECT croquisID, configuracion FROM Croquis WHERE eventoID = $1] *)
Definition select_croquis (eventoID : value) : stmt (list Croquis.row) :=
  with_param (pg_int4 eventoID) (fun id =>
    select (fun d => filter (fun c => eqb_opt id (Croquis.eventoID c)) (tbl_Croquis d))).

(* ------------------------------------------------------------------------- *)
(** ** The world a handler runs in *)

Record world := {
  committed : database;          (* what every connection sees *)
  pending : option database;     (* the transaction open on [client], if any *)
  seqs : sequences;
  issued : nat;                  (* statements sent so far *)
  faulty : nat -> bool }.        (* does the n-th statement fail on the wire? *)

Definition M (A : Type) : Type := world -> outcome A * world.

Definition ret {A} (a : A) : M A := fun w => (Val a, w).

Definition bind {A B} (m : M A) (f : A -> M B) : M B :=
  fun w =>
    match m w with
    | (Val a, w') => f a w'
    | (Throw e, w') => (Throw e, w')
    end.

(** [try { m } catch (e) { h e }] *)
Definition try_catch {A} (m : M A) (h : exn -> M A) : M A :=
  fun w =>
    match m w with
    | (Val a, w') => (Val a, w')
    | (Throw e, w') => h e w'
    end.

(** A step of plain JavaScript that may throw. *)
Definition lift {A} (o : outcome A) : M A := fun w => (o, w).

Declare Scope monad_scope.
Delimit Scope monad_scope with monad.
Notation "x <- m ;; k" := (bind m (fun x => k))
  (at level 61, m at next level, right associativity) : monad_scope.
Notation "m ;;; k" := (bind m (fun _ => k))
  (at level 61, right associativity) : monad_scope.
Open Scope monad_scope.

Definition sent (w : world) (c : database) (p : option database) (q : sequences)
  : world :=
  {| committed := c; pending := p; seqs := q;
     issued := S (issued w); faulty := faulty w |}.

(** [pool.query(...)]: a statement on a connection of its own, committed at
    once. *)
Definition pool_query {A} (s : stmt A) : M A :=
  fun w =>
    if faulty w (issued w)
    then (Throw ConnError, sent w (committed w) (pending w) (seqs w))
    else
      match s (committed w) (seqs w) with
      | (Val (a, d), q) => (Val a, sent w d (pending w) q)
      | (Throw e, q) => (Throw e, sent w (committed w) (pending w) q)
      end.

(** [client.query(...)]: inside the open transaction when there is one. *)
Definition client_query {A} (s : stmt A) : M A :=
  fun w =>
    if faulty w (issued w)
    then (Throw ConnError, sent w (committed w) (pending w) (seqs w))
    else
      match pending w with
      | Some t =>
          match s t (seqs w) with
          | (Val (a, d), q) => (Val a, sent w (committed w) (Some d) q)
          | (Throw e, q) => (Throw e, sent w (committed w) (pending w) q)
          end
      | None =>
          match s (committed w) (seqs w) with
          | (Val (a, d), q) => (Val a, sent w d None q)
          | (Throw e, q) => (Throw e, sent w (committed w) None q)
          end
      end.

(** [client.query('BEGIN')]; a second BEGIN is only a warning. *)
Definition client_begin : M unit :=
  fun w =>
    if faulty w (issued w)
    then (Throw ConnError, sent w (committed w) (pending w) (seqs w))
    else
      match pending w with
      | Some _ => (Val tt, sent w (committed w) (pending w) (seqs w))
      | None => (Val tt, sent w (committed w) (Some (committed w)) (seqs w))
      end.

(** [client.query('COMMIT')] *)
Definition client_commit : M unit :=
  fun w =>
    if faulty w (issued w)
    then (Throw ConnError, sent w (committed w) (pending w) (seqs w))
    else
      match pending w with
      | Some t => (Val tt, sent w t None (seqs w))
      | None => (Val tt, sent w (committed w) None (seqs w))
      end.

(** [client.query('ROLLBACK')]; outside a transaction it is only a warning. *)
Definition client_rollback : M unit :=
  fun w =>
    if faulty w (issued w)
    then (Throw ConnError, sent w (committed w) (pending w) (seqs w))
    else (Val tt, sent w (committed w) None (seqs w)).

(* ------------------------------------------------------------------------- *)
(** ** The handlers *)

(** What [res.status(..).json(..)] sends.  The [message] of a successful
    answer is left out. *)
Inductive response : Type :=
| Failure (status : Z) (message : string)
| Layout (status : Z) (layoutConfig : value) (seats : list Asiento.row).

Definition first_or {A} (l : list A) (dflt : A) : A :=
  match l with
  | x :: _ => x
  | [] => dflt
  end.

(** *** [GET /:eventoID/layout] *)

Definition get_layout (eventoID : string) : M response :=
  try_catch
    (eventCheckResult <- pool_query (select_evento (VStr eventoID)) ;;
     match eventCheckResult with
     | [] => ret (Failure 404 "Event not found.")
     | _ :: _ =>
         croquisQuery <- pool_query (select_configuracion (VStr eventoID)) ;;
         seatsQuery <- pool_query (select_seats_via_lugar (VStr eventoID)) ;;
         ret (Layout 200 (first_or croquisQuery VNull) seatsQuery)
     end)
    (fun _ => ret (Failure 500 ("Error fetching layout and seats for event " ++ eventoID))).

(** *** [PUT /:eventoID/layout] *)

Definition ceiling : Z := 1000000000.

(** [(table.areaid && typeof table.areaid === 'number' && table.areaid > 1000000000)
     || (table.id && table.id.startsWith('new-table-'))] *)
Definition isTempTable (table : value) : outcome bool :=
  obind (get_prop table "areaid") (fun areaid =>
    if match areaid with VNum n => andb (truthy areaid) (ceiling <? n) | _ => false end
    then Val true
    else
      obind (get_prop table "id") (fun id =>
        if truthy id then call_startsWith id "new-table-" else Val false)).

(** The body of the [asientos.forEach] callback. *)
Definition retarget (tempAreaId realAreaId : value) (asiento : value) : outcome value :=
  let rewrite :=
    obind (set_prop asiento "areaID" realAreaId) (fun a =>
      set_prop a "areaid" realAreaId) in
  obind (get_prop asiento "areaID") (fun upper =>
    if strict_eq upper tempAreaId then rewrite
    else
      obind (get_prop asiento "areaid") (fun lower =>
        if strict_eq lower tempAreaId then rewrite else Val asiento)).

Fixpoint for_each {A B} (f : A -> outcome B) (l : list A) : outcome (list B) :=
  match l with
  | [] => Val []
  | x :: r => obind (f x) (fun y => obind (for_each f r) (fun r' => Val (y :: r')))
  end.

(** The parameters of the [INSERT INTO Area] of a temporary table entry. *)
Definition area_nombre (table : value) : outcome value :=
  obind (get_prop table "nombre") (fun nombre =>
  obind (get_prop table "id") (fun id =>
  obind (ToString (js_or nombre id)) (fun text =>
    Val (VStr ("Área " ++ text))))).

Definition area_capacidad (table : value) : outcome value :=
  obind (get_prop table "capacidad") (fun c => Val (js_or c (VNum 50))).

Definition area_tipo (table : value) : outcome value :=
  obind (get_prop table "tipo") (fun t => Val (js_or t (VStr "GENERAL"))).

(** The body of the [if] at lines 170-194: one temporary table entry.  Of the
    messages logged on the way, those that print a value of the body are
    kept for the conversion they make. *)
Definition create_area (lugarIDDelEvento : Z) (table : value) (asientos : list value)
  : M (value * list value) :=
  tempAreaId <- lift (get_prop table "areaid") ;;
  lift (obind (get_prop table "id") ToString) ;;;   (* the log of line 172 *)
  lift (ToString tempAreaId) ;;;
  nombre <- lift (area_nombre table) ;;
  capacidad <- lift (area_capacidad table) ;;
  tipo <- lift (area_tipo table) ;;
  realArea <- client_query (insert_area nombre capacidad tipo lugarIDDelEvento) ;;
  table1 <- lift (set_prop table "areaid" (VNum (Area.areaID realArea))) ;;
  table2 <- lift (set_prop table1 "id"
                           (VStr ("area-" ++ number_to_string (Area.areaID realArea)))) ;;
  asientos' <- lift (for_each (retarget tempAreaId (VNum (Area.areaID realArea))) asientos) ;;
  ret (table2, asientos').

(** The [for] loop over [configuracionCroquis.tables]. *)
Fixpoint remap_tables (lugarIDDelEvento : Z) (tables asientos : list value)
  : M (list value * list value) :=
  match tables with
  | [] => ret ([], asientos)
  | table :: rest =>
      temporary <- lift (isTempTable table) ;;
      if temporary : bool then
        r <- create_area lugarIDDelEvento table asientos ;;
        r' <- remap_tables lugarIDDelEvento rest (snd r) ;;
        ret (fst r :: fst r', snd r')
      else
        r' <- remap_tables lugarIDDelEvento rest asientos ;;
        ret (table :: fst r', snd r')
  end.

(** Step 2 as a whole: the guard of line 167 around the loop. *)
Definition remap_layout (lugarIDDelEvento : Z) (configuracionCroquis : value)
           (asientos : list value) : M (value * list value) :=
  if truthy configuracionCroquis then
    tables <- lift (get_prop configuracionCroquis "tables") ;;
    match tables with
    | VArr items props =>
        r <- remap_tables lugarIDDelEvento items asientos ;;
        config' <- lift (set_prop configuracionCroquis "tables" (VArr (fst r) props)) ;;
        ret (config', snd r)
    | _ => ret (configuracionCroquis, asientos)
    end
  else ret (configuracionCroquis, asientos).

(** Step 3: update the layout document of the event, or insert it. *)
Definition upsert_croquis (eventoID : string) (configuracionCroquis : value) : M unit :=
  croquisCheck <- client_query (select_croquis_id (VStr eventoID)) ;;
  if is_undefined configuracionCroquis then ret tt
  else
    match croquisCheck with
    | _ :: _ => client_query (update_croquis configuracionCroquis (VStr eventoID))
    | [] => client_query (insert_croquis (VStr eventoID) configuracionCroquis)
    end.

(** [asiento.asientoID === undefined
     || (typeof asiento.asientoID === 'number' && asiento.asientoID > 1000000000)
     || asiento.isNew] *)
Definition isNewSeat (asiento : value) : outcome bool :=
  obind (get_prop asiento "asientoID") (fun id =>
    if is_undefined id then Val true
    else if match id with VNum n => ceiling <? n | _ => false end then Val true
    else obind (get_prop asiento "isNew") (fun isNew => Val (truthy isNew))).

(** [!a || isNaN(parseInt(a)) || parseInt(a) <= 0] *)
Definition invalid_areaID (a : value) : outcome bool :=
  if negb (truthy a) then Val true
  else
    obind (call_parseInt a) (fun parsed =>
      Val (match parsed with
           | None => true
           | Some n => n <=? 0
           end)).

(** The body of the [for (const asiento of asientos)] loop. *)
Definition process_seat (lugarIDDelEvento : Z) (asiento : value) : M unit :=
  isNew <- lift (isNewSeat asiento) ;;
  if isNew : bool then
    areaID <- lift (get_prop asiento "areaID") ;;
    invalid <- lift (invalid_areaID areaID) ;;
    if invalid : bool then
      codigo <- lift (get_prop asiento "codigo") ;;   (* the log of line 213 *)
      lift (ToString codigo) ;;;
      lift (ToString areaID) ;;;
      ret tt
    else
      codigo <- lift (get_prop asiento "codigo") ;;
      fila <- lift (get_prop asiento "fila") ;;
      columna <- lift (get_prop asiento "columna") ;;
      estado <- lift (get_prop asiento "estado") ;;
      upper <- lift (call_toUpperCase estado) ;;
      client_query (insert_asiento codigo (js_or fila VNull) (js_or columna VNull)
                                   (VStr upper) areaID) ;;;
      ret tt
  else
    asientoID <- lift (get_prop asiento "asientoID") ;;
    seatEventCheck <- client_query (select_asiento_in_lugar asientoID lugarIDDelEvento) ;;
    match seatEventCheck with
    | _ :: _ =>
        estado <- lift (get_prop asiento "estado") ;;
        upper <- lift (call_toUpperCase estado) ;;
        client_query (update_asiento_estado (VStr upper) asientoID)
    | [] => lift (ToString asientoID) ;;; ret tt   (* the log of line 231 *)
    end.

Fixpoint process_seats (lugarIDDelEvento : Z) (asientos : list value) : M unit :=
  match asientos with
  | [] => ret tt
  | asiento :: rest =>
      process_seat lugarIDDelEvento asiento ;;;
      process_seats lugarIDDelEvento rest
  end.

(** Steps 2 to 4, between the venue check and COMMIT. *)
Definition reconcile (lugarIDDelEvento : Z) (eventoID : string)
           (configuracionCroquis : value) (asientos : list value) : M unit :=
  r <- remap_layout lugarIDDelEvento configuracionCroquis asientos ;;
  upsert_croquis eventoID (fst r) ;;;
  process_seats lugarIDDelEvento (snd r).

(** The re-read after COMMIT. *)
Definition final_response (eventoID : string) : M response :=
  finalLayoutResponse <- client_query (select_configuracion (VStr eventoID)) ;;
  finalSeatsResponse <- client_query (select_seats (VStr eventoID)) ;;
  ret (Layout 200 (first_or finalLayoutResponse VNull) finalSeatsResponse).

(** The inner [try] block (lines 156-250). *)
Definition put_layout_transaction (eventDetails : Evento.row) (eventoID : string)
           (configuracionCroquis : value) (asientos : list value) : M response :=
  client_begin ;;;
  match Evento.lugarID eventDetails with
  | None =>
      client_rollback ;;;
      ret (Failure 500 "Error interno: No se pudo determinar el lugar del evento.")
  | Some lugarIDDelEvento =>
      reconcile lugarIDDelEvento eventoID configuracionCroquis asientos ;;;
      client_commit ;;;
      final_response eventoID
  end.

Definition put_layout (eventoID : string) (configuracionCroquis asientos : value)
  : M response :=
  try_catch
    (eventDetailsResult <- pool_query (select_evento (VStr eventoID)) ;;
     match eventDetailsResult with
     | [] => ret (Failure 404 "Event not found.")
     | eventDetails :: _ =>
         if andb (negb (is_undefined configuracionCroquis))
                 (orb (negb (typeof_object configuracionCroquis))
                      (strict_eq configuracionCroquis VNull))
         then ret (Failure 400 "Si se proporciona configuracionCroquis, debe ser un objeto válido.")
         else
           match asientos with
           | VArr items _ =>
               try_catch
                 (put_layout_transaction eventDetails eventoID configuracionCroquis items)
                 (fun _ =>
                    client_rollback ;;;
                    ret (Failure 500 "Error saving layout and seat data"))
           | _ => ret (Failure 400 "Se requiere un array de asientos válido.")
           end
     end)
    (fun _ => ret (Failure 500 "Error processing layout request")).

(** *** [DELETE /:eventoID/areas/:areaID] *)

(** [isNaN(parseInt(s)) || parseInt(s) <= 0] *)
Definition invalid_id (s : string) : bool :=
  match parseInt (VStr s) with
  | None => true
  | Some n => n <=? 0
  end.

(** [table => table.areaid !== parseInt(areaID)] *)
Definition other_area (areaID : string) (table : value) : outcome bool :=
  obind (get_prop table "areaid") (fun areaid =>
    Val (negb (strict_eq areaid
                 (match parseInt (VStr areaID) with Some n => VNum n | None => VUndef end)))).

Fixpoint js_filter (f : value -> outcome bool) (l : list value) : outcome (list value) :=
  match l with
  | [] => Val []
  | x :: r =>
      obind (f x) (fun keep =>
        obind (js_filter f r) (fun r' => Val (if keep : bool then x :: r' else r')))
  end.

(** Lines 302-310: drop the table entries of the deleted area. *)
Definition prune_croquis (eventoID areaID : string) : M unit :=
  croquisResult <- client_query (select_croquis (VStr eventoID)) ;;
  match croquisResult with
  | [] => ret tt
  | row :: _ =>
      let currentConfig := Croquis.configuracion row in
      if truthy currentConfig then
        tables <- lift (get_prop currentConfig "tables") ;;
        match tables with
        | VArr items _ =>
            kept <- lift (js_filter (other_area areaID) items) ;;
            config' <- lift (set_prop currentConfig "tables" (VArr kept [])) ;;
            client_query (update_croquis config' (VStr eventoID))
        | _ => ret tt
        end
      else ret tt
  end.

Definition delete_area_final (eventoID : string) : M response :=
  finalLayoutResponse <- client_query (select_configuracion (VStr eventoID)) ;;
  finalSeatsResponse <- client_query (select_seats (VStr eventoID)) ;;
  ret (Layout 200 (first_or finalLayoutResponse (VObj [("tables", VArr [] [])]))
              finalSeatsResponse).

Definition delete_area_route (eventoID areaID : string) : M response :=
  if orb (invalid_id eventoID) (invalid_id areaID)
  then ret (Failure 400 "IDs de evento y área inválidos.")
  else
    try_catch
      (client_begin ;;;
       eventCheck <- client_query (select_evento (VStr eventoID)) ;;
       match eventCheck with
       | [] => client_rollback ;;; ret (Failure 404 "Evento no encontrado.")
       | _ :: _ =>
           areaCheck <- client_query (select_area_of_event (VStr areaID) (VStr eventoID)) ;;
           match areaCheck with
           | [] =>
               client_rollback ;;;
               ret (Failure 404 ("Área con ID " ++ areaID
                                 ++ " no encontrada o no pertenece al evento "
                                 ++ eventoID ++ "."))
           | _ :: _ =>
               deleteAreaResult <- client_query (delete_area (VStr areaID)) ;;
               match deleteAreaResult with
               | O =>
                   client_rollback ;;;
                   ret (Failure 404 ("No se pudo eliminar el Área con ID "
                                     ++ areaID ++ "."))
               | S _ =>
                   prune_croquis eventoID areaID ;;;
                   client_commit ;;;
                   delete_area_final eventoID
               end
           end
       end)
      (fun _ =>
         client_rollback ;;;
         ret (Failure 500 "Error interno del servidor al eliminar el área.")).

(* ------------------------------------------------------------------------- *)
(** ** Vocabulary of the specifications *)

(** The tables a statement on [client] would see. *)
Definition current (w : world) : database :=
  match pending w with
  | Some t => t
  | None => committed w
  end.

(** A relation every step of a computation keeps. *)
Definition preserves (R : world -> world -> Prop) {A} (m : M A) : Prop :=
  forall w, R w (snd (m w)).

(** Inside a transaction nothing committed changes. *)
Definition in_transaction (w w' : world) : Prop :=
  pending w <> None -> committed w' = committed w /\ pending w' <> None.

(** The body passes the two checks of lines 146-151. *)
Definition well_formed_body (configuracionCroquis asientos : value) : Prop :=
  (configuracionCroquis = VUndef
   \/ (typeof_object configuracionCroquis = true /\ configuracionCroquis <> VNull))
  /\ isArray asientos = true.

Definition items_of (v : value) : list value :=
  match v with
  | VArr items _ => items
  | _ => []
  end.

(** An error is raised in steps 1 to 4 of a reconciliation started in [w],
    leaving the world in [w_err]: while the event is looked up, when the
    transaction is opened, because the event has no venue, or somewhere
    between the remapping of the areas and the last seat. *)
Inductive fails_before_commit (eventoID : string) (configuracionCroquis asientos : value)
          (w : world) : world -> Prop :=
| fails_in_lookup e w0 :
    pool_query (select_evento (VStr eventoID)) w = (Throw e, w0) ->
    fails_before_commit eventoID configuracionCroquis asientos w w0
| fails_in_begin ev rest w0 e w1 :
    pool_query (select_evento (VStr eventoID)) w = (Val (ev :: rest), w0) ->
    well_formed_body configuracionCroquis asientos ->
    client_begin w0 = (Throw e, w1) ->
    fails_before_commit eventoID configuracionCroquis asientos w w1
| fails_without_venue ev rest w0 w1 :
    pool_query (select_evento (VStr eventoID)) w = (Val (ev :: rest), w0) ->
    well_formed_body configuracionCroquis asientos ->
    client_begin w0 = (Val tt, w1) ->
    Evento.lugarID ev = None ->
    fails_before_commit eventoID configuracionCroquis asientos w w1
| fails_in_reconcile ev rest w0 w1 lugar e w2 :
    pool_query (select_evento (VStr eventoID)) w = (Val (ev :: rest), w0) ->
    well_formed_body configuracionCroquis asientos ->
    client_begin w0 = (Val tt, w1) ->
    Evento.lugarID ev = Some lugar ->
    reconcile lugar eventoID configuracionCroquis (items_of asientos) w1 = (Throw e, w2) ->
    fails_before_commit eventoID configuracionCroquis asientos w w2.

(** *** Sample data *)

Module Sample.
Definition db : database :=
  {| tbl_Lugar := [1];
     tbl_Evento := [{| Evento.eventoID := 1; Evento.lugarID := Some 1 |}];
     tbl_Area := []; tbl_Asiento := []; tbl_Croquis := [] |}.

Definition fresh : sequences :=
  {| area_areaid_seq := 1; asiento_asientoid_seq := 1; croquis_croquisid_seq := 1 |}.

(** A store at rest on a connection that never fails. *)
Definition w : world :=
  {| committed := db; pending := None; seqs := fresh; issued := 0;
     faulty := fun _ => false |}.

(** The same store, inside a transaction. *)
Definition w_tx : world :=
  {| committed := db; pending := Some db; seqs := fresh; issued := 0;
     faulty := fun _ => false |}.

(** The layout and the seat list of the scenario of the specification. *)
Definition mesa1 : value :=
  VObj [("id", VStr "new-table-1"); ("areaid", VNum 1111111111);
        ("nombre", VStr "Mesa 1"); ("capacidad", VNum 8); ("tipo", VStr "GENERAL")].

Definition layout : value := VObj [("tables", VArr [mesa1] [])].

Definition seatA1 : value :=
  VObj [("codigo", VStr "A1"); ("estado", VStr "disponible");
        ("areaID", VNum 1111111111); ("isNew", VBool true)].

Definition seats : value := VArr [seatA1] [].

(** Two new tables sent with one and the same temporary identifier. *)
Definition mesa2 : value :=
  VObj [("id", VStr "new-table-2"); ("areaid", VNum 1111111111);
        ("nombre", VStr "Mesa 2")].

Definition twin_layout : value := VObj [("tables", VArr [mesa1; mesa2] [])].

(** A seat sent with a client-side string for identifier, and no marker. *)
Definition seat_with_string_id : value :=
  VObj [("asientoID", VStr "new-seat-1"); ("codigo", VStr "B1");
        ("estado", VStr "disponible"); ("areaID", VNum 1)].

(** A new seat without area. *)
Definition seat_without_area : value :=
  VObj [("codigo", VStr "C1"); ("estado", VStr "disponible"); ("isNew", VBool true)].

(** A new seat that forgot its state. *)
Definition seat_without_estado : value :=
  VObj [("codigo", VStr "A1"); ("areaID", VNum 1111111111); ("isNew", VBool true)].

(** The connection drops the eighth statement of the request: the first
    re-read after COMMIT in the run of the scenario. *)
Definition w_reread_fails : world :=
  {| committed := db; pending := None; seqs := fresh; issued := 0;
     faulty := fun n => Nat.eqb n 7 |}.

(** A store in use: event 1 in venue 1 with area 10 and seat 100; area 20
    and seat 200 belong to venue 2. *)
Definition mesa10 : value :=
  VObj [("id", VStr "area-10"); ("areaid", VNum 10); ("nombre", VStr "Mesa 10")].

Definition mesa11 : value :=
  VObj [("id", VStr "area-11"); ("areaid", VNum 11); ("nombre", VStr "Mesa 11")].

Definition db_in_use : database :=
  {| tbl_Lugar := [1; 2];
     tbl_Evento := [{| Evento.eventoID := 1; Evento.lugarID := Some 1 |}];
     tbl_Area :=
       [{| Area.areaID := 10; Area.nombre := "Área Mesa 10"; Area.capacidad := 8;
           Area.tipo := "GENERAL"; Area.lugarID := 1 |};
        {| Area.areaID := 20; Area.nombre := "Área Sala"; Area.capacidad := 50;
           Area.tipo := "VIP"; Area.lugarID := 2 |}];
     tbl_Asiento :=
       [{| Asiento.asientoID := 100; Asiento.codigo := Some "A1";
           Asiento.fila := None; Asiento.columna := None;
           Asiento.estado := "DISPONIBLE"; Asiento.areaID := 10 |};
        {| Asiento.asientoID := 200; Asiento.codigo := Some "S1";
           Asiento.fila := None; Asiento.columna := None;
           Asiento.estado := "DISPONIBLE"; Asiento.areaID := 20 |}];
     tbl_Croquis :=
       [{| Croquis.croquisID := 1; Croquis.eventoID := 1;
           Croquis.configuracion := VObj [("tables", VArr [mesa10; mesa11] [])] |}] |}.

Definition w_in_use : world :=
  {| committed := db_in_use; pending := None;
     seqs := {| area_areaid_seq := 21; asiento_asientoid_seq := 201;
                croquis_croquisid_seq := 2 |};
     issued := 0; faulty := fun _ => false |}.

(** A request that only changes the state of seat 100. *)
Definition layout_in_use : value := VObj [("tables", VArr [mesa10; mesa11] [])].

Definition seat100_ocupado : value :=
  VObj [("asientoID", VNum 100); ("estado", VStr "ocupado"); ("areaID", VNum 10)].

(** An update aimed at seat 200, which lies in the other venue. *)
Definition seat200_ocupado : value :=
  VObj [("asientoID", VNum 200); ("estado", VStr "ocupado")].

(** A new seat for area 10. *)
Definition seatB2 : value :=
  VObj [("codigo", VStr "B2"); ("estado", VStr "reservado");
        ("areaID", VNum 10); ("isNew", VBool true)].

(** New seats for area 10 at the edges of what JavaScript, the driver and
    the server read: a state spelled with the dotless i (U+0131); an area
    given as the text of 10 after a no-break space (U+00A0); an object for
    code; a code of two letters followed by thirty spaces; a code with a
    property named [toString], on a seat without area. *)
Definition seat_dotless_i : value :=
  VObj [("codigo", VStr "D1"); ("estado", VStr "dısponıble");
        ("areaID", VNum 10); ("isNew", VBool true)].

Definition nbsp_10 : string :=
  String (ascii_of_nat 194) (String (ascii_of_nat 160) "10").

Definition seat_nbsp_area : value :=
  VObj [("codigo", VStr "N1"); ("estado", VStr "disponible");
        ("areaID", VStr nbsp_10); ("isNew", VBool true)].

Definition seat_object_code : value :=
  VObj [("codigo", VObj []); ("estado", VStr "disponible");
        ("areaID", VNum 10); ("isNew", VBool true)].

Definition seat_padded_code : value :=
  VObj [("codigo", VStr "P1                              ");
        ("estado", VStr "disponible"); ("areaID", VNum 10); ("isNew", VBool true)].

Definition seat_unprintable_code : value :=
  VObj [("codigo", VObj [("toString", VNull)]); ("estado", VStr "disponible");
        ("isNew", VBool true)].
End Sample.

(** *** How the tables of a world descend from those of an earlier one *)

(** The tables a world holds: the committed ones and those of the open
    transaction. *)
Definition dbs (w : world) : list database :=
  committed w :: match pending w with Some t => [t] | None => [] end.

(** Every table set of [w'] comes, through [Q], from one of [w]. *)
Definition evolves (Q : database -> database -> Prop) (w w' : world) : Prop :=
  forall d', In d' (dbs w') -> exists d, In d (dbs w) /\ Q d d'.

(** A statement that, when it goes through, takes the tables along [Q]. *)
Definition stmt_keeps (Q : database -> database -> Prop) {A} (s : stmt A) : Prop :=
  forall d q a d' q', s d q = (Val (a, d'), q') -> Q d d'.

(** No Area row and no Seat row appears or disappears. *)
Definition same_rows (d d' : database) : Prop :=
  tbl_Area d' = tbl_Area d
  /\ map Asiento.asientoID (tbl_Asiento d') = map Asiento.asientoID (tbl_Asiento d).

(** The [estado] values a seat list submits. *)
Definition estados (items : list value) : list value :=
  flat_map (fun asiento =>
              match get_prop asiento "estado" with
              | Val v => [v]
              | Throw _ => []
              end) items.

(** The state of row [r] is a label of [estado_asiento], and the upper-case
    form of a state submitted in [items]. *)
Definition normalised (items : list value) (r : Asiento.row) : Prop :=
  In (Asiento.estado r) estado_asiento
  /\ exists e, In (VStr e) (estados items) /\ Asiento.estado r = toUpperCase e.

(** Every Seat row of [d'] is a row of [d] or was written with a normalised
    state. *)
Definition seats_written (items : list value) (d d' : database) : Prop :=
  forall r, In r (tbl_Asiento d') -> In r (tbl_Asiento d) \/ normalised items r.

Definition estado_from (items : list value) (asiento : value) : Prop :=
  forall v, get_prop asiento "estado" = Val v -> In v (estados items).

(** The two constraints of [schema.sql] the GET handler's join relies on:
    [lugarID] is the primary key of [Lugar], and [fk_area_lugar]. *)
Definition schema_ok (d : database) : Prop :=
  NoDup (tbl_Lugar d)
  /\ forall ar, In ar (tbl_Area d) -> In (Area.lugarID ar) (tbl_Lugar d).

Definition keeps_schema (d d' : database) : Prop :=
  tbl_Lugar d' = tbl_Lugar d
  /\ tbl_Evento d' = tbl_Evento d
  /\ (schema_ok d -> schema_ok d').

Definition by_asientoID (a b : Asiento.row) : Prop :=
  Asiento.asientoID a <= Asiento.asientoID b.

Definition is_object (v : value) : bool :=
  match v with
  | VObj _ | VArr _ _ => true
  | _ => false
  end.

(** The two area references of a seat descriptor, [areaID] and [areaid]. *)
Definition area_refs (asiento : value) : outcome (value * value) :=
  obind (get_prop asiento "areaID") (fun upper =>
    obind (get_prop asiento "areaid") (fun lower => Val (upper, lower))).

(** What one resolved entry does to a pair of references. *)
Definition follow_step (tempAreaId realAreaId : value) (refs : value * value)
  : value * value :=
  if orb (strict_eq (fst refs) tempAreaId) (strict_eq (snd refs) tempAreaId)
  then (realAreaId, realAreaId) else refs.

(** ... and what the resolved entries do, in the order of the layout. *)
Definition follow (steps : list (value * Area.row)) (refs : value * value)
  : value * value :=
  fold_left (fun r step => follow_step (fst step) (VNum (Area.areaID (snd step))) r)
            steps refs.

(** A descriptor that is an object leaves the loop as an object, with the
    references [follow] computes. *)
Definition follows (steps : list (value * Area.row)) (s s' : value) : Prop :=
  is_object s = true ->
  is_object s' = true
  /\ exists refs, area_refs s = Val refs /\ area_refs s' = Val (follow steps refs).

(** [remapped tables steps tables']: the entries of [tables] that are not
    temporary are unchanged in [tables']; each temporary one has one step,
    made of its temporary identifier and of the Area row created for it, and
    carries the identifier of that row in [tables']. *)
Inductive remapped : list value -> list (value * Area.row) -> list value -> Prop :=
| remapped_nil : remapped [] [] []
| remapped_keep table tables steps tables' :
    isTempTable table = Val false ->
    remapped tables steps tables' ->
    remapped (table :: tables) steps (table :: tables')
| remapped_temp table tempAreaId row table' tables steps tables' :
    isTempTable table = Val true ->
    get_prop table "areaid" = Val tempAreaId ->
    get_prop table' "areaid" = Val (VNum (Area.areaID row)) ->
    get_prop table' "id" = Val (VStr ("area-" ++ number_to_string (Area.areaID row))) ->
    remapped tables steps tables' ->
    remapped (table :: tables) ((tempAreaId, row) :: steps) (table' :: tables').


(** C4 as the specification words it: a seat descriptor whose identifier is
    a string, or absent, or a number above the ceiling, or that carries the
    marker, is taken for a seat that does not exist yet. *)
Definition temporary_ids_taken_for_new : Prop :=
  forall asiento id isNew,
    get_prop asiento "asientoID" = Val id ->
    get_prop asiento "isNew" = Val isNew ->
    ((exists s, id = VStr s) \/ id = VUndef
     \/ (exists n, id = VNum n /\ ceiling < n) \/ truthy isNew = true) ->
    isNewSeat asiento = Val true.



(** *** Deleting an area *)



(** The layout document of event [eid], if it has one. *)
Definition layout_of (d : database) (eid : Z) : option value :=
  match filter (fun c => eqb_opt (Some eid) (Croquis.eventoID c)) (tbl_Croquis d) with
  | c :: _ => Some (Croquis.configuracion c)
  | [] => None
  end.

(** The layout documents of the other events. *)
Definition other_layouts (d : database) (eid : Z) : list Croquis.row :=
  filter (fun c => negb (eqb_opt (Some eid) (Croquis.eventoID c))) (tbl_Croquis d).


(** Area [aid] lies in the venue of event [eid]. *)
Definition area_of_event (d : database) (aid eid : Z) : Prop :=
  exists ar e,
    In ar (tbl_Area d) /\ Area.areaID ar = aid
    /\ In (Area.lugarID ar) (tbl_Lugar d)
    /\ In e (tbl_Evento d) /\ Evento.eventoID e = eid
    /\ Evento.lugarID e = Some (Area.lugarID ar).

(* ------------------------------------------------------------------------- *)
(** ** The middlewares in front of the handlers

    [authenticateToken] (the middleware source appended to [src/index.js])
    and [authorizeRoles] ([src/middleware/roleMiddleware.js]). *)

(** [s.split(' ')] *)
Fixpoint split_space (s : string) : list string :=
  match s with
  | EmptyString => [EmptyString]
  | String c r =>
      if Ascii.eqb c " " then EmptyString :: split_space r
      else
        match split_space r with
        | h :: t => String c h :: t
        | [] => [String c EmptyString]
        end
  end.

(** What a middleware does with a request: hand it on ([next()]), here with
    what it attached to the request, or answer it. *)
Inductive gate (A : Type) : Type :=
| Pass (a : A)
| Stop (status : Z) (message : string).
Arguments Pass {A} a.
Arguments Stop {A} status message.

Section Auth.
(** [jwt.verify(token, jwtSecret, callback)] of the jsonwebtoken library:
    the payload of the tokens it accepts. *)
Variable verify : string -> option value.

(** [authenticateToken]; [authHeader] is [req.headers['authorization']], and
    what passes is the payload the handler finds in [req.user].  The
    library refuses a token that is not a string. *)
Definition authenticateToken (authHeader : value) : outcome (gate value) :=
  obind
    (if truthy authHeader then
       match authHeader with
       | VStr h => Val (nth 1 (map VStr (split_space h)) VUndef)
       | _ => Throw TypeError
       end
     else Val authHeader)
    (fun token =>
       if is_nullish token then Val (Stop 401 "Authentication token required")
       else
         match token with
         | VStr t =>
             match verify t with
             | Some user => Val (Pass user)
             | None => Val (Stop 403 "Invalid or expired token")
             end
         | _ => Val (Stop 403 "Invalid or expired token")
         end).

(** [authorizeRoles(roles)], applied to [req.user]. *)
Definition authorizeRoles (roles : list string) (user : value) : outcome (gate unit) :=
  if negb (truthy user) then Val (Stop 401 "Authentication required")
  else
    obind (get_prop user "role") (fun role =>
      if negb (truthy role) then Val (Stop 401 "Authentication required")
      else
        obind (call_toUpperCase role) (fun userRole =>
          let allowedRoles := map toUpperCase roles in
          if mem_string userRole allowedRoles then Val (Pass tt)
          else Val (Stop 403 "Forbidden: You do not have the required role to access this resource."))).

(** [router.METHOD(path, authenticateToken, authorizeRoles(roles), handler)];
    [reject] is [res.status(..).json({ message })]. *)
Definition protected {R} (reject : Z -> string -> R) (roles : list string)
           (authHeader : value) (handler : M R) : M R :=
  auth <- lift (authenticateToken authHeader) ;;
  match auth with
  | Stop status message => ret (reject status message)
  | Pass user =>
      allowed <- lift (authorizeRoles roles user) ;;
      match allowed with
      | Stop status message => ret (reject status message)
      | Pass _ => handler
      end
  end.

(** Lines 98, 129 and 265 of [eventRoutes.js]. *)
Definition route_get_layout (authHeader : value) (eventoID : string) : M response :=
  protected Failure ["ORGANIZADOR"; "ADMINISTRADOR"; "ASISTENTE"] authHeader
            (get_layout eventoID).

Definition route_put_layout (authHeader : value) (eventoID : string)
           (configuracionCroquis asientos : value) : M response :=
  protected Failure ["ORGANIZADOR"; "ADMINISTRADOR"] authHeader
            (put_layout eventoID configuracionCroquis asientos).

Definition route_delete_area (authHeader : value) (eventoID areaID : string)
  : M response :=
  protected Failure ["ORGANIZADOR"; "ADMINISTRADOR"] authHeader
            (delete_area_route eventoID areaID).
End Auth.

(* ------------------------------------------------------------------------- *)
(** ** [POST /:eventoID/asientos] *)

Definition validSeatStates : list string :=
  ["DISPONIBLE"; "OCUPADO"; "RESERVADO"; "BLOQUEADO"].

(** [(v !== undefined && !isNaN(parseInt(v))) ? parseInt(v) : null] *)
Definition parsed_or_null (v : value) : outcome value :=
  if is_undefined v then Val VNull
  else
    obind (call_parseInt v) (fun parsed =>
      Val (match parsed with
           | Some n => VNum n
           | None => VNull
           end)).

(** [SELECT areaID FROM Area WHERE areaID = $1 AND lugarID = $2]; the second
    parameter is the [lugarid] read from the event row. *)
Definition select_area_in_lugar (areaID : value) (lugarID : option Z) : stmt (list Z) :=
  with_param (pg_int4 areaID) (fun aid =>
    select (fun d =>
      map Area.areaID
          (filter (fun ar => andb (eqb_opt aid (Area.areaID ar))
                                  (eqb_opt lugarID (Area.lugarID ar)))
                  (tbl_Area d)))).

Inductive seat_reply : Type :=
| SeatFailure (status : Z) (message : string)
| SeatCreated (status : Z) (nuevoAsiento : Asiento.row).

(** The transaction of lines 354-383. *)
Definition post_asiento_transaction (eventoID : string) (codigo : string)
           (fila columna : value) (upper : string) (areaID : value) (parsedArea : Z)
  : M seat_reply :=
  client_begin ;;;
  eventCheck <- client_query (select_evento (VStr eventoID)) ;;
  match eventCheck with
  | [] => client_rollback ;;; ret (SeatFailure 404 "Evento no encontrado.")
  | ev :: _ =>
      areaCheck <- client_query (select_area_in_lugar areaID (Evento.lugarID ev)) ;;
      match areaCheck with
      | [] =>
          client_rollback ;;;
          ret (SeatFailure 400 ("El área con ID " ++ to_js_string areaID
                                ++ " no existe o no pertenece al lugar del evento."))
      | _ :: _ =>
          parsedFila <- lift (parsed_or_null fila) ;;
          parsedColumna <- lift (parsed_or_null columna) ;;
          nuevoAsiento <- client_query
                            (insert_asiento (VStr (js_trim codigo)) parsedFila
                                            parsedColumna (VStr upper)
                                            (VNum parsedArea)) ;;
          client_commit ;;;
          ret (SeatCreated 201 nuevoAsiento)
      end
  end.

Definition post_asiento (eventoID : string) (body : value) : M seat_reply :=
  codigo <- lift (get_prop body "codigo") ;;
  fila <- lift (get_prop body "fila") ;;
  columna <- lift (get_prop body "columna") ;;
  estado <- lift (get_prop body "estado") ;;
  areaID <- lift (get_prop body "areaID") ;;
  match codigo with
  | VStr c =>
      if orb (negb (truthy codigo)) (String.eqb (js_trim c) "")
      then ret (SeatFailure 400 "El código del asiento es requerido.")
      else
        parsedArea <- lift (if is_undefined areaID then Val None
                            else call_parseInt areaID) ;;
        match parsedArea with
        | Some n =>
            if n <=? 0 then ret (SeatFailure 400 "Un areaID válido es requerido.")
            else if negb (truthy estado)
            then ret (SeatFailure 400 "Estado de asiento inválido. Use uno de: DISPONIBLE, OCUPADO, RESERVADO, BLOQUEADO.")
            else
              upper <- lift (call_toUpperCase estado) ;;
              if negb (mem_string upper validSeatStates)
              then ret (SeatFailure 400 "Estado de asiento inválido. Use uno de: DISPONIBLE, OCUPADO, RESERVADO, BLOQUEADO.")
              else
                try_catch
                  (post_asiento_transaction eventoID c fila columna upper areaID n)
                  (fun _ =>
                     client_rollback ;;;
                     ret (SeatFailure 500 "Error interno del servidor al crear el asiento."))
        | None => ret (SeatFailure 400 "Un areaID válido es requerido.")
        end
  | _ => ret (SeatFailure 400 "El código del asiento es requerido.")
  end.

Section AuthSeat.
Variable verify : string -> option value.

(** Line 338 of [eventRoutes.js]. *)
Definition route_post_asiento (authHeader : value) (eventoID : string) (body : value)
  : M seat_reply :=
  protected verify SeatFailure ["ORGANIZADOR"; "ADMINISTRADOR"] authHeader
            (post_asiento eventoID body).
End AuthSeat.

(* ------------------------------------------------------------------------- *)
(** ** Further vocabulary *)

(** The columns of a seat a reconciliation never writes. *)
Definition seat_core (r : Asiento.row) : Z * option string * option Z * option Z * Z :=
  (Asiento.asientoID r, Asiento.codigo r, Asiento.fila r, Asiento.columna r,
   Asiento.areaID r).

(** From [d] to [d'] venues and events are untouched, Area rows are only
    added, and so are Seat rows, the older ones keeping all but their state. *)
Definition grows (d d' : database) : Prop :=
  tbl_Lugar d' = tbl_Lugar d
  /\ tbl_Evento d' = tbl_Evento d
  /\ (exists added, tbl_Area d' = (tbl_Area d ++ added)%list)
  /\ (exists added,
        map seat_core (tbl_Asiento d') = (map seat_core (tbl_Asiento d) ++ added)%list).

(** The layout documents of the events other than [eid] are untouched. *)
Definition same_other_layouts (eid : Z) (d d' : database) : Prop :=
  other_layouts d' eid = other_layouts d eid.

Definition same_croquis (d d' : database) : Prop := tbl_Croquis d' = tbl_Croquis d.

(** What a deletion of area [aid] through event [eid] may do to the tables:
    venues, events and the layout documents of the other events stay; the
    Area and Seat tables are as before, or have lost exactly the rows of that
    area. *)
Definition deletes_only (aid eid : Z) (d d' : database) : Prop :=
  tbl_Lugar d' = tbl_Lugar d
  /\ tbl_Evento d' = tbl_Evento d
  /\ other_layouts d' eid = other_layouts d eid
  /\ ((tbl_Area d' = tbl_Area d /\ tbl_Asiento d' = tbl_Asiento d)
      \/ (tbl_Area d' = filter (fun ar => negb (Area.areaID ar =? aid)) (tbl_Area d)
          /\ tbl_Asiento d'
             = filter (fun a => negb (Asiento.areaID a =? aid)) (tbl_Asiento d))).

(** A relation between the tables [client] sees before and after. *)
Definition tracks (Q : database -> database -> Prop) (w w' : world) : Prop :=
  Q (current w) (current w').

(** How a table entry of the submitted layout is found in the stored one: as
    it was when it is not temporary, and with at most [areaid] and [id]
    rewritten when it is. *)
Definition entry_stored (table table' : value) : Prop :=
  (isTempTable table = Val false -> table' = table)
  /\ forall k, k <> "areaid" -> k <> "id" -> get_prop table' k = get_prop table k.

(** How the submitted layout document is found in the stored one: every key
    but [tables] as submitted, and [tables], when an array, entry by entry in
    the order submitted. *)
Definition document_stored (config layoutConfig : value) : Prop :=
  (forall k, k <> "tables" -> get_prop layoutConfig k = get_prop config k)
  /\ match get_prop config "tables" with
     | Val (VArr items props) =>
         exists items',
           get_prop layoutConfig "tables" = Val (VArr items' props)
           /\ Forall2 entry_stored items items'
     | _ => layoutConfig = config
     end.

Definition same_areas_and_croquis (d d' : database) : Prop :=
  tbl_Area d' = tbl_Area d /\ tbl_Croquis d' = tbl_Croquis d.

Fixpoint no_blank (s : string) : bool :=
  match s with
  | EmptyString => true
  | String c r => andb (negb (Ascii.eqb c " ")) (no_blank r)
  end.

(** The request carries, as second field of its [Authorization] header (or
    as an empty header), a token that [verify] accepts, for a user whose role
    is one of [roles] up to case. *)
Definition presented (verify : string -> option value) (roles : list string)
           (authHeader : value) : Prop :=
  exists h token user role,
    authHeader = VStr h
    /\ (nth_error (split_space h) 1 = Some token \/ (h = "" /\ token = ""))
    /\ verify token = Some user
    /\ get_prop user "role" = Val (VStr role)
    /\ In (toUpperCase role) (map toUpperCase roles).

(** The request was turned away by a middleware: answered 401 or 403, or
    failed on a malformed header or payload. *)
Definition refusal {R} (reject : Z -> string -> R) (o : outcome R) : Prop :=
  o = Throw TypeError
  \/ exists status message,
      o = Val (reject status message) /\ (status = 401 \/ status = 403).

(** *** More sample data *)

Module Venue.
(** Venue 1 holds events 1 and 2, venue 2 holds event 3; area 10 (seat
    100) lies in venue 1 and area 20 (seat 200) in venue 2.  No event has
    a layout document yet. *)
Definition db : database :=
  {| tbl_Lugar := [1; 2];
     tbl_Evento := [{| Evento.eventoID := 1; Evento.lugarID := Some 1 |};
                    {| Evento.eventoID := 2; Evento.lugarID := Some 1 |};
                    {| Evento.eventoID := 3; Evento.lugarID := Some 2 |}];
     tbl_Area :=
       [{| Area.areaID := 10; Area.nombre := "Área Mesa 10"; Area.capacidad := 8;
           Area.tipo := "GENERAL"; Area.lugarID := 1 |};
        {| Area.areaID := 20; Area.nombre := "Área Sala"; Area.capacidad := 50;
           Area.tipo := "VIP"; Area.lugarID := 2 |}];
     tbl_Asiento :=
       [{| Asiento.asientoID := 100; Asiento.codigo := Some "A1";
           Asiento.fila := None; Asiento.columna := None;
           Asiento.estado := "OCUPADO"; Asiento.areaID := 10 |};
        {| Asiento.asientoID := 200; Asiento.codigo := Some "S1";
           Asiento.fila := None; Asiento.columna := None;
           Asiento.estado := "DISPONIBLE"; Asiento.areaID := 20 |}];
     tbl_Croquis := [] |}.

Definition w : world :=
  {| committed := db; pending := None;
     seqs := {| area_areaid_seq := 21; asiento_asientoid_seq := 201;
                croquis_croquisid_seq := 1 |};
     issued := 0; faulty := fun _ => false |}.

Definition w_tx : world :=
  {| committed := db; pending := Some db;
     seqs := {| area_areaid_seq := 21; asiento_asientoid_seq := 201;
                croquis_croquisid_seq := 1 |};
     issued := 0; faulty := fun _ => false |}.

(** Two tokens and the payloads they were signed with. *)
Definition verify (token : string) : option value :=
  if String.eqb token "token-of-ana"
  then Some (VObj [("userId", VNum 7); ("role", VStr "Asistente")])
  else if String.eqb token "token-of-luis"
  then Some (VObj [("userId", VNum 3); ("role", VStr "organizador")])
  else None.

(** The body of a POST for a seat of area 10. *)
Definition seat_body : value :=
  VObj [("codigo", VStr "  B7 "); ("fila", VNum 2); ("estado", VStr "reservado");
        ("areaID", VStr "10")].

(** A new table sent without [areaid], and a seat of area 10 sent with
    [areaID] only. *)
Definition mesa_sin_areaid : value :=
  VObj [("id", VStr "new-table-9"); ("nombre", VStr "Mesa 9")].

Definition seat_of_area_10 : value :=
  VObj [("asientoID", VNum 100); ("estado", VStr "ocupado"); ("areaID", VNum 10)].

(** The same store with one more area, 1, in venue 2, and the body of a
    POST whose [areaID] the server reads as 10 and [parseInt] as 1. *)
Definition w_with_area_1 : world :=
  {| committed :=
       with_Area ({| Area.areaID := 1; Area.nombre := "Área Patio"; Area.capacidad := 30;
                     Area.tipo := "GENERAL"; Area.lugarID := 2 |} :: tbl_Area db) db;
     pending := None;
     seqs := {| area_areaid_seq := 21; asiento_asientoid_seq := 201;
                croquis_croquisid_seq := 1 |};
     issued := 0; faulty := fun _ => false |}.

Definition seat_body_underscore : value :=
  VObj [("codigo", VStr "Z1"); ("estado", VStr "disponible"); ("areaID", VStr "1_0")].
End Venue.

(** The primary keys of [Area] and [Asiento] and [fk_asiento_area] of
    [schema.sql]. *)
Definition keys_ok (d : database) : Prop :=
  NoDup (map Area.areaID (tbl_Area d))
  /\ NoDup (map Asiento.asientoID (tbl_Asiento d))
  /\ forall a, In a (tbl_Asiento d) ->
               In (Asiento.areaID a) (map Area.areaID (tbl_Area d)).

(** From [d] to [d'] the keys still hold, areas are only added, and every
    seat that lies outside venue [lugar] is still there, as it was and
    outside that venue. *)
Definition spares (lugar : Z) (d d' : database) : Prop :=
  keys_ok d ->
  keys_ok d'
  /\ (exists added, tbl_Area d' = (tbl_Area d ++ added)%list)
  /\ forall a, In a (tbl_Asiento d) ->
               area_in_lugar d (Asiento.areaID a) lugar = false ->
               In a (tbl_Asiento d')
               /\ area_in_lugar d' (Asiento.areaID a) lugar = false.

(** *** The seat loop, row by row *)



(** [e] spells the label [l], each letter in upper or in lower case (the
    labels are made of the letters A to Z). *)
Fixpoint spells (e l : string) : bool :=
  match e, l with
  | EmptyString, EmptyString => true
  | String c e', String d l' =>
      andb (orb (Ascii.eqb c d) (Nat.eqb (nat_of_ascii c) (nat_of_ascii d + 32)))
           (spells e' l')
  | _, _ => false
  end.

(** A text made of the letters A to Z. *)
Fixpoint capitals (l : string) : bool :=
  match l with
  | EmptyString => true
  | String d l' =>
      andb (andb (Nat.leb 65 (nat_of_ascii d)) (Nat.leb (nat_of_ascii d) 90)) (capitals l')
  end.
(* ------------------------------------------------------------------------- *)
(** ** Reasoning about handlers *)

Lemma bind_inv {A B} (m : M A) (f : A -> M B) w o w' :
  bind m f w = (o, w') ->
  (exists a w1, m w = (Val a, w1) /\ f a w1 = (o, w')) \/
  (exists e, m w = (Throw e, w') /\ o = Throw e).
Proof.
  unfold bind. destruct (m w) as [[a | e] w1]; intros H.
  - left. eauto.
  - right. inversion H; subst. eauto.
Qed.

Lemma bind_val_inv {A B} (m : M A) (f : A -> M B) w b w' :
  bind m f w = (Val b, w') ->
  exists a w1, m w = (Val a, w1) /\ f a w1 = (Val b, w').
Proof.
  intros H. apply bind_inv in H. destruct H as [H | [e [_ H]]]; [exact H | discriminate].
Qed.

Lemma lift_inv {A} (o : outcome A) w r w' :
  lift o w = (r, w') -> r = o /\ w' = w.
Proof. unfold lift. intros H. inversion H. auto. Qed.

Lemma ret_inv {A} (a : A) w r w' :
  ret a w = (r, w') -> r = Val a /\ w' = w.
Proof. unfold ret. intros H. inversion H. auto. Qed.

Section Preserves.
Variable R : world -> world -> Prop.
Hypothesis R_refl : forall w, R w w.
Hypothesis R_trans : forall a b c, R a b -> R b c -> R a c.

Lemma preserves_ret {A} (a : A) : preserves R (ret a).
Proof. intros w. apply R_refl. Qed.

Lemma preserves_lift {A} (o : outcome A) : preserves R (lift o).
Proof. intros w. apply R_refl. Qed.

Lemma preserves_bind {A B} (m : M A) (f : A -> M B) :
  preserves R m -> (forall a, preserves R (f a)) -> preserves R (bind m f).
Proof.
  intros Hm Hf w. unfold bind. specialize (Hm w).
  destruct (m w) as [[a | e] w1]; simpl in *.
  - eapply R_trans; [exact Hm | apply Hf].
  - exact Hm.
Qed.

Lemma preserves_try_catch {A} (m : M A) (h : exn -> M A) :
  preserves R m -> (forall e, preserves R (h e)) -> preserves R (try_catch m h).
Proof.
  intros Hm Hh w. unfold try_catch. specialize (Hm w).
  destruct (m w) as [[a | e] w1]; simpl in *.
  - exact Hm.
  - eapply R_trans; [exact Hm | apply Hh].
Qed.

Lemma preserves_lift_val {A B} (a : A) (f : A -> M B) :
  preserves R (f a) -> preserves R (bind (lift (Val a)) f).
Proof. intros H w. apply H. Qed.

Lemma preserves_lift_throw {A B} (e : exn) (f : A -> M B) :
  preserves R (bind (lift (Throw e)) f).
Proof. intros w. apply R_refl. Qed.

(** Loops over a list whose elements each satisfy [P]. *)
Lemma preserves_process_list {A} (P : A -> Prop) (step : A -> M unit)
      (loop : list A -> M unit) :
  (forall l, loop l = match l with
                      | [] => ret tt
                      | x :: r => bind (step x) (fun _ => loop r)
                      end) ->
  (forall x, P x -> preserves R (step x)) ->
  forall l, Forall P l -> preserves R (loop l).
Proof.
  intros Hloop Hstep l Hl. induction Hl; rewrite Hloop.
  - apply preserves_ret.
  - apply preserves_bind; auto.
Qed.
End Preserves.

(** *** Inside a transaction nothing committed changes *)

Lemma in_transaction_refl w : in_transaction w w.
Proof. intros H. auto. Qed.

Lemma in_transaction_trans a b c :
  in_transaction a b -> in_transaction b c -> in_transaction a c.
Proof.
  intros H1 H2 Ha. destruct (H1 Ha) as [E1 Hb]. destruct (H2 Hb) as [E2 Hc].
  split; [congruence | exact Hc].
Qed.

Lemma client_query_in_transaction {A} (s : stmt A) :
  preserves in_transaction (client_query s).
Proof.
  intros w Hp. unfold client_query.
  destruct (faulty w (issued w)); simpl; [auto |].
  destruct (pending w) as [t |] eqn:E; [| congruence].
  destruct (s t (seqs w)) as [[[a d] | e] q]; simpl; split; auto; try congruence.
  all: rewrite E; congruence.
Qed.

Ltac step_preserves R_refl R_trans :=
  repeat first
    [ apply (preserves_ret _ R_refl)
    | apply (preserves_lift _ R_refl)
    | apply (preserves_bind _ R_trans); [| intros ?]
    | match goal with
      | |- preserves _ (match ?x with _ => _ end) => destruct x
      | |- preserves _ (if ?x then _ else _) => destruct x
      end ].

Lemma create_area_in_transaction lugar table asientos :
  preserves in_transaction (create_area lugar table asientos).
Proof.
  unfold create_area.
  step_preserves in_transaction_refl in_transaction_trans.
  apply client_query_in_transaction.
Qed.

Lemma remap_tables_in_transaction lugar tables :
  forall asientos, preserves in_transaction (remap_tables lugar tables asientos).
Proof.
  induction tables as [| table rest IH]; intros asientos; simpl.
  - apply preserves_ret, in_transaction_refl.
  - apply (preserves_bind _ in_transaction_trans);
      [apply preserves_lift, in_transaction_refl |].
    intros [|].
    + apply (preserves_bind _ in_transaction_trans);
        [apply create_area_in_transaction |].
      intros r. apply (preserves_bind _ in_transaction_trans); [apply IH |].
      intros r'. apply preserves_ret, in_transaction_refl.
    + apply (preserves_bind _ in_transaction_trans); [apply IH |].
      intros r'. apply preserves_ret, in_transaction_refl.
Qed.

Lemma remap_layout_in_transaction lugar config asientos :
  preserves in_transaction (remap_layout lugar config asientos).
Proof.
  unfold remap_layout.
  step_preserves in_transaction_refl in_transaction_trans.
  apply remap_tables_in_transaction.
Qed.

Lemma upsert_croquis_in_transaction eventoID config :
  preserves in_transaction (upsert_croquis eventoID config).
Proof.
  unfold upsert_croquis.
  step_preserves in_transaction_refl in_transaction_trans;
    apply client_query_in_transaction.
Qed.

Lemma process_seat_in_transaction lugar asiento :
  preserves in_transaction (process_seat lugar asiento).
Proof.
  unfold process_seat.
  step_preserves in_transaction_refl in_transaction_trans;
    apply client_query_in_transaction.
Qed.

Lemma process_seats_in_transaction lugar asientos :
  preserves in_transaction (process_seats lugar asientos).
Proof.
  apply (preserves_process_list _ in_transaction_refl in_transaction_trans
           (fun _ => True) (process_seat lugar)).
  - intros [| x r]; reflexivity.
  - intros x _. apply process_seat_in_transaction.
  - apply Forall_forall. trivial.
Qed.

Lemma reconcile_in_transaction lugar eventoID config asientos :
  preserves in_transaction (reconcile lugar eventoID config asientos).
Proof.
  unfold reconcile.
  apply (preserves_bind _ in_transaction_trans);
    [apply remap_layout_in_transaction |].
  intros r. apply (preserves_bind _ in_transaction_trans);
    [apply upsert_croquis_in_transaction |].
  intros _. apply process_seats_in_transaction.
Qed.

(** *** What the control statements do to the committed tables *)

Lemma with_param_select_inv {P A} (o : outcome P) (f : P -> database -> A) d q r q' :
  with_param o (fun p => select (f p)) d q = (r, q') ->
  q' = q /\ (forall a d', r = Val (a, d') -> d' = d /\ exists p, o = Val p /\ a = f p d).
Proof.
  unfold with_param, select. destruct o as [p | e]; intros H; inversion H; subst.
  - split; [reflexivity |]. intros a d' E. inversion E; subst. eauto.
  - split; [reflexivity |]. intros a d' E. discriminate.
Qed.

Lemma pool_query_select_evento eventoID w o w' :
  pool_query (select_evento eventoID) w = (o, w') ->
  committed w' = committed w /\ pending w' = pending w /\ faulty w' = faulty w
  /\ issued w' = S (issued w).
Proof.
  unfold pool_query. destruct (faulty w (issued w)).
  - intros H. inversion H; subst. simpl. auto.
  - destruct (select_evento eventoID (committed w) (seqs w)) as [[[a d] | e] q] eqn:E;
      intros H; inversion H; subst; simpl; auto.
    apply with_param_select_inv in E. destruct E as [_ E].
    destruct (E _ _ eq_refl) as [-> _]. auto.
Qed.

Lemma client_begin_ok w w1 :
  client_begin w = (Val tt, w1) ->
  committed w1 = committed w /\ pending w1 <> None.
Proof.
  unfold client_begin. destruct (faulty w (issued w)); [discriminate |].
  destruct (pending w) eqn:E; intros H; inversion H; subst; simpl;
    split; congruence.
Qed.

Lemma client_begin_committed w o w1 :
  client_begin w = (o, w1) -> committed w1 = committed w.
Proof.
  unfold client_begin. destruct (faulty w (issued w)); [| destruct (pending w)];
    intros H; inversion H; reflexivity.
Qed.

Lemma client_rollback_committed w o w1 :
  client_rollback w = (o, w1) -> committed w1 = committed w.
Proof.
  unfold client_rollback. destruct (faulty w (issued w));
    intros H; inversion H; reflexivity.
Qed.

Lemma client_rollback_closes w o w1 :
  client_rollback w = (o, w1) -> faulty w (issued w) = false ->
  o = Val tt /\ pending w1 = None.
Proof.
  unfold client_rollback. intros H F. rewrite F in H. inversion H. auto.
Qed.

Lemma well_formed_body_checks config asientos :
  well_formed_body config asientos ->
  andb (negb (is_undefined config))
       (orb (negb (typeof_object config)) (strict_eq config VNull)) = false
  /\ exists items props, asientos = VArr items props /\ items_of asientos = items.
Proof.
  intros [Hc Ha]. split.
  - destruct Hc as [-> | [Ho Hn]]; [reflexivity |].
    destruct config; simpl in *; try discriminate; try reflexivity. congruence.
  - destruct asientos; try discriminate. simpl. eauto.
Qed.

(** C2.  When an error is raised in steps 1 to 4 of a reconciliation, the
    handler answers with one 500 and the committed tables are exactly those
    of before the call: no Area row, Seat row or layout document written by
    the invocation can be observed.  Unless the ROLLBACK itself is lost on
    the wire, no transaction is left open either. *)
Theorem put_layout_error_rolls_back :
  forall eventoID configuracionCroquis asientos w w_err,
    fails_before_commit eventoID configuracionCroquis asientos w w_err ->
    exists message w',
      put_layout eventoID configuracionCroquis asientos w
      = (Val (Failure 500 message), w')
      /\ committed w' = committed w
      /\ (pending w = None -> faulty w_err (issued w_err) = false -> pending w' = None).
Proof.
  intros eventoID config asientos w w_err H.
  destruct H as [e w0 Hq | ev rest w0 e w1 Hq Hwf Hb | ev rest w0 w1 Hq Hwf Hb Hl
                 | ev rest w0 w1 lugar e w2 Hq Hwf Hb Hl Hr].
  - unfold put_layout, try_catch, bind. rewrite Hq. unfold ret.
    do 2 eexists. split; [reflexivity |].
    apply pool_query_select_evento in Hq. destruct Hq as [Hc [Hp _]].
    split; [exact Hc | intros; congruence].
  - destruct (well_formed_body_checks _ _ Hwf) as [Hc [items [props [-> _]]]].
    destruct (pool_query_select_evento _ _ _ _ Hq) as [Ec _].
    unfold put_layout, try_catch at 1, bind at 1. rewrite Hq, Hc.
    unfold put_layout_transaction, try_catch, bind. rewrite Hb.
    pose proof (client_begin_committed _ _ _ Hb) as Eb.
    destruct (client_rollback w1) as [[[] | e'] w'] eqn:E; unfold ret;
      do 2 eexists; (split; [reflexivity |]);
      (split; [apply client_rollback_committed in E; congruence |]);
      intros _ F; apply (client_rollback_closes _ _ _ E F).
  - destruct (well_formed_body_checks _ _ Hwf) as [Hc [items [props [-> _]]]].
    destruct (pool_query_select_evento _ _ _ _ Hq) as [Ec _].
    unfold put_layout, try_catch at 1, bind at 1. rewrite Hq, Hc.
    unfold put_layout_transaction, try_catch, bind. rewrite Hb, Hl.
    apply client_begin_committed in Hb.
    destruct (client_rollback w1) as [[[] | e'] w'] eqn:E; unfold ret.
    + do 2 eexists. split; [reflexivity |].
      split; [apply client_rollback_committed in E; congruence |].
      intros _ F. apply (client_rollback_closes _ _ _ E F).
    + destruct (client_rollback w') as [[[] | e''] w''] eqn:E'; unfold ret;
        do 2 eexists; (split; [reflexivity |]);
        (split; [apply client_rollback_committed in E;
                 apply client_rollback_committed in E'; congruence |]);
        intros _ F; destruct (client_rollback_closes _ _ _ E F); discriminate.
  - destruct (well_formed_body_checks _ _ Hwf) as [Hc [items [props [-> Hi]]]].
    simpl in Hr.
    destruct (pool_query_select_evento _ _ _ _ Hq) as [Ec _].
    destruct (client_begin_ok _ _ Hb) as [Eb Hp].
    pose proof (reconcile_in_transaction lugar eventoID config items w1) as Ht.
    rewrite Hr in Ht. destruct (Ht Hp) as [Er _]. simpl in Er.
    unfold put_layout, try_catch at 1, bind at 1. rewrite Hq, Hc.
    unfold put_layout_transaction, try_catch, bind. rewrite Hb, Hl, Hr.
    destruct (client_rollback w2) as [[[] | e'] w'] eqn:E; unfold ret;
      do 2 eexists; (split; [reflexivity |]);
      (split; [apply client_rollback_committed in E; simpl in *; congruence |]);
      intros _ F; apply (client_rollback_closes _ _ _ E F).
Qed.

(** *** Relations on tables, lifted to worlds *)

Section Evolves.
Variable Q : database -> database -> Prop.
Hypothesis Q_refl : forall d, Q d d.
Hypothesis Q_trans : forall a b c, Q a b -> Q b c -> Q a c.

Lemma evolves_refl w : evolves Q w w.
Proof. intros d Hd. eauto. Qed.

Lemma evolves_same w w' :
  committed w' = committed w -> pending w' = pending w -> evolves Q w w'.
Proof.
  intros Hc Hp d Hd. unfold dbs in *. rewrite Hc, Hp in Hd. eauto.
Qed.

Lemma evolves_trans a b c : evolves Q a b -> evolves Q b c -> evolves Q a c.
Proof.
  intros H1 H2 d Hd. destruct (H2 d Hd) as [d1 [Hd1 Q1]].
  destruct (H1 d1 Hd1) as [d0 [Hd0 Q0]]. eauto.
Qed.

Lemma evolves_at_rest w w' :
  pending w = None -> evolves Q w w' -> Q (committed w) (committed w').
Proof.
  intros Hp H. destruct (H (committed w')) as [d [Hd HQ]]; [left; reflexivity |].
  unfold dbs in Hd. rewrite Hp in Hd. destruct Hd as [<- | []]. exact HQ.
Qed.

Lemma client_query_evolves {A} (s : stmt A) :
  stmt_keeps Q s -> preserves (evolves Q) (client_query s).
Proof.
  intros Hs w. unfold client_query.
  destruct (faulty w (issued w)); [apply evolves_same; simpl; congruence |].
  destruct (pending w) as [t |] eqn:E.
  - destruct (s t (seqs w)) as [[[a d] | e] q] eqn:Es; simpl.
    + intros d' Hd. unfold dbs in *. simpl in Hd. rewrite E.
      destruct Hd as [<- | [<- | []]].
      * exists (committed w). split; [left; auto | auto].
      * exists t. split; [right; left; auto | eauto].
    + apply evolves_same; simpl; congruence.
  - destruct (s (committed w) (seqs w)) as [[[a d] | e] q] eqn:Es; simpl.
    + intros d' Hd. unfold dbs in *. simpl in Hd. rewrite E.
      destruct Hd as [<- | []]. exists (committed w). split; [left; auto | eauto].
    + apply evolves_same; simpl; congruence.
Qed.

Lemma pool_query_evolves {A} (s : stmt A) :
  stmt_keeps Q s -> preserves (evolves Q) (pool_query s).
Proof.
  intros Hs w. unfold pool_query.
  destruct (faulty w (issued w)); [apply evolves_same; simpl; congruence |].
  destruct (s (committed w) (seqs w)) as [[[a d] | e] q] eqn:Es; simpl.
  - intros d' Hd. unfold dbs in *. simpl in Hd.
    destruct Hd as [<- | Hd].
    + exists (committed w). split; [left; auto | eauto].
    + exists d'. split; [right; exact Hd | auto].
  - apply evolves_same; simpl; congruence.
Qed.

Lemma client_begin_evolves : preserves (evolves Q) client_begin.
Proof.
  intros w. unfold client_begin.
  destruct (faulty w (issued w)); [apply evolves_same; simpl; congruence |].
  destruct (pending w) eqn:E; simpl.
  - apply evolves_same; simpl; congruence.
  - intros d' Hd. unfold dbs in *. simpl in *. rewrite E.
    exists (committed w). split; [left; auto |].
    destruct Hd as [<- | [<- | []]]; auto.
Qed.

Lemma client_commit_evolves : preserves (evolves Q) client_commit.
Proof.
  intros w. unfold client_commit.
  destruct (faulty w (issued w)); [apply evolves_same; simpl; congruence |].
  destruct (pending w) as [t |] eqn:E; simpl.
  - intros d' Hd. unfold dbs in *. simpl in *. rewrite E.
    destruct Hd as [<- | []]. exists t. split; [right; left; auto | auto].
  - intros d' Hd. unfold dbs in *. simpl in *. rewrite E.
    destruct Hd as [<- | []]. exists (committed w). split; [left; auto | auto].
Qed.

Lemma client_rollback_evolves : preserves (evolves Q) client_rollback.
Proof.
  intros w. unfold client_rollback.
  destruct (faulty w (issued w)); [apply evolves_same; simpl; congruence |]. simpl.
  intros d' Hd. unfold dbs in *. simpl in *.
  destruct Hd as [<- | []]. exists (committed w). split; [left; auto | auto].
Qed.

Lemma with_param_keeps {P A} (o : outcome P) (k : P -> stmt A) :
  (forall p, o = Val p -> stmt_keeps Q (k p)) -> stmt_keeps Q (with_param o k).
Proof.
  intros Hk d q a d' q'. unfold with_param. destruct o as [p | e].
  - apply Hk. reflexivity.
  - discriminate.
Qed.

Lemma select_keeps {A} (f : database -> A) : stmt_keeps Q (select f).
Proof. intros d q a d' q' H. inversion H; subst. apply Q_refl. Qed.

Lemma select_evento_keeps v : stmt_keeps Q (select_evento v).
Proof. apply with_param_keeps. intros. apply select_keeps. Qed.

Lemma select_croquis_id_keeps v : stmt_keeps Q (select_croquis_id v).
Proof. apply with_param_keeps. intros. apply select_keeps. Qed.

Lemma select_asiento_in_lugar_keeps v l : stmt_keeps Q (select_asiento_in_lugar v l).
Proof. apply with_param_keeps. intros. apply select_keeps. Qed.

Lemma select_configuracion_keeps v : stmt_keeps Q (select_configuracion v).
Proof. apply with_param_keeps. intros. apply select_keeps. Qed.

Lemma select_seats_keeps v : stmt_keeps Q (select_seats v).
Proof. apply with_param_keeps. intros. apply select_keeps. Qed.

Lemma preserves_bind_post {A B} (P : A -> Prop) (m : M A) (f : A -> M B) :
  preserves (evolves Q) m ->
  (forall w a w1, m w = (Val a, w1) -> P a) ->
  (forall a, P a -> preserves (evolves Q) (f a)) ->
  preserves (evolves Q) (bind m f).
Proof.
  intros Hm HP Hf w. unfold bind. specialize (Hm w).
  destruct (m w) as [[a | e] w1] eqn:E; simpl in *.
  - eapply evolves_trans; [exact Hm | apply Hf; eauto].
  - exact Hm.
Qed.

Lemma final_response_evolves eventoID :
  preserves (evolves Q) (final_response eventoID).
Proof.
  unfold final_response.
  apply (preserves_bind _ evolves_trans);
    [apply client_query_evolves, select_configuracion_keeps |].
  intros c. apply (preserves_bind _ evolves_trans);
    [apply client_query_evolves, select_seats_keeps |].
  intros r. apply preserves_ret, evolves_refl.
Qed.

(** The handler keeps [Q] as soon as steps 2 to 4 do. *)
Lemma put_layout_evolves eventoID config asientos :
  (forall lugar, preserves (evolves Q)
                   (reconcile lugar eventoID config (items_of asientos))) ->
  preserves (evolves Q) (put_layout eventoID config asientos).
Proof.
  intros Hr. unfold put_layout.
  apply (preserves_try_catch _ evolves_trans);
    [| intros; apply preserves_ret, evolves_refl].
  apply (preserves_bind _ evolves_trans);
    [apply pool_query_evolves, select_evento_keeps |].
  intros [| ev rest]; [apply preserves_ret, evolves_refl |].
  destruct (andb _ _); [apply preserves_ret, evolves_refl |].
  destruct asientos; try (apply preserves_ret, evolves_refl).
  apply (preserves_try_catch _ evolves_trans).
  - unfold put_layout_transaction.
    apply (preserves_bind _ evolves_trans); [apply client_begin_evolves |].
    intros _. destruct (Evento.lugarID ev) as [lugar |].
    + apply (preserves_bind _ evolves_trans); [apply Hr |].
      intros _. apply (preserves_bind _ evolves_trans); [apply client_commit_evolves |].
      intros _. apply final_response_evolves.
    + apply (preserves_bind _ evolves_trans); [apply client_rollback_evolves |].
      intros _. apply preserves_ret, evolves_refl.
  - intros e. apply (preserves_bind _ evolves_trans); [apply client_rollback_evolves |].
    intros _. apply preserves_ret, evolves_refl.
Qed.
End Evolves.

(** *** Requests that only update seat states *)

Lemma same_rows_refl d : same_rows d d.
Proof. split; reflexivity. Qed.

Lemma same_rows_trans a b c : same_rows a b -> same_rows b c -> same_rows a c.
Proof. intros [H1 H2] [H3 H4]. split; congruence. Qed.

Ltac run_stmt H :=
  repeat match type of H with
         | (if ?c then _ else _) = _ => destruct c
         | (match ?c with _ => _ end) = _ => destruct c
         end;
  inversion H; subst; clear H.

Lemma update_croquis_same_rows c e : stmt_keeps same_rows (update_croquis c e).
Proof.
  unfold update_croquis. do 2 (apply with_param_keeps; intros ? _).
  intros d q a d' q' H. inversion H; subst. split; reflexivity.
Qed.

Lemma insert_croquis_same_rows e c : stmt_keeps same_rows (insert_croquis e c).
Proof.
  unfold insert_croquis. do 2 (apply with_param_keeps; intros ? _).
  intros d q a d' q' H. run_stmt H. split; reflexivity.
Qed.

Lemma update_asiento_estado_same_rows es id :
  stmt_keeps same_rows (update_asiento_estado es id).
Proof.
  unfold update_asiento_estado. do 2 (apply with_param_keeps; intros ? _).
  intros d q a d' q' H. inversion H; subst. split; [reflexivity |]. simpl.
  rewrite map_map. apply map_ext. intros r. destruct (eqb_opt _ _); reflexivity.
Qed.

Lemma upsert_croquis_same_rows eventoID config :
  preserves (evolves same_rows) (upsert_croquis eventoID config).
Proof.
  pose proof (evolves_refl same_rows same_rows_refl) as Hr.
  pose proof (evolves_trans same_rows same_rows_trans) as Ht.
  unfold upsert_croquis.
  apply (preserves_bind _ Ht);
    [apply (client_query_evolves _ same_rows_refl same_rows_trans),
       select_croquis_id_keeps, same_rows_refl |].
  intros rows. destruct (is_undefined config); [apply preserves_ret, Hr |].
  destruct rows; apply (client_query_evolves _ same_rows_refl same_rows_trans);
    auto using update_croquis_same_rows, insert_croquis_same_rows.
Qed.

Lemma process_seat_same_rows lugar asiento :
  isNewSeat asiento <> Val true ->
  preserves (evolves same_rows) (process_seat lugar asiento).
Proof.
  intros Hn.
  pose proof (evolves_refl same_rows same_rows_refl) as Hr.
  pose proof (evolves_trans same_rows same_rows_trans) as Ht.
  unfold process_seat.
  destruct (isNewSeat asiento) as [[|] | e] eqn:E; [congruence | |].
  - apply preserves_lift_val.
    apply (preserves_bind _ Ht); [apply preserves_lift, Hr |]. intros id.
    apply (preserves_bind _ Ht);
      [apply (client_query_evolves _ same_rows_refl same_rows_trans),
         select_asiento_in_lugar_keeps, same_rows_refl |].
    intros [| x rows];
      [apply (preserves_bind _ Ht);
         [apply preserves_lift, Hr | intros ?; apply preserves_ret, Hr] |].
    apply (preserves_bind _ Ht); [apply preserves_lift, Hr |]. intros estado.
    apply (preserves_bind _ Ht); [apply preserves_lift, Hr |]. intros upper.
    apply (client_query_evolves _ same_rows_refl same_rows_trans),
      update_asiento_estado_same_rows.
  - apply preserves_lift_throw, Hr.
Qed.

Lemma process_seats_same_rows lugar asientos :
  Forall (fun s => isNewSeat s <> Val true) asientos ->
  preserves (evolves same_rows) (process_seats lugar asientos).
Proof.
  apply (preserves_process_list _ (evolves_refl same_rows same_rows_refl)
           (evolves_trans same_rows same_rows_trans) _ (process_seat lugar)).
  - intros [| x r]; reflexivity.
  - intros x Hx. apply process_seat_same_rows, Hx.
Qed.

(** Without a temporary entry the loop over the tables does nothing. *)
Lemma remap_tables_no_temporary lugar tables :
  Forall (fun t => isTempTable t <> Val true) tables ->
  forall asientos w o w',
    remap_tables lugar tables asientos w = (o, w') ->
    w' = w /\ forall r, o = Val r -> r = (tables, asientos).
Proof.
  induction 1 as [| table rest Ht _ IH]; intros asientos w o w' H; simpl in H.
  - inversion H; subst. split; [reflexivity |]. intros r E. inversion E. reflexivity.
  - unfold bind, lift in H. destruct (isTempTable table) as [[|] | e]; [congruence | |].
    + destruct (remap_tables lugar rest asientos w) as [[r' | e] w1] eqn:E.
      * destruct (IH _ _ _ _ E) as [-> Hr]. rewrite (Hr _ eq_refl) in H.
        inversion H; subst. split; [reflexivity |]. intros r Er. inversion Er. reflexivity.
      * destruct (IH _ _ _ _ E) as [-> _]. inversion H; subst.
        split; [reflexivity |]. discriminate.
    + inversion H; subst. split; [reflexivity |]. discriminate.
Qed.

Lemma remap_layout_no_temporary lugar config asientos :
  (forall items props, get_prop config "tables" = Val (VArr items props) ->
                       Forall (fun t => isTempTable t <> Val true) items) ->
  forall w o w',
    remap_layout lugar config asientos w = (o, w') ->
    w' = w /\ forall r, o = Val r -> snd r = asientos.
Proof.
  intros Hc w o w' H. unfold remap_layout in H.
  destruct (truthy config).
  - unfold bind, lift in H.
    destruct (get_prop config "tables") as [tables | e] eqn:Et.
    + destruct tables as [| | | | | items props |];
        try (inversion H; subst; split; [reflexivity |];
             intros r E; inversion E; reflexivity).
      specialize (Hc _ _ eq_refl).
      destruct (remap_tables lugar items asientos w) as [[r | e] w1] eqn:E.
      * destruct (remap_tables_no_temporary _ _ Hc _ _ _ _ E) as [-> Hr].
        rewrite (Hr _ eq_refl) in H. simpl in H.
        destruct (set_prop config "tables" (VArr items props));
          inversion H; subst; (split; [reflexivity |]); intros r0 E0;
          inversion E0; reflexivity.
      * destruct (remap_tables_no_temporary _ _ Hc _ _ _ _ E) as [-> _].
        inversion H; subst. split; [reflexivity |]. discriminate.
    + inversion H; subst. split; [reflexivity |]. discriminate.
  - inversion H; subst. split; [reflexivity |]. intros r E. inversion E. reflexivity.
Qed.

Lemma reconcile_same_rows lugar eventoID config asientos :
  (forall items props, get_prop config "tables" = Val (VArr items props) ->
                       Forall (fun t => isTempTable t <> Val true) items) ->
  Forall (fun s => isNewSeat s <> Val true) asientos ->
  preserves (evolves same_rows) (reconcile lugar eventoID config asientos).
Proof.
  intros Hc Hs.
  pose proof (evolves_refl same_rows same_rows_refl) as Hr.
  pose proof (evolves_trans same_rows same_rows_trans) as Ht.
  unfold reconcile.
  apply (preserves_bind_post same_rows same_rows_trans (fun r => snd r = asientos)).
  - intros w. destruct (remap_layout lugar config asientos w) as [o w'] eqn:E.
    destruct (remap_layout_no_temporary _ _ _ Hc _ _ _ E) as [-> _]. apply Hr.
  - intros w r w1 E. destruct (remap_layout_no_temporary _ _ _ Hc _ _ _ E) as [_ H].
    auto.
  - intros r ->. apply (preserves_bind _ Ht); [apply upsert_croquis_same_rows |].
    intros _. apply process_seats_same_rows, Hs.
Qed.

(** C8.  A request whose layout holds no temporary table entry and whose seat
    list holds no descriptor taken for a new seat leaves the Area rows as
    they were and adds no Seat row (nor removes any): only states change. *)
Theorem put_layout_without_temporaries_creates_nothing :
  forall eventoID configuracionCroquis asientos w,
    pending w = None ->
    (forall items props,
        get_prop configuracionCroquis "tables" = Val (VArr items props) ->
        Forall (fun table => isTempTable table <> Val true) items) ->
    Forall (fun asiento => isNewSeat asiento <> Val true) (items_of asientos) ->
    same_rows (committed w)
              (committed (snd (put_layout eventoID configuracionCroquis asientos w))).
Proof.
  intros eventoID config asientos w Hp Hc Hs.
  apply (evolves_at_rest same_rows); [exact Hp |].
  apply (put_layout_evolves same_rows same_rows_refl same_rows_trans).
  intros lugar. apply reconcile_same_rows; assumption.
Qed.

(** *** The state of a written seat *)

Lemma lookup_assign_other k k' x ps :
  String.eqb k k' = false -> lookup k (assign k' x ps) = lookup k ps.
Proof.
  intros Hk. induction ps as [| [k0 v] r IH]; simpl.
  - rewrite Hk. reflexivity.
  - destruct (String.eqb k' k0) eqn:E; simpl.
    + destruct (String.eqb k k0) eqn:E0; [| reflexivity].
      apply String.eqb_eq in E, E0. subst. rewrite String.eqb_refl in Hk. discriminate.
    + destruct (String.eqb k k0); [reflexivity | exact IH].
Qed.

Lemma lookup_assign_same k x ps : lookup k (assign k x ps) = x.
Proof.
  induction ps as [| [k0 v] r IH]; simpl.
  - rewrite String.eqb_refl. reflexivity.
  - destruct (String.eqb k k0) eqn:E; simpl; rewrite E; [reflexivity | exact IH].
Qed.

Lemma get_set_other v k' x v' k :
  set_prop v k' x = Val v' -> String.eqb k k' = false ->
  get_prop v' k = get_prop v k.
Proof.
  intros H Hk. destruct v; simpl in H; inversion H; subst; simpl; try reflexivity;
    rewrite lookup_assign_other; auto.
Qed.

Lemma retarget_other_prop tmp real s s' k :
  retarget tmp real s = Val s' ->
  String.eqb k "areaID" = false -> String.eqb k "areaid" = false ->
  get_prop s' k = get_prop s k.
Proof.
  intros H K1 K2. unfold retarget in H.
  assert (Hw : forall r, obind (set_prop s "areaID" real)
                               (fun a => set_prop a "areaid" real) = Val r ->
                         get_prop r k = get_prop s k).
  { intros r Hr. destruct (set_prop s "areaID" real) as [a |] eqn:Ea; [| discriminate].
    simpl in Hr. rewrite (get_set_other _ _ _ _ _ Hr K2).
    apply (get_set_other _ _ _ _ _ Ea K1). }
  destruct (get_prop s "areaID") as [u |]; [| discriminate]. simpl in H.
  destruct (strict_eq u tmp); [auto |].
  destruct (get_prop s "areaid") as [l |]; [| discriminate]. simpl in H.
  destruct (strict_eq l tmp); [auto |]. inversion H. reflexivity.
Qed.

Lemma for_each_Forall2 {A B} (f : A -> outcome B) l l' :
  for_each f l = Val l' -> Forall2 (fun x y => f x = Val y) l l'.
Proof.
  revert l'. induction l as [| x r IH]; intros l' H; simpl in H.
  - inversion H. constructor.
  - destruct (f x) as [y |] eqn:E; [| discriminate]. simpl in H.
    destruct (for_each f r) as [r' |]; [| discriminate]. simpl in H.
    inversion H; subst. constructor; auto.
Qed.

Lemma retarget_all_estado_from items tmp real l l' :
  for_each (retarget tmp real) l = Val l' ->
  Forall (estado_from items) l -> Forall (estado_from items) l'.
Proof.
  intros H. apply for_each_Forall2 in H. induction H as [| s s' l l' Hs _ IH].
  - auto.
  - intros Hl. inversion Hl; subst. constructor; [| auto].
    intros v Hv. rewrite (retarget_other_prop _ _ _ _ _ Hs) in Hv by reflexivity. auto.
Qed.

Lemma create_area_estado_from items lugar table asientos w r w' :
  create_area lugar table asientos w = (Val r, w') ->
  Forall (estado_from items) asientos -> Forall (estado_from items) (snd r).
Proof.
  unfold create_area. intros H Hl.
  repeat (apply bind_val_inv in H; destruct H as [? [? [? H]]]).
  apply ret_inv in H. destruct H as [H _]. inversion H; subst. simpl.
  match goal with
  | Hf : lift (for_each _ _) _ = _ |- _ => apply lift_inv in Hf; destruct Hf as [Hf _]
  end.
  eapply retarget_all_estado_from; eauto.
Qed.

Lemma remap_tables_estado_from items lugar tables :
  forall asientos w r w',
    remap_tables lugar tables asientos w = (Val r, w') ->
    Forall (estado_from items) asientos -> Forall (estado_from items) (snd r).
Proof.
  induction tables as [| table rest IH]; intros asientos w r w' H Hl; simpl in H.
  - inversion H; subst. exact Hl.
  - apply bind_val_inv in H. destruct H as [[|] [w1 [_ H]]].
    + apply bind_val_inv in H. destruct H as [r1 [w2 [H1 H]]].
      apply bind_val_inv in H. destruct H as [r2 [w3 [H2 H]]].
      inversion H; subst. simpl.
      eapply IH; [exact H2 |]. eapply create_area_estado_from; eauto.
    + apply bind_val_inv in H. destruct H as [r2 [w3 [H2 H]]].
      inversion H; subst. simpl. eapply IH; eauto.
Qed.

Lemma remap_layout_estado_from items lugar config asientos w r w' :
  remap_layout lugar config asientos w = (Val r, w') ->
  Forall (estado_from items) asientos -> Forall (estado_from items) (snd r).
Proof.
  unfold remap_layout. intros H Hl.
  destruct (truthy config); [| inversion H; subst; exact Hl].
  apply bind_val_inv in H. destruct H as [tables [w1 [_ H]]].
  destruct tables; try (inversion H; subst; exact Hl).
  apply bind_val_inv in H. destruct H as [r1 [w2 [H1 H]]].
  apply bind_val_inv in H. destruct H as [c [w3 [_ H]]].
  inversion H; subst. simpl. eapply remap_tables_estado_from; eauto.
Qed.

Lemma estado_from_self items : Forall (estado_from items) items.
Proof.
  apply Forall_forall. intros s Hs v Hv. unfold estados.
  apply in_flat_map. exists s. split; [exact Hs |]. rewrite Hv. left. reflexivity.
Qed.

Lemma seats_written_refl items d : seats_written items d d.
Proof. intros r Hr. left. exact Hr. Qed.

Lemma seats_written_trans items a b c :
  seats_written items a b -> seats_written items b c -> seats_written items a c.
Proof.
  intros H1 H2 r Hr. destruct (H2 r Hr) as [Hb | Hn]; [auto | right; exact Hn].
Qed.

Lemma seats_written_same items d d' :
  tbl_Asiento d' = tbl_Asiento d -> seats_written items d d'.
Proof. intros E r Hr. left. rewrite <- E. exact Hr. Qed.

Lemma pg_enum_label labels up es :
  obind (pg_enum labels (VStr up)) (not_null "estado") = Val es ->
  es = up /\ In up labels.
Proof.
  unfold pg_enum. simpl. destruct (mem_string up labels) eqn:E; [| discriminate].
  simpl. intros H. inversion H; subst. split; [reflexivity |].
  unfold mem_string in E. apply existsb_exists in E. destruct E as [x [Hx Ex]].
  apply String.eqb_eq in Ex. subst. exact Hx.
Qed.

Lemma insert_area_seats_written items n c t l :
  stmt_keeps (seats_written items) (insert_area n c t l).
Proof.
  unfold insert_area. do 3 (apply with_param_keeps; intros ? _).
  intros d q a d' q' H. run_stmt H. apply seats_written_same. reflexivity.
Qed.

Lemma update_croquis_seats_written items c e :
  stmt_keeps (seats_written items) (update_croquis c e).
Proof.
  unfold update_croquis. do 2 (apply with_param_keeps; intros ? _).
  intros d q a d' q' H. inversion H; subst. apply seats_written_same. reflexivity.
Qed.

Lemma insert_croquis_seats_written items e c :
  stmt_keeps (seats_written items) (insert_croquis e c).
Proof.
  unfold insert_croquis. do 2 (apply with_param_keeps; intros ? _).
  intros d q a d' q' H. run_stmt H. apply seats_written_same. reflexivity.
Qed.

Lemma insert_asiento_seats_written items co fi cl e ar :
  In (VStr e) (estados items) ->
  stmt_keeps (seats_written items) (insert_asiento co fi cl (VStr (toUpperCase e)) ar).
Proof.
  intros He. unfold insert_asiento. do 3 (apply with_param_keeps; intros ? _).
  apply with_param_keeps. intros es Hes. apply pg_enum_label in Hes.
  destruct Hes as [-> Hin]. apply with_param_keeps. intros a _.
  intros d q r d' q' H. run_stmt H. intros r Hr. simpl in Hr.
  apply in_app_or in Hr. destruct Hr as [Hr | [<- | []]]; [left; exact Hr |].
  right. split; simpl; eauto.
Qed.

Lemma update_asiento_estado_seats_written items e id :
  In (VStr e) (estados items) ->
  stmt_keeps (seats_written items) (update_asiento_estado (VStr (toUpperCase e)) id).
Proof.
  intros He. unfold update_asiento_estado.
  apply with_param_keeps. intros es Hes. apply pg_enum_label in Hes.
  destruct Hes as [-> Hin]. apply with_param_keeps. intros a _.
  intros d q r d' q' H. inversion H; subst. intros r Hr. simpl in Hr.
  apply in_map_iff in Hr. destruct Hr as [r0 [<- Hr0]].
  destruct (eqb_opt a (Asiento.asientoID r0)); [| left; exact Hr0].
  right. split; simpl; eauto.
Qed.

Section SeatsWritten.
Variable items : list value.

Let Qr := seats_written_refl items.
Let Qt := seats_written_trans items.
Let Er := evolves_refl _ Qr.
Let Et := evolves_trans _ Qt.

Lemma create_area_seats_written lugar table asientos :
  preserves (evolves (seats_written items)) (create_area lugar table asientos).
Proof.
  unfold create_area.
  do 6 (apply (preserves_bind _ Et); [apply preserves_lift, Er | intros ?]).
  apply (preserves_bind _ Et);
    [apply (client_query_evolves _ Qr Qt), insert_area_seats_written | intros ?].
  do 3 (apply (preserves_bind _ Et); [apply preserves_lift, Er | intros ?]).
  apply preserves_ret, Er.
Qed.

Lemma remap_tables_seats_written lugar tables :
  forall asientos,
    preserves (evolves (seats_written items)) (remap_tables lugar tables asientos).
Proof.
  induction tables as [| table rest IH]; intros asientos; simpl.
  - apply preserves_ret, Er.
  - apply (preserves_bind _ Et); [apply preserves_lift, Er |].
    intros [|].
    + apply (preserves_bind _ Et); [apply create_area_seats_written |].
      intros r. apply (preserves_bind _ Et); [apply IH |].
      intros r'. apply preserves_ret, Er.
    + apply (preserves_bind _ Et); [apply IH |].
      intros r'. apply preserves_ret, Er.
Qed.

Lemma remap_layout_seats_written lugar config asientos :
  preserves (evolves (seats_written items)) (remap_layout lugar config asientos).
Proof.
  unfold remap_layout. destruct (truthy config); [| apply preserves_ret, Er].
  apply (preserves_bind _ Et); [apply preserves_lift, Er |].
  intros tables. destruct tables; try apply preserves_ret, Er.
  apply (preserves_bind _ Et); [apply remap_tables_seats_written |].
  intros r. apply (preserves_bind _ Et); [apply preserves_lift, Er |].
  intros c. apply preserves_ret, Er.
Qed.

Lemma upsert_croquis_seats_written eventoID config :
  preserves (evolves (seats_written items)) (upsert_croquis eventoID config).
Proof.
  unfold upsert_croquis.
  apply (preserves_bind _ Et);
    [apply (client_query_evolves _ Qr Qt), select_croquis_id_keeps, Qr |].
  intros rows. destruct (is_undefined config); [apply preserves_ret, Er |].
  destruct rows; apply (client_query_evolves _ Qr Qt);
    auto using update_croquis_seats_written, insert_croquis_seats_written.
Qed.

Lemma process_seat_seats_written lugar asiento :
  estado_from items asiento ->
  preserves (evolves (seats_written items)) (process_seat lugar asiento).
Proof.
  intros Hs. unfold process_seat.
  apply (preserves_bind _ Et); [apply preserves_lift, Er |].
  intros [|].
  - apply (preserves_bind _ Et); [apply preserves_lift, Er |]. intros areaID.
    apply (preserves_bind _ Et); [apply preserves_lift, Er |]. intros [|].
    { repeat (apply (preserves_bind _ Et); [apply preserves_lift, Er | intros ?]).
      apply preserves_ret, Er. }
    do 3 (apply (preserves_bind _ Et); [apply preserves_lift, Er | intros ?]).
    destruct (get_prop asiento "estado") as [estado | e] eqn:E;
      [apply preserves_lift_val | apply preserves_lift_throw, Er].
    destruct estado; simpl; try apply preserves_lift_throw, Er.
    apply preserves_lift_val.
    apply (preserves_bind _ Et); [| intros ?; apply preserves_ret, Er].
    apply (client_query_evolves _ Qr Qt), insert_asiento_seats_written. auto.
  - apply (preserves_bind _ Et); [apply preserves_lift, Er |]. intros id.
    apply (preserves_bind _ Et);
      [apply (client_query_evolves _ Qr Qt), select_asiento_in_lugar_keeps, Qr |].
    intros [| x rows];
      [apply (preserves_bind _ Et);
         [apply preserves_lift, Er | intros ?; apply preserves_ret, Er] |].
    destruct (get_prop asiento "estado") as [estado | e] eqn:E;
      [apply preserves_lift_val | apply preserves_lift_throw, Er].
    destruct estado; simpl; try apply preserves_lift_throw, Er.
    apply preserves_lift_val.
    apply (client_query_evolves _ Qr Qt), update_asiento_estado_seats_written. auto.
Qed.

Lemma process_seats_seats_written lugar asientos :
  Forall (estado_from items) asientos ->
  preserves (evolves (seats_written items)) (process_seats lugar asientos).
Proof.
  apply (preserves_process_list _ Er Et _ (process_seat lugar)).
  - intros [| x r]; reflexivity.
  - intros x Hx. apply process_seat_seats_written, Hx.
Qed.

Lemma reconcile_seats_written lugar eventoID config :
  preserves (evolves (seats_written items)) (reconcile lugar eventoID config items).
Proof.
  unfold reconcile.
  apply (preserves_bind_post _ Qt (fun r => Forall (estado_from items) (snd r))).
  - apply remap_layout_seats_written.
  - intros w r w1 E. eapply remap_layout_estado_from; [exact E |].
    apply estado_from_self.
  - intros r Hr. apply (preserves_bind _ Et); [apply upsert_croquis_seats_written |].
    intros _. apply process_seats_seats_written, Hr.
Qed.
End SeatsWritten.

(** After a reconciliation, whatever its outcome, every Seat row that was not
    already there as it is was written with a normalised state. *)
Lemma put_layout_seats_written :
  forall eventoID configuracionCroquis asientos w,
    pending w = None ->
    seats_written (items_of asientos) (committed w)
      (committed (snd (put_layout eventoID configuracionCroquis asientos w))).
Proof.
  intros eventoID config asientos w Hp.
  apply (evolves_at_rest (seats_written (items_of asientos))); [exact Hp |].
  apply (put_layout_evolves _ (seats_written_refl _) (seats_written_trans _)).
  intros lugar. apply reconcile_seats_written.
Qed.

(** *** Relations every write of the reconciler keeps *)

Section Writes.
Variable Q : database -> database -> Prop.
Hypothesis Q_refl : forall d, Q d d.
Hypothesis Q_trans : forall a b c, Q a b -> Q b c -> Q a c.
Hypothesis Q_insert_area : forall n c t l, stmt_keeps Q (insert_area n c t l).
Hypothesis Q_update_croquis : forall c e, stmt_keeps Q (update_croquis c e).
Hypothesis Q_insert_croquis : forall e c, stmt_keeps Q (insert_croquis e c).
Hypothesis Q_insert_asiento :
  forall co fi cl es ar, stmt_keeps Q (insert_asiento co fi cl es ar).
Hypothesis Q_update_asiento :
  forall es id, stmt_keeps Q (update_asiento_estado es id).

Let Er := evolves_refl _ Q_refl.
Let Et := evolves_trans _ Q_trans.

Lemma create_area_writes lugar table asientos :
  preserves (evolves Q) (create_area lugar table asientos).
Proof.
  unfold create_area.
  do 6 (apply (preserves_bind _ Et); [apply preserves_lift, Er | intros ?]).
  apply (preserves_bind _ Et);
    [apply (client_query_evolves _ Q_refl Q_trans), Q_insert_area | intros ?].
  do 3 (apply (preserves_bind _ Et); [apply preserves_lift, Er | intros ?]).
  apply preserves_ret, Er.
Qed.

Lemma remap_tables_writes lugar tables :
  forall asientos, preserves (evolves Q) (remap_tables lugar tables asientos).
Proof.
  induction tables as [| table rest IH]; intros asientos; simpl.
  - apply preserves_ret, Er.
  - apply (preserves_bind _ Et); [apply preserves_lift, Er |].
    intros [|].
    + apply (preserves_bind _ Et); [apply create_area_writes |].
      intros r. apply (preserves_bind _ Et); [apply IH |].
      intros r'. apply preserves_ret, Er.
    + apply (preserves_bind _ Et); [apply IH |].
      intros r'. apply preserves_ret, Er.
Qed.

Lemma remap_layout_writes lugar config asientos :
  preserves (evolves Q) (remap_layout lugar config asientos).
Proof.
  unfold remap_layout. destruct (truthy config); [| apply preserves_ret, Er].
  apply (preserves_bind _ Et); [apply preserves_lift, Er |].
  intros tables. destruct tables; try apply preserves_ret, Er.
  apply (preserves_bind _ Et); [apply remap_tables_writes |].
  intros r. apply (preserves_bind _ Et); [apply preserves_lift, Er |].
  intros c. apply preserves_ret, Er.
Qed.

Lemma upsert_croquis_writes eventoID config :
  preserves (evolves Q) (upsert_croquis eventoID config).
Proof.
  unfold upsert_croquis.
  apply (preserves_bind _ Et);
    [apply (client_query_evolves _ Q_refl Q_trans), select_croquis_id_keeps, Q_refl |].
  intros rows. destruct (is_undefined config); [apply preserves_ret, Er |].
  destruct rows; apply (client_query_evolves _ Q_refl Q_trans); auto.
Qed.

Lemma process_seat_writes lugar asiento :
  preserves (evolves Q) (process_seat lugar asiento).
Proof.
  unfold process_seat.
  apply (preserves_bind _ Et); [apply preserves_lift, Er |].
  intros [|].
  - apply (preserves_bind _ Et); [apply preserves_lift, Er |]. intros areaID.
    apply (preserves_bind _ Et); [apply preserves_lift, Er |]. intros [|].
    { repeat (apply (preserves_bind _ Et); [apply preserves_lift, Er | intros ?]).
      apply preserves_ret, Er. }
    do 5 (apply (preserves_bind _ Et); [apply preserves_lift, Er | intros ?]).
    apply (preserves_bind _ Et); [| intros ?; apply preserves_ret, Er].
    apply (client_query_evolves _ Q_refl Q_trans), Q_insert_asiento.
  - apply (preserves_bind _ Et); [apply preserves_lift, Er |]. intros id.
    apply (preserves_bind _ Et);
      [apply (client_query_evolves _ Q_refl Q_trans),
         select_asiento_in_lugar_keeps, Q_refl |].
    intros [| x rows];
      [apply (preserves_bind _ Et);
         [apply preserves_lift, Er | intros ?; apply preserves_ret, Er] |].
    do 2 (apply (preserves_bind _ Et); [apply preserves_lift, Er | intros ?]).
    apply (client_query_evolves _ Q_refl Q_trans), Q_update_asiento.
Qed.

Lemma process_seats_writes lugar asientos :
  preserves (evolves Q) (process_seats lugar asientos).
Proof.
  apply (preserves_process_list _ Er Et (fun _ => True) (process_seat lugar)).
  - intros [| x r]; reflexivity.
  - intros x _. apply process_seat_writes.
  - apply Forall_forall. trivial.
Qed.

Lemma reconcile_writes lugar eventoID config asientos :
  preserves (evolves Q) (reconcile lugar eventoID config asientos).
Proof.
  unfold reconcile.
  apply (preserves_bind _ Et); [apply remap_layout_writes |].
  intros r. apply (preserves_bind _ Et); [apply upsert_croquis_writes |].
  intros _. apply process_seats_writes.
Qed.

Lemma put_layout_writes eventoID config asientos :
  preserves (evolves Q) (put_layout eventoID config asientos).
Proof.
  apply (put_layout_evolves _ Q_refl Q_trans). intros lugar. apply reconcile_writes.
Qed.
End Writes.

(** *** The schema survives a reconciliation *)

Lemma keeps_schema_refl d : keeps_schema d d.
Proof. split; [| split]; auto. Qed.

Lemma keeps_schema_trans a b c :
  keeps_schema a b -> keeps_schema b c -> keeps_schema a c.
Proof.
  intros [L1 [E1 S1]] [L2 [E2 S2]]. split; [| split]; try congruence; auto.
Qed.

Lemma keeps_schema_same d d' :
  tbl_Lugar d' = tbl_Lugar d -> tbl_Evento d' = tbl_Evento d ->
  tbl_Area d' = tbl_Area d -> keeps_schema d d'.
Proof.
  intros L E A. split; [| split]; auto. unfold schema_ok. rewrite L, A. tauto.
Qed.

Lemma mem_Z_In n l : mem_Z n l = true <-> In n l.
Proof.
  unfold mem_Z. rewrite existsb_exists. split.
  - intros [x [Hx E]]. apply Z.eqb_eq in E. subst. exact Hx.
  - intros H. exists n. split; [exact H | apply Z.eqb_refl].
Qed.

Lemma insert_area_keeps_schema n c t l : stmt_keeps keeps_schema (insert_area n c t l).
Proof.
  unfold insert_area. do 3 (apply with_param_keeps; intros ? _).
  intros d q a d' q' H.
  destruct (negb (0 <? p0)); [discriminate |].
  destruct (negb (mem_Z l (tbl_Lugar d))) eqn:Hfk; [discriminate |].
  destruct (mem_Z _ (map Area.areaID (tbl_Area d))); [discriminate |].
  inversion H; subst. split; [| split]; simpl; auto.
  intros [Hnd Hfa]. split; simpl; [exact Hnd |].
  intros ar Har. apply in_app_or in Har. destruct Har as [Har | [<- | []]].
  - apply Hfa, Har.
  - simpl. apply mem_Z_In. apply negb_false_iff in Hfk. exact Hfk.
Qed.

Lemma update_croquis_keeps_schema c e : stmt_keeps keeps_schema (update_croquis c e).
Proof.
  unfold update_croquis. do 2 (apply with_param_keeps; intros ? _).
  intros d q a d' q' H. inversion H; subst. apply keeps_schema_same; reflexivity.
Qed.

Lemma insert_croquis_keeps_schema e c : stmt_keeps keeps_schema (insert_croquis e c).
Proof.
  unfold insert_croquis. do 2 (apply with_param_keeps; intros ? _).
  intros d q a d' q' H. run_stmt H. apply keeps_schema_same; reflexivity.
Qed.

Lemma insert_asiento_keeps_schema co fi cl es ar :
  stmt_keeps keeps_schema (insert_asiento co fi cl es ar).
Proof.
  unfold insert_asiento. do 5 (apply with_param_keeps; intros ? _).
  intros d q a d' q' H. run_stmt H. apply keeps_schema_same; reflexivity.
Qed.

Lemma update_asiento_estado_keeps_schema es id :
  stmt_keeps keeps_schema (update_asiento_estado es id).
Proof.
  unfold update_asiento_estado. do 2 (apply with_param_keeps; intros ? _).
  intros d q a d' q' H. inversion H; subst. apply keeps_schema_same; reflexivity.
Qed.

Lemma put_layout_keeps_schema eventoID config asientos w :
  pending w = None ->
  keeps_schema (committed w) (committed (snd (put_layout eventoID config asientos w))).
Proof.
  intros Hp. apply (evolves_at_rest keeps_schema); [exact Hp |].
  apply (put_layout_writes _ keeps_schema_refl keeps_schema_trans);
    auto using insert_area_keeps_schema, update_croquis_keeps_schema,
      insert_croquis_keeps_schema, insert_asiento_keeps_schema,
      update_asiento_estado_keeps_schema.
Qed.

(** *** The join through [Lugar] *)

Lemma flat_map_nil {A B} (f : A -> list B) l :
  (forall x, In x l -> f x = []) -> flat_map f l = [].
Proof.
  induction l as [| x r IH]; intros H; simpl; [reflexivity |].
  rewrite (H x) by (left; reflexivity). apply IH. intros y Hy. apply H. right. exact Hy.
Qed.

Lemma flat_map_pick {B} (f : Z -> list B) x l :
  NoDup l -> In x l -> (forall y, y <> x -> f y = []) -> flat_map f l = f x.
Proof.
  intros Hnd Hin Hf. induction l as [| y r IH]; [contradiction |].
  inversion Hnd; subst. simpl. destruct Hin as [-> | Hin].
  - rewrite (flat_map_nil f r); [apply app_nil_r |].
    intros z Hz. apply Hf. intros ->. contradiction.
  - rewrite (Hf y); [apply IH; assumption |]. intros ->. contradiction.
Qed.

Lemma seats_via_lugar d id :
  schema_ok d -> seats_of_event_via_lugar d id = seats_of_event d id.
Proof.
  intros [Hnd Hfk]. unfold seats_of_event_via_lugar, seats_of_event. f_equal.
  apply flat_map_ext. intros a.
  induction (tbl_Area d) as [| ar ars IH]; [reflexivity |]. simpl.
  rewrite IH by (intros x Hx; apply Hfk; right; exact Hx). f_equal.
  rewrite (flat_map_pick _ (Area.lugarID ar)).
  - apply flat_map_ext. intros e. rewrite Z.eqb_refl. reflexivity.
  - exact Hnd.
  - apply Hfk. left. reflexivity.
  - intros y Hy. apply flat_map_nil. intros e _.
    replace (Area.lugarID ar =? y) with false
      by (symmetry; apply Z.eqb_neq; congruence).
    simpl. rewrite andb_false_r. reflexivity.
Qed.

Lemma insert_by_id_sorted r l :
  Sorted by_asientoID l -> Sorted by_asientoID (insert_by_id r l).
Proof.
  induction l as [| x t IH]; intros Hs; simpl.
  - repeat constructor.
  - destruct (Asiento.asientoID r <=? Asiento.asientoID x) eqn:E.
    + constructor; [exact Hs |]. constructor. apply Z.leb_le. exact E.
    + inversion Hs; subst. constructor; [auto |].
      apply Z.leb_gt in E. destruct t as [| y t']; simpl.
      * constructor. unfold by_asientoID. lia.
      * destruct (Asiento.asientoID r <=? Asiento.asientoID y).
        -- constructor. unfold by_asientoID. lia.
        -- inversion H2; subst. constructor. assumption.
Qed.

Lemma order_by_asientoID_sorted l : Sorted by_asientoID (order_by_asientoID l).
Proof.
  induction l as [| x r IH]; simpl; [constructor | apply insert_by_id_sorted, IH].
Qed.

(** *** Running statements forward *)

Lemma try_catch_val_inv {A} (m : M A) (h : exn -> M A) w a w' :
  try_catch m h w = (Val a, w') ->
  m w = (Val a, w') \/ exists e w1, m w = (Throw e, w1) /\ h e w1 = (Val a, w').
Proof.
  unfold try_catch. destruct (m w) as [[x | e] w1]; intros H.
  - left. exact H.
  - right. eauto.
Qed.

Lemma client_commit_ok w w1 :
  client_commit w = (Val tt, w1) ->
  committed w1 = current w /\ pending w1 = None /\ faulty w1 = faulty w
  /\ issued w1 = S (issued w).
Proof.
  unfold client_commit, current. destruct (faulty w (issued w)); [discriminate |].
  destruct (pending w); intros H; inversion H; subst; simpl; auto.
Qed.

Lemma client_query_select_at_rest {P A} (o : outcome P) (f : P -> database -> A) w a w' :
  pending w = None ->
  client_query (with_param o (fun p => select (f p))) w = (Val a, w') ->
  (exists p, o = Val p /\ a = f p (committed w))
  /\ committed w' = committed w /\ pending w' = None /\ faulty w' = faulty w
  /\ issued w' = S (issued w).
Proof.
  intros Hp. unfold client_query. rewrite Hp.
  destruct (faulty w (issued w)); [discriminate |].
  destruct (with_param _ _ (committed w) (seqs w)) as [[[x d] | e] q] eqn:E;
    [| discriminate].
  intros H. inversion H; subst. simpl.
  apply with_param_select_inv in E. destruct E as [_ E].
  destruct (E _ _ eq_refl) as [-> [p [-> ->]]]. eauto 10.
Qed.

Lemma pool_query_select_run {P A} (o : outcome P) (f : P -> database -> A) p w :
  faulty w (issued w) = false -> o = Val p ->
  pool_query (with_param o (fun p => select (f p))) w
  = (Val (f p (committed w)), sent w (committed w) (pending w) (seqs w)).
Proof.
  intros F ->. unfold pool_query. rewrite F. reflexivity.
Qed.

Lemma pool_query_select_inv {P A} (o : outcome P) (f : P -> database -> A) w a w' :
  pool_query (with_param o (fun p => select (f p))) w = (Val a, w') ->
  exists p, o = Val p /\ a = f p (committed w).
Proof.
  unfold pool_query. destruct (faulty w (issued w)); [discriminate |].
  destruct (with_param _ _ (committed w) (seqs w)) as [[[x d] | e] q] eqn:E;
    [| discriminate].
  intros H. inversion H; subst.
  apply with_param_select_inv in E. destruct E as [_ E].
  destruct (E _ _ eq_refl) as [_ [p [-> ->]]]. eauto.
Qed.

(** What a successful PUT has read. *)
Lemma put_layout_success eventoID config asientos w s layoutConfig seats w' :
  put_layout eventoID config asientos w = (Val (Layout s layoutConfig seats), w') ->
  s = 200
  /\ exists id,
      pg_int4 (VStr eventoID) = Val id
      /\ filter (fun e => eqb_opt id (Evento.eventoID e)) (tbl_Evento (committed w)) <> []
      /\ layoutConfig
         = first_or (map Croquis.configuracion
                         (filter (fun c => eqb_opt id (Croquis.eventoID c))
                                 (tbl_Croquis (committed w')))) VNull
      /\ seats = seats_of_event (committed w') id.
Proof.
  unfold put_layout. intros H.
  apply try_catch_val_inv in H. destruct H as [H | [e [w1 [_ H]]]]; [| discriminate].
  apply bind_val_inv in H. destruct H as [rows [w0 [Hq H]]].
  apply pool_query_select_inv in Hq. destruct Hq as [id [Hid Hrows]].
  destruct rows as [| ev rest]; [discriminate |].
  destruct (andb _ _); [discriminate |].
  destruct asientos; try discriminate.
  apply try_catch_val_inv in H. destruct H as [H | [e [w1 [_ H]]]].
  2:{ apply bind_val_inv in H. destruct H as [? [? [_ H]]]; discriminate. }
  unfold put_layout_transaction in H.
  apply bind_val_inv in H. destruct H as [? [w1 [_ H]]].
  destruct (Evento.lugarID ev).
  2:{ apply bind_val_inv in H. destruct H as [? [? [_ H]]]; discriminate. }
  apply bind_val_inv in H. destruct H as [? [w2 [_ H]]].
  apply bind_val_inv in H. destruct H as [[] [w3 [Hc H]]].
  apply client_commit_ok in Hc. destruct Hc as [_ [Hp3 _]].
  unfold final_response in H.
  apply bind_val_inv in H. destruct H as [cfgs [w4 [H4 H]]].
  apply bind_val_inv in H. destruct H as [sts [w5 [H5 H]]].
  apply (client_query_select_at_rest _ _ _ _ _ Hp3) in H4.
  destruct H4 as [[id4 [Hid4 ->]] [Hc4 [Hp4 _]]].
  apply (client_query_select_at_rest _ _ _ _ _ Hp4) in H5.
  destruct H5 as [[id5 [Hid5 ->]] [Hc5 _]].
  inversion H; subst.
  assert (id4 = id) by congruence. assert (id5 = id) by congruence. subst.
  split; [reflexivity |]. exists id. rewrite Hc5, Hc4.
  repeat split; auto. rewrite <- Hrows. discriminate.
Qed.

(** C6.  After a successful reconciliation on a store that honours the keys
    of [schema.sql], a GET of the same event that no connection fault hits
    answers 200 with the very [layoutConfig] and the very [seats] of the PUT
    answer; the seats come in ascending order of [asientoID]. *)
Theorem get_layout_after_put_layout :
  forall eventoID configuracionCroquis asientos w s layoutConfig seats w',
    pending w = None ->
    schema_ok (committed w) ->
    put_layout eventoID configuracionCroquis asientos w
    = (Val (Layout s layoutConfig seats), w') ->
    (forall n, (issued w' <= n)%nat -> faulty w' n = false) ->
    s = 200
    /\ fst (get_layout eventoID w') = Val (Layout 200 layoutConfig seats)
    /\ Sorted by_asientoID seats.
Proof.
  intros eventoID config asientos w s cfg seats w' Hp Hok Hput Hf.
  pose proof (put_layout_keeps_schema eventoID config asientos w Hp) as Hk.
  rewrite Hput in Hk. simpl in Hk. destruct Hk as [_ [Hev Hs]].
  specialize (Hs Hok).
  apply put_layout_success in Hput.
  destruct Hput as [-> [id [Hid [Hrows [-> ->]]]]].
  split; [reflexivity |]. split; [| apply order_by_asientoID_sorted].
  unfold get_layout, try_catch, bind at 1, select_evento.
  rewrite (pool_query_select_run _ _ id) by (auto using Nat.le_refl).
  rewrite Hev.
  destruct (filter _ (tbl_Evento (committed w))) as [| ev rest]; [congruence |].
  unfold bind, select_configuracion, select_seats_via_lugar.
  rewrite (pool_query_select_run _ _ id) by (simpl; auto).
  rewrite (pool_query_select_run _ _ id) by (simpl; auto).
  simpl. rewrite seats_via_lugar by exact Hs. reflexivity.
Qed.

(** *** One temporary table entry *)

Lemma client_query_val_inv {A} (s : stmt A) w a w' :
  client_query s w = (Val a, w') ->
  s (current w) (seqs w) = (Val (a, current w'), seqs w')
  /\ (pending w <> None -> committed w' = committed w)
  /\ faulty w (issued w) = false.
Proof.
  unfold client_query, current.
  destruct (faulty w (issued w)); [discriminate |].
  destruct (pending w) as [t |] eqn:E.
  - destruct (s t (seqs w)) as [[[x d] | e] q]; intros H; inversion H; subst.
    simpl. auto.
  - destruct (s (committed w) (seqs w)) as [[[x d] | e] q]; intros H; inversion H; subst.
    simpl. split; [reflexivity |]. split; [congruence | reflexivity].
Qed.

Lemma insert_area_inv n c t l d q row d' q' :
  insert_area n c t l d q = (Val (row, d'), q') ->
  exists nm cp tp,
    pg_varchar 100 n = Val (Some nm)
    /\ pg_int4 c = Val (Some cp)
    /\ pg_enum tipo_area t = Val (Some tp)
    /\ row = {| Area.areaID := area_areaid_seq q; Area.nombre := nm;
                Area.capacidad := cp; Area.tipo := tp; Area.lugarID := l |}
    /\ d' = with_Area (tbl_Area d ++ [row]) d.
Proof.
  unfold insert_area, with_param.
  destruct (pg_varchar 100 n) as [[nm |] |]; try discriminate. simpl.
  destruct (pg_int4 c) as [[cp |] |]; try discriminate. simpl.
  destruct (pg_enum tipo_area t) as [[tp |] |]; try discriminate. simpl.
  intros H. run_stmt H. eauto 10.
Qed.

Lemma get_set_same v k x v' :
  is_object v = true -> set_prop v k x = Val v' ->
  get_prop v' k = Val x /\ is_object v' = true.
Proof.
  destruct v; try discriminate; intros _ H; inversion H; subst; simpl;
    rewrite lookup_assign_same; auto.
Qed.

Lemma isTempTable_object table : isTempTable table = Val true -> is_object table = true.
Proof.
  unfold isTempTable. destruct table; simpl; try discriminate; auto.
Qed.

Lemma pg_enum_text labels v s :
  pg_enum labels v = Val (Some s) -> s = to_js_string v /\ In s labels.
Proof.
  unfold pg_enum. intros H.
  destruct (mem_string (to_js_string v) labels) eqn:E;
    destruct v; try discriminate; inversion H; subst;
    (split; [reflexivity |]);
    unfold mem_string in E; apply existsb_exists in E; destruct E as [y [Hy Ey]];
    apply String.eqb_eq in Ey; subst y; exact Hy.
Qed.


Lemma pg_varchar_text n s r :
  pg_varchar n (VStr s) = Val (Some r) -> varchar_in n s = Val r.
Proof.
  unfold pg_varchar. cbn [pg_text to_js_string].
  destruct (varchar_in n s); [| discriminate]. intros H. inversion H. reflexivity.
Qed.



Lemma ToString_val v t : ToString v = Val t -> t = to_js_string v /\ printable v = true.
Proof.
  unfold ToString. destruct (printable v); [| discriminate].
  intros H. inversion H. auto.
Qed.

Lemma create_area_inv lugar table asientos w r w' :
  isTempTable table = Val true ->
  create_area lugar table asientos w = (Val r, w') ->
  exists tempAreaId nombre id capacidad tipo row,
    get_prop table "areaid" = Val tempAreaId
    /\ get_prop table "nombre" = Val nombre
    /\ get_prop table "id" = Val id
    /\ get_prop table "capacidad" = Val capacidad
    /\ get_prop table "tipo" = Val tipo
    /\ insert_area (VStr ("Área " ++ to_js_string (js_or nombre id)))
                   (js_or capacidad (VNum 50)) (js_or tipo (VStr "GENERAL")) lugar
                   (current w) (seqs w)
       = (Val (row, current w'), seqs w')
    /\ get_prop (fst r) "areaid" = Val (VNum (Area.areaID row))
    /\ get_prop (fst r) "id" = Val (VStr ("area-" ++ number_to_string (Area.areaID row)))
    /\ for_each (retarget tempAreaId (VNum (Area.areaID row))) asientos = Val (snd r).
Proof.
  intros Ht H. pose proof (isTempTable_object _ Ht) as Ho.
  unfold create_area in H.
  apply bind_val_inv in H. destruct H as [tmp [w1 [H1 H]]].
  apply lift_inv in H1. destruct H1 as [H1 ->].
  apply bind_val_inv in H. destruct H as [t0 [w1 [H0 H]]].
  apply lift_inv in H0. destruct H0 as [_ ->].
  apply bind_val_inv in H. destruct H as [t1 [w1 [H0 H]]].
  apply lift_inv in H0. destruct H0 as [_ ->].
  apply bind_val_inv in H. destruct H as [nm [w1 [H2 H]]].
  apply lift_inv in H2. destruct H2 as [H2 ->].
  apply bind_val_inv in H. destruct H as [cp [w1 [H3 H]]].
  apply lift_inv in H3. destruct H3 as [H3 ->].
  apply bind_val_inv in H. destruct H as [tp [w1 [H4 H]]].
  apply lift_inv in H4. destruct H4 as [H4 ->].
  apply bind_val_inv in H. destruct H as [row [w1 [H5 H]]].
  apply client_query_val_inv in H5. destruct H5 as [H5 _].
  apply bind_val_inv in H. destruct H as [t1' [w2 [H6 H]]].
  apply lift_inv in H6. destruct H6 as [H6 ->].
  apply bind_val_inv in H. destruct H as [t2 [w2 [H7 H]]].
  apply lift_inv in H7. destruct H7 as [H7 ->].
  apply bind_val_inv in H. destruct H as [as' [w2 [H8 H]]].
  apply lift_inv in H8. destruct H8 as [H8 ->].
  apply ret_inv in H. destruct H as [H ->]. inversion H; subst. simpl.
  symmetry in H6, H7, H8.
  destruct (get_set_same _ _ _ _ Ho H6) as [G1 Ho1].
  destruct (get_set_same _ _ _ _ Ho1 H7) as [G2 _].
  assert (Ga : get_prop t2 "areaid" = Val (VNum (Area.areaID row))).
  { rewrite (get_set_other _ _ _ _ "areaid" H7) by reflexivity. exact G1. }
  unfold area_nombre, area_capacidad, area_tipo in *.
  destruct (get_prop table "nombre") as [nombre |]; [| discriminate].
  destruct (get_prop table "id") as [id |]; [| discriminate].
  destruct (get_prop table "capacidad") as [capacidad |]; [| discriminate].
  destruct (get_prop table "tipo") as [tipo |]; [| discriminate].
  cbn [obind] in H2, H3, H4.
  destruct (ToString (js_or nombre id)) as [text |] eqn:Etext; [| discriminate].
  apply ToString_val in Etext. destruct Etext as [-> _].
  cbn [obind] in H2. inversion H2; inversion H3; inversion H4; subst.
  exists tmp, nombre, id, capacidad, tipo, row. auto 10.
Qed.

(** *** The loop over the table entries *)

Lemma area_refs_object s : is_object s = true -> exists refs, area_refs s = Val refs.
Proof. destruct s; try discriminate; intros _; unfold area_refs; simpl; eauto. Qed.

Lemma retarget_follows tmp real s s' :
  is_object s = true -> retarget tmp real s = Val s' ->
  is_object s' = true
  /\ exists refs, area_refs s = Val refs /\ area_refs s' = Val (follow_step tmp real refs).
Proof.
  intros Ho H.
  assert (Hps : exists ps, get_prop s "areaID" = Val (lookup "areaID" ps)
                           /\ get_prop s "areaid" = Val (lookup "areaid" ps))
    by (destruct s; try discriminate; eexists; split; reflexivity).
  destruct Hps as [ps [Hu Hl]].
  unfold retarget in H. rewrite Hu, Hl in H. simpl in H.
  unfold area_refs, follow_step. rewrite Hu, Hl. simpl.
  assert (Hw : forall r, obind (set_prop s "areaID" real)
                               (fun a => set_prop a "areaid" real) = Val r ->
                         is_object r = true
                         /\ get_prop r "areaID" = Val real /\ get_prop r "areaid" = Val real).
  { intros r Hr. destruct (set_prop s "areaID" real) as [a |] eqn:Ea; [| discriminate].
    simpl in Hr. destruct (get_set_same _ _ _ _ Ho Ea) as [G1 Ho1].
    destruct (get_set_same _ _ _ _ Ho1 Hr) as [G2 Ho2].
    repeat split; auto.
    rewrite (get_set_other _ _ _ _ "areaID" Hr) by reflexivity. exact G1. }
  destruct (strict_eq (lookup "areaID" ps) tmp) eqn:E1.
  - destruct (Hw _ H) as [Ho' [G1 G2]]. split; [exact Ho' |].
    eexists. split; [reflexivity |]. cbn [fst snd]. rewrite E1, G1, G2. reflexivity.
  - destruct (strict_eq (lookup "areaid" ps) tmp) eqn:E2.
    + destruct (Hw _ H) as [Ho' [G1 G2]]. split; [exact Ho' |].
      eexists. split; [reflexivity |]. cbn [fst snd]. rewrite E1, E2, G1, G2.
      reflexivity.
    + inversion H; subst. split; [exact Ho |].
      eexists. split; [reflexivity |]. cbn [fst snd]. rewrite E1, E2, Hu, Hl.
      reflexivity.
Qed.

Lemma follows_nil l : Forall2 (follows []) l l.
Proof.
  induction l; constructor; auto. intros Ho. split; [exact Ho |].
  destruct (area_refs_object _ Ho) as [refs Hr]. eauto.
Qed.

Lemma follows_cons tmp row steps l l1 l2 :
  for_each (retarget tmp (VNum (Area.areaID row))) l = Val l1 ->
  Forall2 (follows steps) l1 l2 ->
  Forall2 (follows ((tmp, row) :: steps)) l l2.
Proof.
  intros H. apply for_each_Forall2 in H. revert l2.
  induction H as [| s s1 l l1 Hs _ IH]; intros l2 H2; inversion H2; subst;
    constructor; auto.
  intros Ho. destruct (retarget_follows _ _ _ _ Ho Hs) as [Ho1 [refs [Hr Hr1]]].
  destruct (H1 Ho1) as [Ho2 [refs1 [Hr1' Hr2]]].
  split; [exact Ho2 |]. exists refs. split; [exact Hr |].
  rewrite Hr1 in Hr1'. inversion Hr1'; subst. exact Hr2.
Qed.

Lemma remap_tables_inv lugar tables :
  forall asientos w r w',
    remap_tables lugar tables asientos w = (Val r, w') ->
    exists steps,
      remapped tables steps (fst r)
      /\ tbl_Area (current w') = (tbl_Area (current w) ++ map snd steps)%list
      /\ Forall (fun step => Area.lugarID (snd step) = lugar) steps
      /\ tbl_Asiento (current w') = tbl_Asiento (current w)
      /\ Forall2 (follows steps) asientos (snd r).
Proof.
  induction tables as [| table rest IH]; intros asientos w r w' H; simpl in H.
  - inversion H; subst. exists []. simpl. rewrite app_nil_r.
    repeat split; auto using follows_nil. constructor.
  - apply bind_val_inv in H. destruct H as [flag [w0 [Hf H]]].
    apply lift_inv in Hf. destruct Hf as [Hf ->]. symmetry in Hf. destruct flag.
    + apply bind_val_inv in H. destruct H as [r1 [w1 [H1 H]]].
      apply bind_val_inv in H. destruct H as [r2 [w2 [H2 H]]].
      inversion H; subst. simpl.
      destruct (create_area_inv _ _ _ _ _ _ Hf H1)
        as [tmp [nombre [id [capacidad [tipo [row [Ha [_ [_ [_ [_ [Hins [Ga [Gi Hfe]]]]]]]]]]]]]].
      apply insert_area_inv in Hins.
      destruct Hins as [nm [cp [tp [_ [_ [_ [Hrow Hd]]]]]]].
      destruct (IH _ _ _ _ H2) as [steps [Hrm [Har [Hlu [Has Hfo]]]]].
      exists ((tmp, row) :: steps). repeat split.
      * econstructor; eauto.
      * rewrite Har, Hd. simpl. rewrite <- app_assoc. reflexivity.
      * constructor; [rewrite Hrow; reflexivity | exact Hlu].
      * rewrite Has, Hd. reflexivity.
      * eapply follows_cons; eauto.
    + apply bind_val_inv in H. destruct H as [r2 [w2 [H2 H]]].
      inversion H; subst. simpl.
      destruct (IH _ _ _ _ H2) as [steps [Hrm [Har [Hlu [Has Hfo]]]]].
      exists steps. repeat split; auto. constructor; auto.
Qed.



(** *** One seat descriptor *)

Lemma client_query_throw_inv {A} (s : stmt A) w e w' :
  client_query s w = (Throw e, w') ->
  committed w' = committed w /\ pending w' = pending w.
Proof.
  unfold client_query.
  destruct (faulty w (issued w)); [intros H; inversion H; auto |].
  destruct (pending w) as [t |] eqn:E.
  - destruct (s t (seqs w)) as [[[x d] | e0] q]; intros H; inversion H; subst.
    simpl. auto.
  - destruct (s (committed w) (seqs w)) as [[[x d] | e0] q]; intros H; inversion H; subst.
    simpl. auto.
Qed.

Lemma current_same w w' :
  committed w' = committed w -> pending w' = pending w -> current w' = current w.
Proof. unfold current. intros -> ->. reflexivity. Qed.

Lemma insert_asiento_inv co fi cl es ar d q row d' q' :
  insert_asiento co fi cl es ar d q = (Val (row, d'), q') ->
  pg_enum estado_asiento es = Val (Some (Asiento.estado row))
  /\ pg_int4 ar = Val (Some (Asiento.areaID row))
  /\ pg_varchar 20 co = Val (Asiento.codigo row)
  /\ Asiento.asientoID row = asiento_asientoid_seq q
  /\ In (Asiento.areaID row) (map Area.areaID (tbl_Area d))
  /\ d' = with_Asiento (tbl_Asiento d ++ [row]) d.
Proof.
  unfold insert_asiento, with_param.
  destruct (pg_varchar 20 co) as [c0 |]; try discriminate.
  destruct (pg_int4 fi) as [f0 |]; try discriminate.
  destruct (pg_int4 cl) as [l0 |]; try discriminate.
  destruct (pg_enum estado_asiento es) as [[e0 |] |]; try discriminate. simpl.
  destruct (pg_int4 ar) as [[a0 |] |]; try discriminate. simpl.
  destruct (negb (mem_Z a0 (map Area.areaID (tbl_Area d)))) eqn:Hfk; [discriminate |].
  destruct (mem_Z _ (map Asiento.asientoID (tbl_Asiento d))); [discriminate |].
  intros H. inversion H; subst. simpl. repeat split; auto.
  apply mem_Z_In. apply negb_false_iff in Hfk. exact Hfk.
Qed.

Lemma isNewSeat_spec asiento id isNew :
  get_prop asiento "asientoID" = Val id ->
  get_prop asiento "isNew" = Val isNew ->
  isNewSeat asiento
  = Val (orb (is_undefined id)
             (orb (match id with VNum n => ceiling <? n | _ => false end)
                  (truthy isNew))).
Proof.
  intros Hi Hn. unfold isNewSeat. rewrite Hi. simpl.
  destruct (is_undefined id); [reflexivity |].
  destruct (match id with VNum n => ceiling <? n | _ => false end); [reflexivity |].
  rewrite Hn. reflexivity.
Qed.

Lemma invalid_areaID_printable a b : invalid_areaID a = Val b -> printable a = true.
Proof.
  unfold invalid_areaID, call_parseInt, ToString.
  destruct (truthy a) eqn:T; simpl.
  - destruct (printable a); [reflexivity | discriminate].
  - intros _. destruct a; try reflexivity; discriminate.
Qed.

Lemma ToString_printable v : printable v = true -> ToString v = Val (to_js_string v).
Proof. unfold ToString. intros ->. reflexivity. Qed.

(** C4, as the code has it.  A seat descriptor whose identifier is absent, or
    a number above the ceiling, or that carries a true [isNew], is taken for a
    new seat and never goes through the update: either its [areaID] fails the
    check and nothing is sent (the descriptor is passed over, unless its
    [codigo] cannot be printed in the message logged), or one INSERT is sent
    which, once accepted, appends one Seat row, under the area the descriptor
    names and with its state in upper case; a refused INSERT leaves the
    tables alone. *)
Theorem new_seat_is_inserted :
  forall lugarIDDelEvento asiento id isNew w o w',
    get_prop asiento "asientoID" = Val id ->
    get_prop asiento "isNew" = Val isNew ->
    (id = VUndef \/ (exists n, id = VNum n /\ ceiling < n) \/ truthy isNew = true) ->
    process_seat lugarIDDelEvento asiento w = (o, w') ->
    isNewSeat asiento = Val true
    /\ exists areaID codigo,
        get_prop asiento "areaID" = Val areaID
        /\ get_prop asiento "codigo" = Val codigo
        /\ (invalid_areaID areaID = Val true ->
            w' = w /\ (printable codigo = true -> o = Val tt))
        /\ (invalid_areaID areaID = Val false -> o = Val tt ->
            exists row e,
              tbl_Asiento (current w') = (tbl_Asiento (current w) ++ [row])%list
              /\ tbl_Area (current w') = tbl_Area (current w)
              /\ pg_int4 areaID = Val (Some (Asiento.areaID row))
              /\ get_prop asiento "estado" = Val (VStr e)
              /\ Asiento.estado row = toUpperCase e)
        /\ (forall e, o = Throw e -> current w' = current w).
Proof.
  intros lugar asiento id isNew w o w' Hi Hn Hnew H.
  assert (Hs : isNewSeat asiento = Val true).
  { rewrite (isNewSeat_spec _ _ _ Hi Hn).
    destruct Hnew as [-> | [[n [-> Hc]] | Ht]].
    - reflexivity.
    - simpl. apply Z.ltb_lt in Hc. rewrite Hc. reflexivity.
    - rewrite Ht. rewrite !orb_true_r. reflexivity. }
  split; [exact Hs |].
  assert (Hg : forall k, get_prop asiento k
                         = Val (match asiento with
                                | VObj ps | VArr _ ps => lookup k ps
                                | _ => VUndef
                                end))
    by (destruct asiento; try discriminate; reflexivity).
  unfold process_seat in H. rewrite Hs in H.
  unfold bind at 1, lift at 1 in H.
  exists (match asiento with VObj ps | VArr _ ps => lookup "areaID" ps | _ => VUndef end).
  exists (match asiento with VObj ps | VArr _ ps => lookup "codigo" ps | _ => VUndef end).
  split; [apply Hg |]. split; [apply Hg |].
  rewrite (Hg "areaID") in H. unfold bind at 1, lift at 1 in H.
  unfold bind at 1, lift at 1 in H.
  destruct (invalid_areaID _) as [[|] | e0] eqn:Hinv.
  - rewrite (Hg "codigo") in H. unfold bind at 1, lift at 1 in H.
    rewrite (ToString_printable _ (invalid_areaID_printable _ _ Hinv)) in H.
    unfold ToString in H.
    destruct (printable (match asiento with
                         | VObj ps | VArr _ ps => lookup "codigo" ps
                         | _ => VUndef
                         end)) eqn:Hpc.
    + inversion H; subst. repeat split; try discriminate; auto.
    + inversion H; subst. repeat split; try discriminate; auto.
  - rewrite (Hg "codigo"), (Hg "fila"), (Hg "columna"), (Hg "estado") in H.
    unfold bind at 1, lift at 1 in H. unfold bind at 1, lift at 1 in H.
    unfold bind at 1, lift at 1 in H. unfold bind at 1, lift at 1 in H.
    split; [discriminate |].
    destruct (call_toUpperCase _) as [up | e0] eqn:Eup.
    2:{ unfold bind, lift in H. inversion H; subst. split; [discriminate | auto]. }
    unfold bind at 1, lift at 1 in H.
    apply bind_inv in H. destruct H as [[row [w1 [Hq H]]] | [e0 [Hq ->]]].
    + apply ret_inv in H. destruct H as [-> ->].
      apply client_query_val_inv in Hq. destruct Hq as [Hq _].
      apply insert_asiento_inv in Hq.
      destruct Hq as [Hes [Har [_ [_ [_ Hd]]]]].
      split; [| discriminate]. intros _ _.
      unfold call_toUpperCase in Eup.
      destruct (match asiento with
                | VObj ps | VArr _ ps => lookup "estado" ps
                | _ => VUndef
                end) as [| | | | e | |] eqn:Ee; try discriminate.
      inversion Eup; subst up.
      apply pg_enum_text in Hes. destruct Hes as [Hes _]. simpl in Hes.
      exists row, e. rewrite Hd. simpl. repeat split; auto.
      rewrite Hg. rewrite Ee. reflexivity.
    + split; [discriminate |]. intros e1 _.
      apply client_query_throw_inv in Hq. destruct Hq. apply current_same; auto.
  - inversion H; subst. repeat split; try discriminate; auto.
Qed.

(** C4 as worded fails on a string identifier: without the marker such a seat
    is taken for an existing one. *)
Lemma string_id_is_not_taken_for_new : ~ temporary_ids_taken_for_new.
Proof.
  intros H.
  specialize (H Sample.seat_with_string_id (VStr "new-seat-1") VUndef eq_refl eq_refl).
  assert (E : isNewSeat Sample.seat_with_string_id = Val true) by (apply H; eauto).
  discriminate.
Qed.




(** *** Deleting an area *)

Lemma client_query_select_run {P A} (o : outcome P) (f : P -> database -> A) p w t :
  faulty w (issued w) = false -> pending w = Some t -> o = Val p ->
  client_query (with_param o (fun p => select (f p))) w
  = (Val (f p t), sent w (committed w) (Some t) (seqs w)).
Proof. intros F Hp ->. unfold client_query. rewrite F, Hp. reflexivity. Qed.



Lemma layout_of_updated eid c' l :
  match filter (fun c => eqb_opt (Some eid) (Croquis.eventoID c))
               (map (fun r => if eqb_opt (Some eid) (Croquis.eventoID r)
                              then Croquis.with_configuracion c' r else r) l) with
  | c :: _ => Some (Croquis.configuracion c)
  | [] => None
  end
  = match filter (fun c => eqb_opt (Some eid) (Croquis.eventoID c)) l with
    | _ :: _ => Some c'
    | [] => None
    end.
Proof.
  unfold eqb_opt. induction l as [| r l IH]; simpl; [reflexivity |].
  destruct (eid =? Croquis.eventoID r) eqn:E; simpl; rewrite E.
  - reflexivity.
  - exact IH.
Qed.

Lemma other_layouts_updated eid c' l :
  filter (fun c => negb (eqb_opt (Some eid) (Croquis.eventoID c)))
         (map (fun r => if eqb_opt (Some eid) (Croquis.eventoID r)
                        then Croquis.with_configuracion c' r else r) l)
  = filter (fun c => negb (eqb_opt (Some eid) (Croquis.eventoID c))) l.
Proof.
  unfold eqb_opt. induction l as [| r l IH]; simpl; [reflexivity |].
  destruct (eid =? Croquis.eventoID r) eqn:E; simpl; rewrite E; simpl.
  - exact IH.
  - rewrite IH. reflexivity.
Qed.

Lemma filter_In_nonempty {A} (f : A -> bool) l x :
  In x l -> f x = true -> exists y r, filter f l = y :: r.
Proof.
  intros Hx Hf. destruct (filter f l) as [| y r] eqn:E; [| eauto].
  assert (Hin : In x (filter f l)) by (apply filter_In; auto).
  rewrite E in Hin. contradiction.
Qed.

Lemma In_nonempty {A} (l : list A) x : In x l -> exists y r, l = y :: r.
Proof. destruct l; [contradiction | eauto]. Qed.

Lemma deleted_rows aid gone x :
  gone <> [] -> Forall (fun ar => Area.areaID ar = aid) gone ->
  mem_Z x (map Area.areaID gone) = (x =? aid).
Proof.
  intros Hne Hall. destruct (x =? aid) eqn:E.
  - apply Z.eqb_eq in E. subst. apply mem_Z_In.
    destruct gone as [| ar r]; [congruence |]. inversion Hall; subst.
    left. reflexivity.
  - rewrite <- not_true_iff_false. intros H. apply mem_Z_In in H.
    apply in_map_iff in H. destruct H as [ar [Har Hin]].
    rewrite Forall_forall in Hall. rewrite (Hall _ Hin) in Har.
    apply Z.eqb_neq in E. congruence.
Qed.


(** *** After COMMIT *)

(** Once COMMIT has gone through, a fault on one of the two re-reads still
    sends the handler to its [catch]: the answer is a 500, and the tables are
    those the transaction ended with. *)
Lemma reread_fault_after_commit eventoID config asientos w ev rest w0 w1 lugar w2 w3 :
  pool_query (select_evento (VStr eventoID)) w = (Val (ev :: rest), w0) ->
  well_formed_body config asientos ->
  client_begin w0 = (Val tt, w1) ->
  Evento.lugarID ev = Some lugar ->
  reconcile lugar eventoID config (items_of asientos) w1 = (Val tt, w2) ->
  client_commit w2 = (Val tt, w3) ->
  faulty w3 (issued w3) = true ->
  exists message w',
    put_layout eventoID config asientos w = (Val (Failure 500 message), w')
    /\ committed w' = current w2.
Proof.
  intros Hq Hwf Hb Hl Hr Hc Hf.
  destruct (well_formed_body_checks _ _ Hwf) as [Hv [items [props [-> Hi]]]].
  simpl in Hr.
  unfold put_layout, try_catch at 1, bind at 1. rewrite Hq, Hv.
  unfold put_layout_transaction, try_catch, bind at 1. rewrite Hb, Hl.
  unfold bind at 1. rewrite Hr. unfold bind at 1. rewrite Hc.
  unfold final_response, bind at 1, client_query at 1. rewrite Hf.
  apply client_commit_ok in Hc. destruct Hc as [Hc _].
  match goal with
  | |- context [(client_rollback ;;; _) ?w4] =>
      unfold bind; destruct (client_rollback w4) as [[[] | e] w5] eqn:E
  end; unfold ret; do 2 eexists; (split; [reflexivity |]);
    apply client_rollback_committed in E; simpl in E; congruence.
Qed.

(** C9.  A 500 does not tell that nothing changed.  In the scenario of the
    specification, let the connection drop the first re-read after COMMIT:
    the handler answers 500, yet the committed tables are the very ones the
    faultless run leaves behind its 200, with the new Area row, the new Seat
    row and the layout document. *)
Theorem put_layout_500_with_writes_committed :
  exists message w' layoutConfig seats w'',
    put_layout "1" Sample.layout Sample.seats Sample.w_reread_fails
    = (Val (Failure 500 message), w')
    /\ put_layout "1" Sample.layout Sample.seats Sample.w
       = (Val (Layout 200 layoutConfig seats), w'')
    /\ committed w' = committed w''
    /\ committed Sample.w_reread_fails = committed Sample.w
    /\ List.length (tbl_Area (committed Sample.w)) = 0%nat
    /\ List.length (tbl_Area (committed w')) = 1%nat
    /\ List.length (tbl_Asiento (committed w')) = 1%nat
    /\ List.length (tbl_Croquis (committed w')) = 1%nat.
Proof.
  do 5 eexists.
  split; [vm_compute; reflexivity |].
  split; [vm_compute; reflexivity |].
  repeat split.
Qed.

(* ------------------------------------------------------------------------- *)
(** ** Further properties of the handlers *)

(** *** Reading *)

Lemma pool_query_select_frame {P A} (o : outcome P) (f : P -> database -> A) w :
  snd (pool_query (with_param o (fun p => select (f p))) w)
  = sent w (committed w) (pending w) (seqs w).
Proof.
  unfold pool_query, with_param, select.
  destruct (faulty w (issued w)); [reflexivity |]. destruct o; reflexivity.
Qed.

Lemma pool_query_select_evento_frame v w :
  snd (pool_query (select_evento v) w) = sent w (committed w) (pending w) (seqs w).
Proof. apply pool_query_select_frame. Qed.

Lemma pool_query_select_configuracion_frame v w :
  snd (pool_query (select_configuracion v) w)
  = sent w (committed w) (pending w) (seqs w).
Proof. apply pool_query_select_frame. Qed.

Lemma pool_query_select_seats_via_lugar_frame v w :
  snd (pool_query (select_seats_via_lugar v) w)
  = sent w (committed w) (pending w) (seqs w).
Proof. apply pool_query_select_frame. Qed.

(** X1.  Whatever the event identifier and whatever the connection does, the
    GET handler leaves the committed tables, the open transaction and the
    sequences as they were, in at most three statements. *)
Theorem get_layout_reads_only :
  forall eventoID w,
    committed (snd (get_layout eventoID w)) = committed w
    /\ pending (snd (get_layout eventoID w)) = pending w
    /\ seqs (snd (get_layout eventoID w)) = seqs w
    /\ (issued w < issued (snd (get_layout eventoID w)) <= issued w + 3)%nat.
Proof.
  intros eventoID w. unfold get_layout, try_catch, bind.
  pose proof (pool_query_select_evento_frame (VStr eventoID) w) as H1.
  destruct (pool_query (select_evento (VStr eventoID)) w) as [[rows | e] w1];
    simpl in H1; subst w1.
  2:{ simpl. repeat split; lia. }
  destruct rows as [| ev rest].
  { simpl. repeat split; lia. }
  match goal with
  | |- context [pool_query (select_configuracion ?v) ?w1] =>
      pose proof (pool_query_select_configuracion_frame v w1) as H2;
      destruct (pool_query (select_configuracion v) w1) as [[cfgs | e] w2];
      simpl in H2; subst w2
  end.
  2:{ simpl. repeat split; lia. }
  match goal with
  | |- context [pool_query (select_seats_via_lugar ?v) ?w2] =>
      pose proof (pool_query_select_seats_via_lugar_frame v w2) as H3;
      destruct (pool_query (select_seats_via_lugar v) w2) as [[sts | e] w3];
      simpl in H3; subst w3
  end; simpl; repeat split; lia.
Qed.

(** *** Answers that stop before the transaction *)

Lemma put_layout_transaction_failure ev eventoID config items w s m w' :
  put_layout_transaction ev eventoID config items w = (Val (Failure s m), w') ->
  s = 500.
Proof.
  unfold put_layout_transaction. intros H.
  apply bind_val_inv in H. destruct H as [? [w1 [_ H]]].
  destruct (Evento.lugarID ev).
  - apply bind_val_inv in H. destruct H as [? [w2 [_ H]]].
    apply bind_val_inv in H. destruct H as [? [w3 [_ H]]].
    unfold final_response in H.
    apply bind_val_inv in H. destruct H as [? [w4 [_ H]]].
    apply bind_val_inv in H. destruct H as [? [w5 [_ H]]].
    discriminate.
  - apply bind_val_inv in H. destruct H as [? [w2 [_ H]]].
    inversion H. reflexivity.
Qed.

(** X2.  When the PUT handler answers 404 or 400, it has sent the lookup of
    the event and nothing else: tables, transaction and sequences are
    untouched. *)
Theorem put_layout_client_error_touches_nothing :
  forall eventoID configuracionCroquis asientos w status message w',
    put_layout eventoID configuracionCroquis asientos w
    = (Val (Failure status message), w') ->
    status <> 500 ->
    w' = sent w (committed w) (pending w) (seqs w)
    /\ (status = 404 \/ status = 400).
Proof.
  intros eventoID config asientos w s m w' H Hs. unfold put_layout in H.
  apply try_catch_val_inv in H. destruct H as [H | [e [w1 [_ H]]]].
  2:{ inversion H. congruence. }
  apply bind_val_inv in H. destruct H as [rows [w0 [Hq H]]].
  assert (Hw0 : w0 = sent w (committed w) (pending w) (seqs w)).
  { pose proof (pool_query_select_evento_frame (VStr eventoID) w) as F.
    rewrite Hq in F. exact F. }
  destruct rows as [| ev rest].
  { inversion H; subst. auto. }
  destruct (andb _ _).
  { inversion H; subst. auto. }
  destruct asientos; try (inversion H; subst; auto; fail).
  apply try_catch_val_inv in H. destruct H as [H | [e [w1 [_ H]]]].
  - apply put_layout_transaction_failure in H. congruence.
  - apply bind_val_inv in H. destruct H as [? [w2 [_ H]]]. inversion H. congruence.
Qed.

(** *** What a reconciliation never does *)

Lemma grows_refl d : grows d d.
Proof.
  split; [| split; [| split]]; auto; exists []; rewrite app_nil_r; reflexivity.
Qed.

Lemma grows_trans a b c : grows a b -> grows b c -> grows a c.
Proof.
  intros [L1 [E1 [[x1 A1] [y1 S1]]]] [L2 [E2 [[x2 A2] [y2 S2]]]].
  split; [congruence |]. split; [congruence |]. split.
  - exists (x1 ++ x2)%list. rewrite A2, A1, app_assoc. reflexivity.
  - exists (y1 ++ y2)%list. rewrite S2, S1, app_assoc. reflexivity.
Qed.

Lemma grows_same d d' :
  tbl_Lugar d' = tbl_Lugar d -> tbl_Evento d' = tbl_Evento d ->
  tbl_Area d' = tbl_Area d -> tbl_Asiento d' = tbl_Asiento d -> grows d d'.
Proof.
  intros L E A S. split; [exact L |]. split; [exact E |].
  split; exists []; rewrite app_nil_r; congruence.
Qed.

Lemma insert_area_grows n c t l : stmt_keeps grows (insert_area n c t l).
Proof.
  intros d q row d' q' H. apply insert_area_inv in H.
  destruct H as [nm [cp [tp [_ [_ [_ [_ ->]]]]]]].
  split; [reflexivity |]. split; [reflexivity |]. split.
  - exists [row]. reflexivity.
  - exists []. rewrite app_nil_r. reflexivity.
Qed.

Lemma update_croquis_grows c e : stmt_keeps grows (update_croquis c e).
Proof.
  unfold update_croquis. do 2 (apply with_param_keeps; intros ? _).
  intros d q a d' q' H. inversion H; subst. apply grows_same; reflexivity.
Qed.

Lemma insert_croquis_grows e c : stmt_keeps grows (insert_croquis e c).
Proof.
  unfold insert_croquis. do 2 (apply with_param_keeps; intros ? _).
  intros d q a d' q' H. run_stmt H. apply grows_same; reflexivity.
Qed.

Lemma insert_asiento_grows co fi cl es ar : stmt_keeps grows (insert_asiento co fi cl es ar).
Proof.
  intros d q row d' q' H. apply insert_asiento_inv in H.
  destruct H as [_ [_ [_ [_ [_ ->]]]]].
  split; [reflexivity |]. split; [reflexivity |]. split.
  - exists []. rewrite app_nil_r. reflexivity.
  - exists [seat_core row]. simpl. rewrite map_app. reflexivity.
Qed.

Lemma update_asiento_estado_grows es id : stmt_keeps grows (update_asiento_estado es id).
Proof.
  unfold update_asiento_estado. do 2 (apply with_param_keeps; intros ? _).
  intros d q a d' q' H. inversion H; subst.
  split; [reflexivity |]. split; [reflexivity |]. split.
  - exists []. rewrite app_nil_r. reflexivity.
  - exists []. rewrite app_nil_r. simpl. rewrite map_map. apply map_ext.
    intros r. destruct (eqb_opt _ _); reflexivity.
Qed.

(** X3.  Whatever the request and its outcome, the PUT handler removes no
    Area row and no Seat row and rewrites none but the state of a seat: the
    Area table only gets rows appended, every seat of before is still there
    with its identifier, code, row, column and area, and venues and events
    are as they were. *)
Theorem put_layout_only_adds :
  forall eventoID configuracionCroquis asientos w,
    pending w = None ->
    grows (committed w)
          (committed (snd (put_layout eventoID configuracionCroquis asientos w))).
Proof.
  intros eventoID config asientos w Hp.
  apply (evolves_at_rest grows); [exact Hp |].
  apply (put_layout_writes _ grows_refl grows_trans);
    auto using insert_area_grows, update_croquis_grows, insert_croquis_grows,
      insert_asiento_grows, update_asiento_estado_grows.
Qed.

Lemma same_other_layouts_refl eid d : same_other_layouts eid d d.
Proof. reflexivity. Qed.

Lemma same_other_layouts_trans eid a b c :
  same_other_layouts eid a b -> same_other_layouts eid b c -> same_other_layouts eid a c.
Proof. unfold same_other_layouts. congruence. Qed.

Lemma same_croquis_refl d : same_croquis d d.
Proof. reflexivity. Qed.

Lemma same_croquis_trans a b c : same_croquis a b -> same_croquis b c -> same_croquis a c.
Proof. unfold same_croquis. congruence. Qed.

Lemma insert_area_same_croquis n c t l : stmt_keeps same_croquis (insert_area n c t l).
Proof.
  intros d q row d' q' H. apply insert_area_inv in H.
  destruct H as [nm [cp [tp [_ [_ [_ [_ ->]]]]]]]. reflexivity.
Qed.

Lemma insert_asiento_same_croquis co fi cl es ar :
  stmt_keeps same_croquis (insert_asiento co fi cl es ar).
Proof.
  intros d q row d' q' H. apply insert_asiento_inv in H.
  destruct H as [_ [_ [_ [_ [_ ->]]]]]. reflexivity.
Qed.

Lemma update_asiento_estado_same_croquis es id :
  stmt_keeps same_croquis (update_asiento_estado es id).
Proof.
  unfold update_asiento_estado. do 2 (apply with_param_keeps; intros ? _).
  intros d q a d' q' H. inversion H; subst. reflexivity.
Qed.

Lemma same_croquis_other eid d d' : same_croquis d d' -> same_other_layouts eid d d'.
Proof. unfold same_croquis, same_other_layouts, other_layouts. intros ->. reflexivity. Qed.

Lemma stmt_keeps_weaken (Q Q' : database -> database -> Prop) {A} (s : stmt A) :
  (forall d d', Q d d' -> Q' d d') -> stmt_keeps Q s -> stmt_keeps Q' s.
Proof. intros HQ Hs d q a d' q' H. eauto. Qed.

Lemma upsert_croquis_other_layouts eventoID eid config :
  pg_int4 (VStr eventoID) = Val (Some eid) ->
  preserves (evolves (same_other_layouts eid)) (upsert_croquis eventoID config).
Proof.
  intros He.
  pose proof (same_other_layouts_refl eid) as Qr.
  pose proof (same_other_layouts_trans eid) as Qt.
  unfold upsert_croquis.
  apply (preserves_bind _ (evolves_trans _ Qt));
    [apply (client_query_evolves _ Qr Qt), select_croquis_id_keeps, Qr |].
  intros rows. destruct (is_undefined config);
    [apply preserves_ret, (evolves_refl _ Qr) |].
  destruct rows; apply (client_query_evolves _ Qr Qt).
  - unfold insert_croquis. rewrite He. simpl.
    apply with_param_keeps. intros ev Hev. injection Hev as <-.
    apply with_param_keeps. intros c _. intros d q a d' q' H. run_stmt H.
    unfold same_other_layouts, other_layouts, with_Croquis. cbn [tbl_Croquis].
    rewrite filter_app. cbn [filter Croquis.eventoID eqb_opt].
    rewrite Z.eqb_refl. simpl. apply app_nil_r.
  - unfold update_croquis. apply with_param_keeps. intros c _. rewrite He.
    intros d q a d' q' H. inversion H; subst.
    unfold same_other_layouts, other_layouts. simpl. apply other_layouts_updated.
Qed.

(** X4.  A reconciliation for event [eid] leaves the layout documents of all
    other events as they were, whatever the request and its outcome; and
    when the request carries no [configuracionCroquis] no layout document is
    touched at all. *)
Theorem put_layout_touches_own_layout_only :
  forall eventoID eid configuracionCroquis asientos w,
    pending w = None ->
    pg_int4 (VStr eventoID) = Val (Some eid) ->
    other_layouts (committed (snd (put_layout eventoID configuracionCroquis asientos w))) eid
    = other_layouts (committed w) eid
    /\ (configuracionCroquis = VUndef ->
        tbl_Croquis (committed (snd (put_layout eventoID configuracionCroquis asientos w)))
        = tbl_Croquis (committed w)).
Proof.
  intros eventoID eid config asientos w Hp He. split.
  - apply (evolves_at_rest (same_other_layouts eid)); [exact Hp |].
    pose proof (same_other_layouts_refl eid) as Qr.
    pose proof (same_other_layouts_trans eid) as Qt.
    apply (put_layout_evolves _ Qr Qt). intros lugar. unfold reconcile.
    apply (preserves_bind _ (evolves_trans _ Qt)).
    + apply (remap_layout_writes _ Qr Qt). intros.
      eapply stmt_keeps_weaken; [apply same_croquis_other | apply insert_area_same_croquis].
    + intros r. apply (preserves_bind _ (evolves_trans _ Qt));
        [apply upsert_croquis_other_layouts, He |].
      intros _. apply (process_seats_writes _ Qr Qt); intros;
        (eapply stmt_keeps_weaken; [apply same_croquis_other |]);
        auto using insert_asiento_same_croquis, update_asiento_estado_same_croquis.
  - intros ->.
    apply (evolves_at_rest same_croquis); [exact Hp |].
    apply (put_layout_evolves _ same_croquis_refl same_croquis_trans).
    intros lugar. unfold reconcile.
    unfold remap_layout. cbn [truthy].
    apply (preserves_bind_post _ same_croquis_trans (fun r => fst r = VUndef)).
    + apply preserves_ret, (evolves_refl _ same_croquis_refl).
    + intros w0 r w1 H. apply ret_inv in H. destruct H as [H _].
      injection H as ->. reflexivity.
    + intros r Hr. rewrite Hr.
      apply (preserves_bind _ (evolves_trans _ same_croquis_trans)).
      * unfold upsert_croquis.
        apply (preserves_bind _ (evolves_trans _ same_croquis_trans));
          [apply (client_query_evolves _ same_croquis_refl same_croquis_trans),
             select_croquis_id_keeps, same_croquis_refl |].
        intros rows. apply preserves_ret, (evolves_refl _ same_croquis_refl).
      * intros _.
        apply (process_seats_writes _ same_croquis_refl same_croquis_trans);
          auto using insert_asiento_same_croquis, update_asiento_estado_same_croquis.
Qed.
(** *** The deletion of an area *)

Lemma client_query_keeps_transaction {A} (s : stmt A) w o w' :
  client_query s w = (o, w') -> pending w <> None ->
  committed w' = committed w /\ pending w' <> None.
Proof.
  intros H Hp. pose proof (client_query_in_transaction s w Hp) as I.
  rewrite H in I. exact I.
Qed.

(** X5.  When the DELETE handler answers 400 or 404 no committed table has
    changed: a 400 is decided before anything is sent, a 404 comes after a
    ROLLBACK that went through. *)
Theorem delete_area_client_error_touches_nothing :
  forall eventoID areaID w status message w',
    delete_area_route eventoID areaID w = (Val (Failure status message), w') ->
    status <> 500 ->
    committed w' = committed w
    /\ ((status = 400 /\ w' = w) \/ (status = 404 /\ pending w' = None)).
Proof.
  intros eventoID areaID w s m w' H Hs. unfold delete_area_route in H.
  destruct (orb _ _).
  { inversion H; subst. auto. }
  apply try_catch_val_inv in H. destruct H as [H | [e [w1 [_ H]]]].
  2:{ apply bind_val_inv in H. destruct H as [? [w2 [_ H]]]. inversion H. congruence. }
  apply bind_val_inv in H. destruct H as [[] [w1 [Hb H]]].
  apply client_begin_ok in Hb. destruct Hb as [C1 P1].
  apply bind_val_inv in H. destruct H as [eventCheck [w2 [Hq H]]].
  destruct (client_query_keeps_transaction _ _ _ _ Hq P1) as [C2 P2].
  assert (Hend : forall msg wa,
             committed wa = committed w ->
             (client_rollback ;;; ret (Failure 404 msg)) wa = (Val (Failure s m), w') ->
             committed w' = committed w
             /\ ((s = 400 /\ w' = w) \/ (s = 404 /\ pending w' = None))).
  { intros msg wa Ca Hr. apply bind_val_inv in Hr. destruct Hr as [[] [wb [Hr Hret]]].
    inversion Hret; subst.
    pose proof (client_rollback_committed _ _ _ Hr) as Cb.
    unfold client_rollback in Hr. destruct (faulty wa (issued wa)); [discriminate |].
    inversion Hr; subst. simpl. split; [congruence | auto]. }
  destruct eventCheck as [| ev evs].
  { eapply Hend; [| exact H]. congruence. }
  apply bind_val_inv in H. destruct H as [areaCheck [w3 [Hq3 H]]].
  destruct (client_query_keeps_transaction _ _ _ _ Hq3 P2) as [C3 P3].
  destruct areaCheck as [| ar ars].
  { eapply Hend; [| exact H]. congruence. }
  apply bind_val_inv in H. destruct H as [n [w4 [Hq4 H]]].
  destruct (client_query_keeps_transaction _ _ _ _ Hq4 P3) as [C4 P4].
  destruct n as [| n].
  { eapply Hend; [| exact H]. congruence. }
  apply bind_val_inv in H. destruct H as [? [w5 [_ H]]].
  apply bind_val_inv in H. destruct H as [? [w6 [_ H]]].
  unfold delete_area_final in H.
  apply bind_val_inv in H. destruct H as [? [w7 [_ H]]].
  apply bind_val_inv in H. destruct H as [? [w8 [_ H]]].
  discriminate.
Qed.

Lemma select_area_of_event_none d aid eid :
  ~ area_of_event d aid eid ->
  flat_map (fun ar =>
    flat_map (fun l =>
      flat_map (fun e =>
        if andb (Area.lugarID ar =? l)
                (andb (eqb_opt2 l (Evento.lugarID e))
                      (andb (eqb_opt (Some aid) (Area.areaID ar))
                            (eqb_opt (Some eid) (Evento.eventoID e))))
        then [ar] else [])
        (tbl_Evento d))
      (tbl_Lugar d))
    (tbl_Area d) = [].
Proof.
  intros Hn.
  match goal with |- ?l = [] => destruct l as [| x r] eqn:E end; [reflexivity |].
  exfalso. apply Hn.
  assert (Hin : In x (x :: r)) by (left; reflexivity).
  rewrite <- E in Hin.
  apply in_flat_map in Hin. destruct Hin as [ar [Har Hin]].
  apply in_flat_map in Hin. destruct Hin as [l [Hl Hin]].
  apply in_flat_map in Hin. destruct Hin as [e [He Hin]].
  destruct (andb _ _) eqn:Hc; [| destruct Hin].
  apply andb_prop in Hc. destruct Hc as [H1 Hc].
  apply andb_prop in Hc. destruct Hc as [H2 Hc].
  apply andb_prop in Hc. destruct Hc as [H3 H4].
  apply Z.eqb_eq in H1. simpl in H3, H4. apply Z.eqb_eq in H3, H4.
  unfold eqb_opt2 in H2. destruct (Evento.lugarID e) as [y |] eqn:Ey; [| discriminate].
  apply Z.eqb_eq in H2. subst.
  exists ar, e. repeat split; auto. 
Qed.

(** X6.  An area that does not lie in the venue of the event cannot be
    deleted through that event: on a connection that does not fail the
    handler answers 404 and no committed table changes, even when the area
    exists under another venue. *)
Theorem delete_area_of_another_venue_is_refused :
  forall eventoID areaID eid aid w,
    pending w = None ->
    (forall n, faulty w n = false) ->
    invalid_id eventoID = false ->
    invalid_id areaID = false ->
    pg_int4 (VStr eventoID) = Val (Some eid) ->
    pg_int4 (VStr areaID) = Val (Some aid) ->
    ~ area_of_event (committed w) aid eid ->
    exists message w',
      delete_area_route eventoID areaID w = (Val (Failure 404 message), w')
      /\ committed w' = committed w
      /\ pending w' = None.
Proof.
  intros eventoID areaID eid aid w Hp Hf Hve Hva He Ha Hn.
  unfold delete_area_route. rewrite Hve, Hva. cbn [orb].
  unfold try_catch, bind at 1, client_begin. rewrite Hf, Hp.
  unfold bind at 1, select_evento.
  rewrite (client_query_select_run _ _ (Some eid) _ (committed w))
    by first [apply Hf | reflexivity | assumption].
  destruct (filter _ (tbl_Evento (committed w))) as [| e0 er].
  { unfold bind, client_rollback, ret. cbn [faulty issued sent]. rewrite Hf.
    do 2 eexists. split; [reflexivity |]. split; reflexivity. }
  unfold bind at 1, select_area_of_event, client_query at 1, with_param, select.
  cbn [faulty issued pending seqs committed sent]. rewrite Hf, Ha, He.
  rewrite (select_area_of_event_none _ _ _ Hn).
  unfold bind, client_rollback, ret. cbn [faulty issued sent]. rewrite Hf.
  do 2 eexists. split; [reflexivity |]. split; reflexivity.
Qed.

Section DeleteWrites.
Variable Q : database -> database -> Prop.
Hypothesis Q_refl : forall d, Q d d.
Hypothesis Q_trans : forall a b c, Q a b -> Q b c -> Q a c.
Variables eventoID areaID : string.
Hypothesis Q_delete_area : stmt_keeps Q (delete_area (VStr areaID)).
Hypothesis Q_update_croquis : forall c, stmt_keeps Q (update_croquis c (VStr eventoID)).

Let Er := evolves_refl _ Q_refl.
Let Et := evolves_trans _ Q_trans.

Lemma rollback_and_answer_evolves (r : response) :
  preserves (evolves Q) (client_rollback ;;; ret r).
Proof.
  apply (preserves_bind _ Et); [apply (client_rollback_evolves _ Q_refl) |].
  intros _. apply preserves_ret, Er.
Qed.

Lemma prune_croquis_evolves : preserves (evolves Q) (prune_croquis eventoID areaID).
Proof.
  unfold prune_croquis.
  apply (preserves_bind _ Et).
  { apply (client_query_evolves _ Q_refl Q_trans). unfold select_croquis.
    apply with_param_keeps. intros. apply select_keeps, Q_refl. }
  intros [| row rest]; [apply preserves_ret, Er |].
  destruct (truthy _); [| apply preserves_ret, Er].
  apply (preserves_bind _ Et); [apply preserves_lift, Er |].
  intros tables. destruct tables; try apply preserves_ret, Er.
  apply (preserves_bind _ Et); [apply preserves_lift, Er |].
  intros kept. apply (preserves_bind _ Et); [apply preserves_lift, Er |].
  intros c. apply (client_query_evolves _ Q_refl Q_trans), Q_update_croquis.
Qed.

Lemma delete_area_route_evolves :
  preserves (evolves Q) (delete_area_route eventoID areaID).
Proof.
  unfold delete_area_route. destruct (orb _ _); [apply preserves_ret, Er |].
  apply (preserves_try_catch _ Et); [| intros e; apply rollback_and_answer_evolves].
  apply (preserves_bind _ Et); [apply (client_begin_evolves _ Q_refl) |].
  intros _. apply (preserves_bind _ Et).
  { apply (client_query_evolves _ Q_refl Q_trans), select_evento_keeps, Q_refl. }
  intros [| ev evs]; [apply rollback_and_answer_evolves |].
  apply (preserves_bind _ Et).
  { apply (client_query_evolves _ Q_refl Q_trans). unfold select_area_of_event.
    do 2 (apply with_param_keeps; intros). apply select_keeps, Q_refl. }
  intros [| ar ars]; [apply rollback_and_answer_evolves |].
  apply (preserves_bind _ Et);
    [apply (client_query_evolves _ Q_refl Q_trans), Q_delete_area |].
  intros [| n]; [apply rollback_and_answer_evolves |].
  apply (preserves_bind _ Et); [apply prune_croquis_evolves |].
  intros _. apply (preserves_bind _ Et); [apply (client_commit_evolves _ Q_refl) |].
  intros _. unfold delete_area_final.
  apply (preserves_bind _ Et);
    [apply (client_query_evolves _ Q_refl Q_trans), select_configuracion_keeps, Q_refl |].
  intros c. apply (preserves_bind _ Et);
    [apply (client_query_evolves _ Q_refl Q_trans), select_seats_keeps, Q_refl |].
  intros r. apply preserves_ret, Er.
Qed.
End DeleteWrites.

Lemma filter_idem {A} (f : A -> bool) l : filter f (filter f l) = filter f l.
Proof.
  induction l as [| x l IH]; simpl; [reflexivity |].
  destruct (f x) eqn:E; simpl; [rewrite E, IH |]; auto.
Qed.

Lemma deletes_only_refl aid eid d : deletes_only aid eid d d.
Proof. split; [| split; [| split]]; auto. Qed.

Lemma deletes_only_trans aid eid a b c :
  deletes_only aid eid a b -> deletes_only aid eid b c -> deletes_only aid eid a c.
Proof.
  intros [L1 [E1 [O1 H1]]] [L2 [E2 [O2 H2]]].
  split; [congruence |]. split; [congruence |]. split; [congruence |].
  destruct H1 as [[A1 S1] | [A1 S1]], H2 as [[A2 S2] | [A2 S2]];
    rewrite A2, S2, A1, S1; rewrite ?filter_idem; auto.
Qed.

Lemma filter_none_negb {A} (f : A -> bool) l :
  filter f l = [] -> filter (fun x => negb (f x)) l = l.
Proof.
  induction l as [| x l IH]; simpl; [reflexivity |].
  destruct (f x); [discriminate |]. intros H. simpl. rewrite IH; auto.
Qed.

Lemma filter_all {A} (l : list A) : filter (fun _ => true) l = l.
Proof. induction l as [| x l IH]; simpl; [| rewrite IH]; reflexivity. Qed.

Lemma delete_area_deletes_only areaID aid eid :
  pg_int4 (VStr areaID) = Val (Some aid) ->
  stmt_keeps (deletes_only aid eid) (delete_area (VStr areaID)).
Proof.
  intros Ha. unfold delete_area. rewrite Ha.
  apply with_param_keeps. intros p Hp. injection Hp as <-.
  intros d q n d' q' H. inversion H; subst. clear H.
  split; [reflexivity |]. split; [reflexivity |]. split; [reflexivity |].
  cbn [tbl_Area tbl_Asiento with_Area with_Asiento eqb_opt].
  destruct (filter (fun ar => aid =? Area.areaID ar) (tbl_Area d))
    as [| g gs] eqn:Eg.
  - left. split.
    + apply filter_none_negb. exact Eg.
    + simpl. apply filter_all.
  - right. split.
    + apply filter_ext. intros x. simpl. rewrite Z.eqb_sym. reflexivity.
    + apply filter_ext. intros x.
      rewrite (deleted_rows aid); [reflexivity | discriminate |].
      rewrite <- Eg. apply Forall_forall. intros y Hy. apply filter_In in Hy.
      destruct Hy as [_ Hy]. apply Z.eqb_eq in Hy. auto.
Qed.

Lemma update_croquis_other_layouts eventoID eid c :
  pg_int4 (VStr eventoID) = Val (Some eid) ->
  stmt_keeps (same_other_layouts eid) (update_croquis c (VStr eventoID)).
Proof.
  intros He. unfold update_croquis. apply with_param_keeps. intros j _. rewrite He.
  intros d q a d' q' H. inversion H; subst.
  unfold same_other_layouts, other_layouts. simpl. apply other_layouts_updated.
Qed.

Lemma update_croquis_deletes_only eventoID aid eid c :
  pg_int4 (VStr eventoID) = Val (Some eid) ->
  stmt_keeps (deletes_only aid eid) (update_croquis c (VStr eventoID)).
Proof.
  intros He d q a d' q' H.
  pose proof (update_croquis_other_layouts eventoID eid c He d q a d' q' H) as Ho.
  pose proof (update_croquis_same_rows c (VStr eventoID) d q a d' q' H) as Hs.
  revert H. unfold update_croquis. unfold with_param.
  destruct (pg_json c); [| discriminate]. rewrite He. intros H. inversion H; subst.
  split; [reflexivity |]. split; [reflexivity |]. split; [exact Ho |].
  left. split; reflexivity.
Qed.

(** X7.  Whatever its outcome, a deletion request for area [aid] through
    event [eid] removes nothing else: venues, events and the layout documents
    of the other events are as before, and the Area and Seat tables are
    either both unchanged or have lost exactly the rows of that area, the
    rows of every other area being kept as they are and in their order. *)
Theorem delete_area_removes_nothing_else :
  forall eventoID areaID eid aid w,
    pending w = None ->
    pg_int4 (VStr eventoID) = Val (Some eid) ->
    pg_int4 (VStr areaID) = Val (Some aid) ->
    deletes_only aid eid (committed w)
                 (committed (snd (delete_area_route eventoID areaID w))).
Proof.
  intros eventoID areaID eid aid w Hp He Ha.
  apply (evolves_at_rest (deletes_only aid eid)); [exact Hp |].
  apply (delete_area_route_evolves _ (deletes_only_refl aid eid)
           (deletes_only_trans aid eid)).
  - apply delete_area_deletes_only, Ha.
  - intros c. apply update_croquis_deletes_only, He.
Qed.
(** *** What a successful reconciliation has stored *)

Section Tracks.
Variable Q : database -> database -> Prop.
Hypothesis Q_refl : forall d, Q d d.
Hypothesis Q_trans : forall a b c, Q a b -> Q b c -> Q a c.

Lemma tracks_refl w : tracks Q w w.
Proof. apply Q_refl. Qed.

Lemma tracks_trans a b c : tracks Q a b -> tracks Q b c -> tracks Q a c.
Proof. unfold tracks. eauto. Qed.

Lemma client_query_tracks {A} (s : stmt A) :
  stmt_keeps Q s -> preserves (tracks Q) (client_query s).
Proof.
  intros Hs w. unfold tracks.
  destruct (client_query s w) as [[a | e] w'] eqn:E; simpl.
  - apply client_query_val_inv in E. destruct E as [E _]. eapply Hs, E.
  - apply client_query_throw_inv in E. destruct E as [C P].
    rewrite (current_same _ _ C P). apply Q_refl.
Qed.

Hypothesis Q_insert_asiento :
  forall co fi cl es ar, stmt_keeps Q (insert_asiento co fi cl es ar).
Hypothesis Q_update_asiento :
  forall es id, stmt_keeps Q (update_asiento_estado es id).

Lemma process_seat_tracks lugar asiento :
  preserves (tracks Q) (process_seat lugar asiento).
Proof.
  unfold process_seat.
  apply (preserves_bind _ tracks_trans); [apply preserves_lift, tracks_refl |].
  intros [|].
  - apply (preserves_bind _ tracks_trans); [apply preserves_lift, tracks_refl |].
    intros areaID.
    apply (preserves_bind _ tracks_trans); [apply preserves_lift, tracks_refl |]. intros [|].
    { repeat (apply (preserves_bind _ tracks_trans); [apply preserves_lift, tracks_refl | intros ?]).
      apply preserves_ret, tracks_refl. }
    do 5 (apply (preserves_bind _ tracks_trans);
          [apply preserves_lift, tracks_refl | intros ?]).
    apply (preserves_bind _ tracks_trans);
      [| intros ?; apply preserves_ret, tracks_refl].
    apply client_query_tracks, Q_insert_asiento.
  - apply (preserves_bind _ tracks_trans); [apply preserves_lift, tracks_refl |].
    intros id.
    apply (preserves_bind _ tracks_trans).
    { apply client_query_tracks, select_asiento_in_lugar_keeps, Q_refl. }
    intros [| x rows];
      [apply (preserves_bind _ tracks_trans);
         [apply preserves_lift, tracks_refl | intros ?; apply preserves_ret, tracks_refl] |].
    do 2 (apply (preserves_bind _ tracks_trans);
          [apply preserves_lift, tracks_refl | intros ?]).
    apply client_query_tracks, Q_update_asiento.
Qed.

Lemma process_seats_tracks lugar asientos :
  preserves (tracks Q) (process_seats lugar asientos).
Proof.
  apply (preserves_process_list _ tracks_refl tracks_trans (fun _ => True)
           (process_seat lugar)).
  - intros [| x r]; reflexivity.
  - intros x _. apply process_seat_tracks.
  - apply Forall_forall. trivial.
Qed.
End Tracks.

(** A successful PUT has run steps 2 to 4 on the tables it found and
    committed the tables they left. *)
Lemma put_layout_success_reconciled eventoID config asientos w s layoutConfig seats w' :
  put_layout eventoID config asientos w = (Val (Layout s layoutConfig seats), w') ->
  pending w = None ->
  exists ev lugar items props w1 w2,
    In ev (tbl_Evento (committed w))
    /\ pg_int4 (VStr eventoID) = Val (Some (Evento.eventoID ev))
    /\ Evento.lugarID ev = Some lugar
    /\ asientos = VArr items props
    /\ current w1 = committed w
    /\ reconcile lugar eventoID config items w1 = (Val tt, w2)
    /\ committed w' = current w2.
Proof.
  unfold put_layout. intros H Hp.
  apply try_catch_val_inv in H. destruct H as [H | [e [w1 [_ H]]]]; [| discriminate].
  apply bind_val_inv in H. destruct H as [rows [w0 [Hq H]]].
  pose proof (pool_query_select_evento_frame (VStr eventoID) w) as Hw0.
  rewrite Hq in Hw0. simpl in Hw0.
  apply pool_query_select_inv in Hq. destruct Hq as [id [Hid Hrows]].
  destruct rows as [| ev rest]; [discriminate |].
  destruct (andb _ _); [discriminate |].
  destruct asientos as [| | | | | items props |]; try discriminate.
  apply try_catch_val_inv in H. destruct H as [H | [e [w1 [_ H]]]].
  2:{ apply bind_val_inv in H. destruct H as [? [? [_ H]]]; discriminate. }
  unfold put_layout_transaction in H.
  apply bind_val_inv in H. destruct H as [[] [w1 [Hb H]]].
  destruct (Evento.lugarID ev) as [lugar |] eqn:El.
  2:{ apply bind_val_inv in H. destruct H as [? [? [_ H]]]; discriminate. }
  apply bind_val_inv in H. destruct H as [[] [w2 [Hr H]]].
  apply bind_val_inv in H. destruct H as [[] [w3 [Hc H]]].
  apply client_commit_ok in Hc. destruct Hc as [Hc3 [Hp3 _]].
  unfold final_response in H.
  apply bind_val_inv in H. destruct H as [cfgs [w4 [H4 H]]].
  apply bind_val_inv in H. destruct H as [sts [w5 [H5 H]]].
  apply (client_query_select_at_rest _ _ _ _ _ Hp3) in H4.
  destruct H4 as [_ [Hc4 [Hp4 _]]].
  apply (client_query_select_at_rest _ _ _ _ _ Hp4) in H5.
  destruct H5 as [_ [Hc5 _]].
  inversion H; subst w'.
  assert (Hin : In ev (filter (fun e => eqb_opt id (Evento.eventoID e))
                              (tbl_Evento (committed w)))).
  { rewrite <- Hrows. left. reflexivity. }
  apply filter_In in Hin. destruct Hin as [Hin Hev].
  destruct id as [eid |]; [| discriminate]. simpl in Hev. apply Z.eqb_eq in Hev.
  exists ev, lugar, items, props, w1, w2.
  split; [exact Hin |]. split; [congruence |]. split; [exact El |].
  split; [reflexivity |]. split; [| split; [exact Hr | congruence]].
  subst w0. unfold client_begin in Hb. cbn [faulty issued pending committed sent] in Hb.
  rewrite Hp in Hb. destruct (faulty w (S (issued w))); [discriminate |].
  inversion Hb. reflexivity.
Qed.
Lemma create_area_stored lugar table asientos w r w' :
  create_area lugar table asientos w = (Val r, w') ->
  forall k, k <> "areaid" -> k <> "id" -> get_prop (fst r) k = get_prop table k.
Proof.
  intros H k K1 K2. apply String.eqb_neq in K1, K2. unfold create_area in H.
  apply bind_val_inv in H. destruct H as [tmp [w1 [_ H]]].
  apply bind_val_inv in H. destruct H as [? [? [_ H]]].
  apply bind_val_inv in H. destruct H as [? [? [_ H]]].
  apply bind_val_inv in H. destruct H as [nm [w2 [_ H]]].
  apply bind_val_inv in H. destruct H as [cp [w3 [_ H]]].
  apply bind_val_inv in H. destruct H as [tp [w4 [_ H]]].
  apply bind_val_inv in H. destruct H as [row [w5 [_ H]]].
  apply bind_val_inv in H. destruct H as [t1 [w6 [H6 H]]].
  apply lift_inv in H6. destruct H6 as [H6 _].
  apply bind_val_inv in H. destruct H as [t2 [w7 [H7 H]]].
  apply lift_inv in H7. destruct H7 as [H7 _].
  apply bind_val_inv in H. destruct H as [as' [w8 [_ H]]].
  apply ret_inv in H. destruct H as [H _]. inversion H; subst. simpl.
  symmetry in H6, H7.
  rewrite (get_set_other _ _ _ _ _ H7 K2). apply (get_set_other _ _ _ _ _ H6 K1).
Qed.

Lemma remap_tables_stored lugar tables :
  forall asientos w r w',
    remap_tables lugar tables asientos w = (Val r, w') ->
    Forall2 entry_stored tables (fst r).
Proof.
  induction tables as [| table rest IH]; intros asientos w r w' H; simpl in H.
  - inversion H; subst. constructor.
  - apply bind_val_inv in H. destruct H as [flag [w0 [Hf H]]].
    apply lift_inv in Hf. destruct Hf as [Hf ->]. symmetry in Hf. destruct flag.
    + apply bind_val_inv in H. destruct H as [r1 [w1 [H1 H]]].
      apply bind_val_inv in H. destruct H as [r2 [w2 [H2 H]]].
      inversion H; subst. simpl. constructor; [| eapply IH; eauto].
      split; [congruence |]. eapply create_area_stored; eauto.
    + apply bind_val_inv in H. destruct H as [r2 [w2 [H2 H]]].
      inversion H; subst. simpl. constructor; [| eapply IH; eauto].
      split; auto.
Qed.

Lemma remap_layout_stored lugar ps asientos w r w' :
  remap_layout lugar (VObj ps) asientos w = (Val r, w') ->
  document_stored (VObj ps) (fst r) /\ exists ps', fst r = VObj ps'.
Proof.
  unfold remap_layout. cbn [truthy]. intros H.
  apply bind_val_inv in H. destruct H as [tables [w1 [Ht H]]].
  apply lift_inv in Ht. destruct Ht as [Ht ->]. simpl in Ht. inversion Ht; subst tables.
  unfold document_stored. cbn [get_prop].
  destruct (lookup "tables" ps) as [| | | | | items props |] eqn:El;
    try (inversion H; subst; simpl; rewrite ?El; split; [split |]; eauto; fail).
  apply bind_val_inv in H. destruct H as [r1 [w2 [H1 H]]].
  apply bind_val_inv in H. destruct H as [c' [w3 [H2 H]]].
  apply lift_inv in H2. destruct H2 as [H2 ->]. simpl in H2. inversion H2; subst c'.
  inversion H; subst. simpl. split; [split |]; eauto.
  - intros k Hk. apply String.eqb_neq in Hk. rewrite lookup_assign_other; auto.
  - exists (fst r1). rewrite lookup_assign_same. split; [reflexivity |].
    eapply remap_tables_stored; eauto.
Qed.
Lemma layout_of_inserted eid c id l :
  filter (fun r => eqb_opt (Some eid) (Croquis.eventoID r)) l = [] ->
  match filter (fun r => eqb_opt (Some eid) (Croquis.eventoID r))
               (l ++ [{| Croquis.croquisID := id; Croquis.eventoID := eid;
                         Croquis.configuracion := c |}]) with
  | r :: _ => Some (Croquis.configuracion r)
  | [] => None
  end = Some c.
Proof.
  intros E. rewrite filter_app, E. cbn [filter Croquis.eventoID eqb_opt app].
  rewrite Z.eqb_refl. reflexivity.
Qed.

Lemma upsert_croquis_stored eventoID eid ps w w' :
  pg_int4 (VStr eventoID) = Val (Some eid) ->
  upsert_croquis eventoID (VObj ps) w = (Val tt, w') ->
  layout_of (current w') eid = Some (VObj ps)
  /\ tbl_Area (current w') = tbl_Area (current w).
Proof.
  intros He H. unfold upsert_croquis in H.
  apply bind_val_inv in H. destruct H as [rows [w1 [Hq H]]].
  apply client_query_val_inv in Hq. destruct Hq as [Hq _].
  unfold select_croquis_id, with_param, select in Hq. rewrite He in Hq.
  inversion Hq as [[Hrows Hcur Hseq]]. clear Hq.
  cbn [is_undefined] in H.
  destruct rows as [| x rows].
  - apply client_query_val_inv in H. destruct H as [H _].
    unfold insert_croquis, with_param in H. rewrite He in H. cbn [obind not_null pg_json] in H.
    destruct (mem_Z eid _); [discriminate |].
    destruct (negb _); [discriminate |].
    destruct (mem_Z _ _); [discriminate |].
    inversion H as [[Hd Hs]]. rewrite Hcur. split; [| reflexivity].
    unfold layout_of, with_Croquis. cbn [tbl_Croquis].
    apply layout_of_inserted.
    rewrite <- Hcur. cbn [eqb_opt].
    destruct (filter _ (tbl_Croquis (current w))); [reflexivity | discriminate].
  - apply client_query_val_inv in H. destruct H as [H _].
    unfold update_croquis, with_param in H. rewrite He in H. cbn [pg_json] in H.
    inversion H as [[Hd Hs]]. rewrite Hcur. split; [| reflexivity].
    unfold layout_of, with_Croquis. cbn [tbl_Croquis].
    rewrite layout_of_updated. rewrite <- Hcur. cbn [eqb_opt].
    destruct (filter _ (tbl_Croquis (current w))); [discriminate | reflexivity].
Qed.

Lemma same_areas_and_croquis_refl d : same_areas_and_croquis d d.
Proof. split; reflexivity. Qed.

Lemma same_areas_and_croquis_trans a b c :
  same_areas_and_croquis a b -> same_areas_and_croquis b c ->
  same_areas_and_croquis a c.
Proof. intros [A1 C1] [A2 C2]. split; congruence. Qed.

Lemma insert_asiento_same_areas_and_croquis co fi cl es ar :
  stmt_keeps same_areas_and_croquis (insert_asiento co fi cl es ar).
Proof.
  intros d q row d' q' H. apply insert_asiento_inv in H.
  destruct H as [_ [_ [_ [_ [_ ->]]]]]. split; reflexivity.
Qed.

Lemma update_asiento_estado_same_areas_and_croquis es id :
  stmt_keeps same_areas_and_croquis (update_asiento_estado es id).
Proof.
  unfold update_asiento_estado. do 2 (apply with_param_keeps; intros ? _).
  intros d q a d' q' H. inversion H; subst. split; reflexivity.
Qed.

(** A successful PUT that carried a document has stored the document its
    step 2 returned, and its answer shows it. *)
Lemma put_layout_success_remapped eventoID ps asientos w s layoutConfig seats w' :
  pending w = None ->
  put_layout eventoID (VObj ps) asientos w = (Val (Layout s layoutConfig seats), w') ->
  exists eid lugar items props w1 r wa,
    pg_int4 (VStr eventoID) = Val (Some eid)
    /\ asientos = VArr items props
    /\ current w1 = committed w
    /\ remap_layout lugar (VObj ps) items w1 = (Val r, wa)
    /\ fst r = layoutConfig
    /\ layout_of (committed w') eid = Some layoutConfig
    /\ tbl_Area (committed w') = tbl_Area (current wa).
Proof.
  intros Hp H.
  destruct (put_layout_success_reconciled _ _ _ _ _ _ _ _ H Hp)
    as [ev [lugar [items [props [w1 [w2 [_ [He [_ [Has [Hc1 [Hr Hc]]]]]]]]]]]].
  apply put_layout_success in H.
  destruct H as [_ [id [Hid [_ [Hcfg _]]]]].
  assert (id = Some (Evento.eventoID ev)) by congruence. subst id.
  unfold reconcile in Hr.
  apply bind_val_inv in Hr. destruct Hr as [r [wa [Hrm Hr]]].
  apply bind_val_inv in Hr. destruct Hr as [[] [wb [Hup Hps]]].
  destruct (remap_layout_stored _ _ _ _ _ _ Hrm) as [_ [ps' Eps]].
  rewrite Eps in Hup.
  apply (upsert_croquis_stored _ _ _ _ _ He) in Hup. destruct Hup as [Hup Hab].
  pose proof (process_seats_tracks same_areas_and_croquis
                same_areas_and_croquis_refl same_areas_and_croquis_trans
                insert_asiento_same_areas_and_croquis
                update_asiento_estado_same_areas_and_croquis
                lugar (snd r) wb) as Ht.
  rewrite Hps in Ht. unfold tracks, same_areas_and_croquis in Ht. simpl in Ht.
  destruct Ht as [HtA HtC].
  assert (Hlay : layout_of (committed w') (Evento.eventoID ev) = Some (VObj ps')).
  { unfold layout_of in *. rewrite Hc, HtC. exact Hup. }
  assert (Ecfg : layoutConfig = VObj ps').
  { rewrite Hcfg. unfold layout_of in Hlay.
    destruct (filter _ (tbl_Croquis (committed w'))); [discriminate |].
    simpl. congruence. }
  exists (Evento.eventoID ev), lugar, items, props, w1, r, wa.
  rewrite Ecfg. repeat split; auto; congruence.
Qed.


(** X9.  The layout document a successful reconciliation stores and
    answers holds no temporary table entry, as long as no Area identifier
    has passed the ceiling of 1000000000: sending it again creates no
    area. *)
Theorem put_layout_answer_has_no_temporary_entry :
  forall eventoID ps asientos w s layoutConfig seats w' items props,
    pending w = None ->
    put_layout eventoID (VObj ps) asientos w = (Val (Layout s layoutConfig seats), w') ->
    Forall (fun ar => Area.areaID ar <= ceiling) (tbl_Area (committed w')) ->
    get_prop layoutConfig "tables" = Val (VArr items props) ->
    Forall (fun table => isTempTable table = Val false) items.
Proof.
  intros eventoID ps asientos w s cfg seats w' items props Hp H Hids Htab.
  destruct (put_layout_success_remapped _ _ _ _ _ _ _ _ Hp H)
    as [eid [lugar [its [prs [w1 [r [wa [_ [_ [_ [Hrm [Hcfg [_ Har]]]]]]]]]]]]].
  unfold remap_layout in Hrm. cbn [truthy] in Hrm.
  apply bind_val_inv in Hrm. destruct Hrm as [tables [w2 [Ht Hrm]]].
  apply lift_inv in Ht. destruct Ht as [Ht ->]. simpl in Ht. inversion Ht; subst tables.
  destruct (lookup "tables" ps) as [| | | | | items0 props0 |] eqn:El;
    try (apply ret_inv in Hrm; destruct Hrm as [Hrm _]; inversion Hrm; subst r;
         simpl in Hcfg; subst cfg; simpl in Htab; congruence).
  apply bind_val_inv in Hrm. destruct Hrm as [r1 [w3 [H1 Hrm]]].
  apply bind_val_inv in Hrm. destruct Hrm as [c' [w4 [H2 Hrm]]].
  apply lift_inv in H2. destruct H2 as [H2 ->]. simpl in H2. inversion H2; subst c'.
  apply ret_inv in Hrm. destruct Hrm as [Hrm ->]. inversion Hrm; subst r.
  simpl in Hcfg. subst cfg. simpl in Htab. rewrite lookup_assign_same in Htab.
  inversion Htab; subst items props.
  destruct (remap_tables_inv _ _ _ _ _ _ H1) as [steps [Hrem [Hareas _]]].
  assert (Hsteps : Forall (fun step => Area.areaID (snd step) <= ceiling) steps).
  { apply Forall_forall. intros step Hin. rewrite Forall_forall in Hids.
    apply Hids. rewrite Har, Hareas. apply in_or_app. right.
    apply in_map. exact Hin. }
  clear - Hrem Hsteps. induction Hrem; [constructor | |].
  - constructor; auto.
  - inversion Hsteps; subst. constructor; [| auto].
    unfold isTempTable. rewrite H1. simpl.
    match goal with H : Area.areaID _ <= ceiling |- _ => simpl in H;
      apply Z.ltb_ge in H; rewrite H end.
    rewrite andb_false_r. rewrite H2. reflexivity.
Qed.

(** *** One existing seat *)

Lemma client_query_run {A} (s : stmt A) w a d q :
  faulty w (issued w) = false ->
  s (current w) (seqs w) = (Val (a, d), q) ->
  exists w',
    client_query s w = (Val a, w')
    /\ current w' = d /\ seqs w' = q
    /\ faulty w' = faulty w /\ issued w' = S (issued w).
Proof.
  intros F H. unfold client_query, current in *. rewrite F.
  destruct (pending w) as [t |]; rewrite H; eexists; split; try reflexivity; simpl; auto.
Qed.

Lemma client_query_refused {A} (s : stmt A) w e q :
  faulty w (issued w) = false ->
  s (current w) (seqs w) = (Throw e, q) ->
  exists w',
    client_query s w = (Throw e, w') /\ current w' = current w.
Proof.
  intros F H. unfold client_query, current in *. rewrite F.
  destruct (pending w) as [t |] eqn:E; rewrite H; eexists; split; try reflexivity;
    simpl; rewrite ?E; auto.
Qed.

Lemma In_mem_string s l : In s l -> mem_string s l = true.
Proof.
  intros H. unfold mem_string. apply existsb_exists. exists s.
  split; [exact H | apply String.eqb_refl].
Qed.

Lemma mem_string_In s l : mem_string s l = true -> In s l.
Proof.
  unfold mem_string. intros H. apply existsb_exists in H. destruct H as [x [Hx E]].
  apply String.eqb_eq in E. subst. exact Hx.
Qed.

Lemma select_asiento_in_lugar_found n lugar d a :
  In a (tbl_Asiento d) -> Asiento.asientoID a = n ->
  area_in_lugar d (Asiento.areaID a) lugar = true ->
  exists x rows,
    flat_map (fun a =>
      flat_map (fun ar =>
        if andb (Asiento.areaID a =? Area.areaID ar)
                (andb (eqb_opt (Some n) (Asiento.asientoID a)) (Area.lugarID ar =? lugar))
        then [Asiento.asientoID a] else [])
        (tbl_Area d))
      (tbl_Asiento d) = x :: rows.
Proof.
  intros Ha Hn Hl. apply (In_nonempty _ n).
  unfold area_in_lugar in Hl. apply existsb_exists in Hl. destruct Hl as [ar [Har Hc]].
  apply andb_true_iff in Hc. destruct Hc as [C1 C2]. apply Z.eqb_eq in C1.
  apply in_flat_map. exists a. split; [exact Ha |].
  apply in_flat_map. exists ar. split; [exact Har |].
  simpl. rewrite Hn, C1, C2, !Z.eqb_refl. left. reflexivity.
Qed.

(** X10.  A descriptor taken for an existing seat, whose identifier names a
    seat under an area of the venue of the event and whose state is, once in
    upper case, a label of the enumeration, sets the state of that seat and
    nothing else: every other column of the row and every other row are as
    before.  A state that is no label makes the step fail instead, the
    tables being left as they were. *)
Theorem existing_seat_gets_submitted_state :
  forall lugarIDDelEvento asiento id n e a w,
    faulty w (issued w) = false ->
    faulty w (S (issued w)) = false ->
    isNewSeat asiento = Val false ->
    get_prop asiento "asientoID" = Val id ->
    pg_int4 id = Val (Some n) ->
    In a (tbl_Asiento (current w)) ->
    Asiento.asientoID a = n ->
    area_in_lugar (current w) (Asiento.areaID a) lugarIDDelEvento = true ->
    get_prop asiento "estado" = Val (VStr e) ->
    (In (toUpperCase e) estado_asiento ->
     exists w',
       process_seat lugarIDDelEvento asiento w = (Val tt, w')
       /\ current w'
          = with_Asiento
              (map (fun r => if Asiento.asientoID r =? n
                             then Asiento.with_estado (toUpperCase e) r else r)
                   (tbl_Asiento (current w)))
              (current w))
    /\ (~ In (toUpperCase e) estado_asiento ->
        exists ex w',
          process_seat lugarIDDelEvento asiento w = (Throw ex, w')
          /\ current w' = current w).
Proof.
  intros lugar asiento id n e a w F0 F1 Hnew Hid Hn Ha Han Hl He.
  destruct (select_asiento_in_lugar_found n lugar (current w) a Ha Han Hl)
    as [x [rows Hrows]].
  destruct (client_query_run (select_asiento_in_lugar id lugar) w (x :: rows)
              (current w) (seqs w) F0) as [w1 [Hq [C1 [S1 [Ff1 I1]]]]].
  { unfold select_asiento_in_lugar, with_param, select. rewrite Hn, Hrows. reflexivity. }
  assert (F1' : faulty w1 (issued w1) = false) by (rewrite Ff1, I1; exact F1).
  assert (Hrun : process_seat lugar asiento w
                 = client_query (update_asiento_estado (VStr (toUpperCase e)) id) w1).
  { unfold process_seat. rewrite Hnew, Hid, He.
    unfold bind at 1, lift at 1. unfold bind at 1, lift at 1.
    unfold bind at 1. rewrite Hq. reflexivity. }
  rewrite Hrun. split.
  - intros Hlab.
    destruct (client_query_run (update_asiento_estado (VStr (toUpperCase e)) id) w1 tt
                (with_Asiento
                   (map (fun r => if eqb_opt (Some n) (Asiento.asientoID r)
                                  then Asiento.with_estado (toUpperCase e) r else r)
                        (tbl_Asiento (current w1))) (current w1))
                (seqs w1) F1') as [w2 [Hq2 [C2 _]]].
    { unfold update_asiento_estado, with_param, pg_enum. cbn [to_js_string].
      rewrite (In_mem_string _ _ Hlab), Hn. reflexivity. }
    exists w2. split; [exact Hq2 |]. rewrite C2, C1.
    f_equal. apply map_ext. intros r. simpl. rewrite Z.eqb_sym. reflexivity.
  - intros Hlab.
    destruct (client_query_refused (update_asiento_estado (VStr (toUpperCase e)) id) w1
                (DbError "invalid input value for enum") (seqs w1) F1')
      as [w2 [Hq2 C2]].
    { unfold update_asiento_estado, with_param, pg_enum. cbn [to_js_string].
      destruct (mem_string _ _) eqn:E; [| reflexivity].
      exfalso. apply Hlab, mem_string_In, E. }
    exists (DbError "invalid input value for enum"), w2.
    split; [exact Hq2 | congruence].
Qed.
(** *** The middlewares *)

Lemma split_space_field a b :
  no_blank a = true -> split_space (a ++ " " ++ b) = a :: split_space b.
Proof.
  change (" " ++ b) with (String " " b).
  induction a as [| c a IH]; simpl; intros H; [reflexivity |].
  apply andb_true_iff in H. destruct H as [Hc Ha].
  apply negb_true_iff in Hc. rewrite Hc, (IH Ha). reflexivity.
Qed.

Lemma split_space_no_blank a : no_blank a = true -> split_space a = [a].
Proof.
  induction a as [| c a IH]; simpl; intros H; [reflexivity |].
  apply andb_true_iff in H. destruct H as [Hc Ha].
  apply negb_true_iff in Hc. rewrite Hc, (IH Ha). reflexivity.
Qed.

Lemma field_not_empty a b : String.eqb (a ++ " " ++ b) "" = false.
Proof. destruct a; reflexivity. Qed.

Lemma authenticateToken_field (verify : string -> option value) scheme token :
  no_blank scheme = true ->
  no_blank token = true ->
  authenticateToken verify (VStr (scheme ++ " " ++ token))
  = Val (match verify token with
         | Some user => Pass user
         | None => Stop 403 "Invalid or expired token"
         end).
Proof.
  intros Hs Ht. unfold authenticateToken. cbn [truthy].
  rewrite field_not_empty. cbn [negb].
  rewrite (split_space_field _ _ Hs), (split_space_no_blank _ Ht).
  simpl. destruct (verify token); reflexivity.
Qed.

(** X11.  [authenticateToken] takes the second blank-separated field of the
    header for the token, whatever the first field says: the request passes
    with the payload when [jwt.verify] accepts that field and is answered
    403 when it does not.  A header without a blank, like a missing header,
    is answered 401 and nothing is verified. *)
Theorem authenticateToken_reads_second_field :
  forall (verify : string -> option value) scheme token,
    no_blank scheme = true ->
    no_blank token = true ->
    authenticateToken verify (VStr (scheme ++ " " ++ token))
    = Val (match verify token with
           | Some user => Pass user
           | None => Stop 403 "Invalid or expired token"
           end)
    /\ authenticateToken verify VUndef = Val (Stop 401 "Authentication token required")
    /\ (scheme <> "" ->
        authenticateToken verify (VStr scheme)
        = Val (Stop 401 "Authentication token required")).
Proof.
  intros verify scheme token Hs Ht. split; [| split].
  - apply authenticateToken_field; assumption.
  - reflexivity.
  - intros Hne. unfold authenticateToken. cbn [truthy].
    destruct (String.eqb scheme "") eqn:E; [apply String.eqb_eq in E; contradiction |].
    cbn [negb]. rewrite (split_space_no_blank _ Hs). reflexivity.
Qed.

Lemma authenticateToken_pass verify authHeader user :
  authenticateToken verify authHeader = Val (Pass user) ->
  exists h token,
    authHeader = VStr h
    /\ (nth_error (split_space h) 1 = Some token \/ (h = "" /\ token = ""))
    /\ verify token = Some user.
Proof.
  unfold authenticateToken. intros H.
  destruct authHeader as [| | b | n | h | items props | ps]; simpl in H;
    try discriminate.
  - destruct b; discriminate.
  - destruct (negb (n =? 0)); discriminate.
  - destruct (String.eqb h "") eqn:Eh; simpl in H.
    + apply String.eqb_eq in Eh. subst h.
      destruct (verify "") as [u |] eqn:Ev; [| discriminate].
      inversion H; subst. exists "", "". auto.
    + destruct (split_space h) as [| f0 [| f1 fs]] eqn:Es; simpl in H;
        try discriminate.
      destruct (verify f1) as [u |] eqn:Ev; [| discriminate].
      inversion H; subst. exists h, f1. rewrite Es. auto.
Qed.

Lemma authorizeRoles_pass roles user :
  authorizeRoles roles user = Val (Pass tt) ->
  exists role,
    get_prop user "role" = Val (VStr role)
    /\ In (toUpperCase role) (map toUpperCase roles).
Proof.
  unfold authorizeRoles. intros H.
  destruct (negb (truthy user)); [discriminate |].
  destruct (get_prop user "role") as [role |]; [| discriminate]. simpl in H.
  destruct (negb (truthy role)); [discriminate |].
  destruct role as [| | b | n | r | items props | ps]; try discriminate.
  simpl in H. destruct (mem_string _ _) eqn:E; [| discriminate].
  exists r. split; [reflexivity |]. apply mem_string_In, E.
Qed.

Lemma authorizeRoles_allowed roles user role :
  get_prop user "role" = Val (VStr role) ->
  role <> "" ->
  In (toUpperCase role) (map toUpperCase roles) ->
  authorizeRoles roles user = Val (Pass tt).
Proof.
  intros Hr Hne Hin. unfold authorizeRoles.
  assert (Hu : truthy user = true).
  { destruct user; simpl in Hr; try discriminate; reflexivity. }
  rewrite Hu, Hr. simpl.
  destruct (String.eqb role "") eqn:E; [apply String.eqb_eq in E; contradiction |].
  simpl. rewrite (In_mem_string _ _ Hin). reflexivity.
Qed.

Lemma authorizeRoles_forbidden roles user role :
  get_prop user "role" = Val (VStr role) ->
  role <> "" ->
  ~ In (toUpperCase role) (map toUpperCase roles) ->
  authorizeRoles roles user
  = Val (Stop 403 "Forbidden: You do not have the required role to access this resource.").
Proof.
  intros Hr Hne Hin. unfold authorizeRoles.
  assert (Hu : truthy user = true).
  { destruct user; simpl in Hr; try discriminate; reflexivity. }
  rewrite Hu, Hr. simpl.
  destruct (String.eqb role "") eqn:E; [apply String.eqb_eq in E; contradiction |].
  simpl. destruct (mem_string _ _) eqn:Em; [| reflexivity].
  exfalso. apply Hin, mem_string_In, Em.
Qed.

Lemma protected_run verify {R} (reject : Z -> string -> R) roles authHeader
      (handler : M R) w :
  protected verify reject roles authHeader handler w
  = match authenticateToken verify authHeader with
    | Val (Pass user) =>
        match authorizeRoles roles user with
        | Val (Pass _) => handler w
        | Val (Stop status message) => (Val (reject status message), w)
        | Throw e => (Throw e, w)
        end
    | Val (Stop status message) => (Val (reject status message), w)
    | Throw e => (Throw e, w)
    end.
Proof.
  unfold protected, bind, lift, ret.
  destruct (authenticateToken verify authHeader) as [[user | st msg] | e];
    try reflexivity.
  destruct (authorizeRoles roles user) as [[[] | st msg] | e]; reflexivity.
Qed.

(** A request that is not let through leaves no trace. *)
Lemma protected_guard verify {R} (reject : Z -> string -> R) roles authHeader
      (handler : M R) w :
  (presented verify roles authHeader
   /\ protected verify reject roles authHeader handler w = handler w)
  \/ (snd (protected verify reject roles authHeader handler w) = w
      /\ refusal reject (fst (protected verify reject roles authHeader handler w))).
Proof.
  rewrite protected_run.
  destruct (authenticateToken verify authHeader) as [[user | st msg] | e] eqn:Ea.
  - destruct (authorizeRoles roles user) as [[[] | st msg] | e] eqn:Er.
    + left. split; [| reflexivity].
      apply authenticateToken_pass in Ea. destruct Ea as [h [token [-> [Ht Hv]]]].
      apply authorizeRoles_pass in Er. destruct Er as [role [Hr Hin]].
      exists h, token, user, role. auto.
    + right. split; [reflexivity |]. right. exists st, msg. split; [reflexivity |].
      unfold authorizeRoles in Er.
      destruct (negb (truthy user)); [inversion Er; auto |].
      destruct (get_prop user "role") as [role |]; [| discriminate]. simpl in Er.
      destruct (negb (truthy role)); [inversion Er; auto |].
      destruct (call_toUpperCase role); [| discriminate]. simpl in Er.
      destruct (mem_string _ _); inversion Er; auto.
    + right. split; [reflexivity |]. left. simpl.
      unfold authorizeRoles in Er.
      destruct (negb (truthy user)) eqn:Eu; [discriminate |].
      destruct (get_prop user "role") as [role |] eqn:Eg; simpl in Er.
      * destruct (negb (truthy role)); [discriminate |].
        destruct role; simpl in Er; try (inversion Er; reflexivity).
        destruct (mem_string _ _); discriminate.
      * destruct user; simpl in *; discriminate.
  - right. split; [reflexivity |]. right. exists st, msg. split; [reflexivity |].
    unfold authenticateToken in Ea.
    destruct (if truthy authHeader then _ else _) as [token |]; [| discriminate].
    simpl in Ea. destruct (is_nullish token); [inversion Ea; auto |].
    destruct token; try (inversion Ea; auto; fail).
    destruct (verify _); inversion Ea; auto.
  - right. split; [reflexivity |]. left. simpl.
    unfold authenticateToken in Ea.
    destruct (truthy authHeader).
    + destruct authHeader; simpl in Ea; try (inversion Ea; reflexivity).
      destruct (nth 1 (map VStr (split_space s)) VUndef) eqn:En; simpl in Ea;
        try discriminate.
      destruct (verify _); discriminate.
    + simpl in Ea. destruct (is_nullish authHeader); [discriminate |].
      destruct authHeader; try discriminate. destruct (verify _); discriminate.
Qed.

(** X12.  The three routes that write let nothing through without a token
    that [jwt.verify] accepts for a user whose role is ORGANIZADOR or
    ADMINISTRADOR up to case: any other request is answered 401 or 403 (or
    fails in the middleware) and nothing is sent to the database. *)
Theorem writing_routes_need_an_allowed_role :
  forall (verify : string -> option value) authHeader eventoID areaID
         configuracionCroquis asientos body w,
    presented verify ["ORGANIZADOR"; "ADMINISTRADOR"] authHeader
    \/ ((snd (route_put_layout verify authHeader eventoID configuracionCroquis asientos w)
         = w
         /\ refusal Failure
              (fst (route_put_layout verify authHeader eventoID configuracionCroquis
                                     asientos w)))
        /\ (snd (route_delete_area verify authHeader eventoID areaID w) = w
            /\ refusal Failure (fst (route_delete_area verify authHeader eventoID areaID w)))
        /\ (snd (route_post_asiento verify authHeader eventoID body w) = w
            /\ refusal SeatFailure
                 (fst (route_post_asiento verify authHeader eventoID body w)))).
Proof.
  intros verify authHeader eventoID areaID config asientos body w.
  unfold route_put_layout, route_delete_area, route_post_asiento.
  destruct (protected_guard verify Failure ["ORGANIZADOR"; "ADMINISTRADOR"] authHeader
              (put_layout eventoID config asientos) w) as [[Hp _] | H1]; [left; exact Hp |].
  destruct (protected_guard verify Failure ["ORGANIZADOR"; "ADMINISTRADOR"] authHeader
              (delete_area_route eventoID areaID) w) as [[Hp _] | H2]; [left; exact Hp |].
  destruct (protected_guard verify SeatFailure ["ORGANIZADOR"; "ADMINISTRADOR"] authHeader
              (post_asiento eventoID body) w) as [[Hp _] | H3]; [left; exact Hp |].
  right. auto.
Qed.

Lemma protected_pass verify {R} (reject : Z -> string -> R) roles scheme token user role
      (handler : M R) w :
  no_blank scheme = true -> no_blank token = true ->
  verify token = Some user ->
  get_prop user "role" = Val (VStr role) ->
  role <> "" ->
  In (toUpperCase role) (map toUpperCase roles) ->
  protected verify reject roles (VStr (scheme ++ " " ++ token)) handler w = handler w.
Proof.
  intros Hs Ht Hv Hr Hne Hin.
  rewrite protected_run, (authenticateToken_field _ _ _ Hs Ht), Hv.
  rewrite (authorizeRoles_allowed _ _ _ Hr Hne Hin). reflexivity.
Qed.

Lemma protected_forbidden verify {R} (reject : Z -> string -> R) roles scheme token user
      role (handler : M R) w :
  no_blank scheme = true -> no_blank token = true ->
  verify token = Some user ->
  get_prop user "role" = Val (VStr role) ->
  role <> "" ->
  ~ In (toUpperCase role) (map toUpperCase roles) ->
  protected verify reject roles (VStr (scheme ++ " " ++ token)) handler w
  = (Val (reject 403 "Forbidden: You do not have the required role to access this resource."),
     w).
Proof.
  intros Hs Ht Hv Hr Hne Hin.
  rewrite protected_run, (authenticateToken_field _ _ _ Hs Ht), Hv.
  rewrite (authorizeRoles_forbidden _ _ _ Hr Hne Hin). reflexivity.
Qed.

Lemma upper_not_empty role label : toUpperCase role = label -> label <> "" -> role <> "".
Proof. intros <- H ->. apply H. reflexivity. Qed.

(** X13.  A verified user whose role is ASISTENTE, in any case, reads the
    layout (the route behaves as its handler) but is answered 403 by the
    three routes that write, and nothing is sent to the database. *)
Theorem asistente_reads_but_does_not_write :
  forall (verify : string -> option value) scheme token user role eventoID areaID
         configuracionCroquis asientos body w,
    no_blank scheme = true ->
    no_blank token = true ->
    verify token = Some user ->
    get_prop user "role" = Val (VStr role) ->
    toUpperCase role = "ASISTENTE" ->
    let authHeader := VStr (scheme ++ " " ++ token) in
    let forbidden :=
      "Forbidden: You do not have the required role to access this resource." in
    route_get_layout verify authHeader eventoID w = get_layout eventoID w
    /\ route_put_layout verify authHeader eventoID configuracionCroquis asientos w
       = (Val (Failure 403 forbidden), w)
    /\ route_delete_area verify authHeader eventoID areaID w
       = (Val (Failure 403 forbidden), w)
    /\ route_post_asiento verify authHeader eventoID body w
       = (Val (SeatFailure 403 forbidden), w).
Proof.
  intros verify scheme token user role eventoID areaID config asientos body w
         Hs Ht Hv Hr Hu. simpl.
  assert (Hne : role <> "") by (apply (upper_not_empty _ _ Hu); discriminate).
  assert (Hno : ~ In (toUpperCase role) (map toUpperCase ["ORGANIZADOR"; "ADMINISTRADOR"])).
  { rewrite Hu. simpl. intros [H | [H | []]]; discriminate. }
  unfold route_get_layout, route_put_layout, route_delete_area, route_post_asiento.
  split; [| split; [| split]].
  - apply (protected_pass _ _ _ _ _ user role); auto.
    rewrite Hu. simpl. auto.
  - apply (protected_forbidden _ _ _ _ _ user role); auto.
  - apply (protected_forbidden _ _ _ _ _ user role); auto.
  - apply (protected_forbidden _ _ _ _ _ user role); auto.
Qed.

(** X14.  For a verified user whose role is ORGANIZADOR or ADMINISTRADOR, in
    any case, each of the four routes behaves exactly as its handler. *)
Theorem organizer_reaches_the_handlers :
  forall (verify : string -> option value) scheme token user role eventoID areaID
         configuracionCroquis asientos body w,
    no_blank scheme = true ->
    no_blank token = true ->
    verify token = Some user ->
    get_prop user "role" = Val (VStr role) ->
    toUpperCase role = "ORGANIZADOR" \/ toUpperCase role = "ADMINISTRADOR" ->
    let authHeader := VStr (scheme ++ " " ++ token) in
    route_get_layout verify authHeader eventoID w = get_layout eventoID w
    /\ route_put_layout verify authHeader eventoID configuracionCroquis asientos w
       = put_layout eventoID configuracionCroquis asientos w
    /\ route_delete_area verify authHeader eventoID areaID w
       = delete_area_route eventoID areaID w
    /\ route_post_asiento verify authHeader eventoID body w
       = post_asiento eventoID body w.
Proof.
  intros verify scheme token user role eventoID areaID config asientos body w
         Hs Ht Hv Hr Hu. simpl.
  assert (Hne : role <> "").
  { destruct Hu as [Hu | Hu]; apply (upper_not_empty _ _ Hu); discriminate. }
  unfold route_get_layout, route_put_layout, route_delete_area, route_post_asiento.
  split; [| split; [| split]];
    apply (protected_pass _ _ _ _ _ user role); auto;
    destruct Hu as [-> | ->]; simpl; auto.
Qed.
(** *** [POST /:eventoID/asientos] *)

Lemma call_parseInt_val v p : call_parseInt v = Val p -> parseInt v = p.
Proof.
  unfold call_parseInt. destruct (ToString v); [| discriminate].
  intros H. inversion H. reflexivity.
Qed.

Lemma utf8_split_app n s h t : utf8_split n s = (h, t) -> s = h ++ t.
Proof.
  revert n h t. induction s as [| c r IH]; intros n h t; simpl.
  - intros H. inversion H. reflexivity.
  - destruct (andb _ _).
    + destruct (utf8_split n r) as [h0 t0] eqn:E. intros H. inversion H; subst.
      simpl. f_equal. eapply IH, E.
    + destruct n as [| n]; [intros H; inversion H; reflexivity |].
      destruct (utf8_split n r) as [h0 t0] eqn:E. intros H. inversion H; subst.
      simpl. f_equal. eapply IH, E.
Qed.

Lemma trim_end_empty s : trim_end s = "" -> only_blanks (String.length s) s = true.
Proof.
  destruct s as [| c r]; [reflexivity |]. cbn [trim_end].
  destruct (only_blanks _ _); [reflexivity | discriminate].
Qed.

(** A trimmed text does not end in spaces. *)
Lemma trim_end_no_spaces s :
  forall h t, trim_end s = h ++ t -> all_bytes is_blank_byte t = true -> t = "".
Proof.
  induction s as [| c r IH]; intros h t H Ht.
  - destruct h; [simpl in H; congruence | discriminate].
  - cbn [trim_end] in H.
    destruct (only_blanks (String.length (String c r)) (String c r)) eqn:E.
    + destruct h; [simpl in H; congruence | discriminate].
    + destruct h as [| c0 h].
      * simpl in H. subst t. cbn [all_bytes] in Ht.
        apply andb_true_iff in Ht. destruct Ht as [Hc Hr].
        assert (Er : trim_end r = "") by (apply (IH "" _ eq_refl Hr)).
        apply trim_end_empty in Er.
        assert (Hs : isspace c = true).
        { unfold is_blank_byte in Hc. unfold isspace.
          apply Nat.eqb_eq in Hc. rewrite Hc. reflexivity. }
        cbn [String.length only_blanks blank_prefix] in E. rewrite Hs in E.
        congruence.
      * simpl in H. inversion H; subst. eapply IH; eauto.
Qed.

Lemma varchar_in_trimmed n s r : varchar_in n (js_trim s) = Val r -> r = js_trim s.
Proof.
  unfold varchar_in. destruct (negb _); [discriminate |].
  destruct (utf8_split (Z.to_nat n) (js_trim s)) as [h t] eqn:E.
  destruct (all_bytes is_blank_byte t) eqn:Ht; [| discriminate].
  intros H. inversion H; subst r. apply utf8_split_app in E.
  assert (t = "") by (eapply trim_end_no_spaces; [exact E | exact Ht]).
  subst t. rewrite E. clear. induction h; simpl; congruence.
Qed.

Lemma select_area_in_lugar_found aid lugar d x rows :
  map Area.areaID
      (filter (fun ar => andb (eqb_opt aid (Area.areaID ar))
                              (eqb_opt lugar (Area.lugarID ar)))
              (tbl_Area d)) = x :: rows ->
  exists ar n,
    In ar (tbl_Area d) /\ aid = Some n /\ Area.areaID ar = n
    /\ lugar = Some (Area.lugarID ar).
Proof.
  intros H.
  destruct (filter _ (tbl_Area d)) as [| ar ars] eqn:E; [discriminate |].
  assert (Hin : In ar (ar :: ars)) by (left; reflexivity).
  rewrite <- E in Hin. apply filter_In in Hin. destruct Hin as [Hin Hc].
  apply andb_true_iff in Hc. destruct Hc as [C1 C2].
  destruct aid as [n |]; [| discriminate]. destruct lugar as [l |]; [| discriminate].
  simpl in C1, C2. apply Z.eqb_eq in C1, C2. subst.
  exists ar, (Area.areaID ar). auto.
Qed.

(** X15.  When the POST handler answers with a created seat, the status is
    201 and the committed tables are those of before with that one Seat row
    appended; the row carries the trimmed, non-empty code and the state of
    the body in upper case, a label of the enumeration.  The area the
    server found in the venue of the event is the one it reads in [areaID];
    the row lies under the existing area [parseInt] reads there, which is
    the same one when [areaID] is a number. *)
Theorem post_asiento_creates_one_seat :
  forall eventoID body w status nuevoAsiento w',
    pending w = None ->
    post_asiento eventoID body w = (Val (SeatCreated status nuevoAsiento), w') ->
    status = 201
    /\ committed w'
       = with_Asiento (tbl_Asiento (committed w) ++ [nuevoAsiento])%list (committed w)
    /\ (exists c,
          get_prop body "codigo" = Val (VStr c)
          /\ js_trim c <> ""
          /\ Asiento.codigo nuevoAsiento = Some (js_trim c))
    /\ (exists e,
          get_prop body "estado" = Val (VStr e)
          /\ Asiento.estado nuevoAsiento = toUpperCase e
          /\ In (toUpperCase e) estado_asiento)
    /\ (exists ev ar areaID,
          In ev (tbl_Evento (committed w))
          /\ pg_int4 (VStr eventoID) = Val (Some (Evento.eventoID ev))
          /\ get_prop body "areaID" = Val areaID
          /\ In ar (tbl_Area (committed w))
          /\ Evento.lugarID ev = Some (Area.lugarID ar)
          /\ pg_int4 areaID = Val (Some (Area.areaID ar))
          /\ parseInt areaID = Some (Asiento.areaID nuevoAsiento)
          /\ In (Asiento.areaID nuevoAsiento) (map Area.areaID (tbl_Area (committed w)))
          /\ (forall n, areaID = VNum n -> Area.areaID ar = Asiento.areaID nuevoAsiento)).
Proof.
  intros eventoID body w status row w' Hp H. unfold post_asiento in H.
  apply bind_val_inv in H. destruct H as [codigo [w1 [H1 H]]].
  apply lift_inv in H1. destruct H1 as [Hco ->].
  apply bind_val_inv in H. destruct H as [fila [w1 [H1 H]]].
  apply lift_inv in H1. destruct H1 as [Hfi ->].
  apply bind_val_inv in H. destruct H as [columna [w1 [H1 H]]].
  apply lift_inv in H1. destruct H1 as [Hcl ->].
  apply bind_val_inv in H. destruct H as [estado [w1 [H1 H]]].
  apply lift_inv in H1. destruct H1 as [Hes ->].
  apply bind_val_inv in H. destruct H as [areaID [w1 [H1 H]]].
  apply lift_inv in H1. destruct H1 as [Har ->].
  destruct codigo as [| | | | c | |]; try discriminate.
  destruct (orb _ _) eqn:Hc; [discriminate |].
  apply orb_false_iff in Hc. destruct Hc as [_ Hc].
  apply bind_val_inv in H. destruct H as [parsed [w1 [H1 H]]].
  apply lift_inv in H1. destruct H1 as [Hn ->]. symmetry in Hn.
  destruct parsed as [n |]; [| discriminate].
  destruct (n <=? 0) eqn:Hpos; [discriminate |].
  destruct (negb (truthy estado)); [discriminate |].
  apply bind_val_inv in H. destruct H as [upper [w1 [H1 H]]].
  apply lift_inv in H1. destruct H1 as [Hup ->].
  destruct estado as [| | | | e | |]; try discriminate.
  simpl in Hup. inversion Hup; subst upper. clear Hup.
  destruct (negb (mem_string _ _)) eqn:Hst; [discriminate |].
  apply try_catch_val_inv in H. destruct H as [H | [ex [w1 [_ H]]]].
  2:{ apply bind_val_inv in H. destruct H as [? [? [_ H]]]. discriminate. }
  unfold post_asiento_transaction in H.
  apply bind_val_inv in H. destruct H as [[] [w1 [Hb H]]].
  assert (Hw1 : committed w1 = committed w /\ pending w1 = Some (committed w)).
  { unfold client_begin in Hb. rewrite Hp in Hb.
    destruct (faulty w (issued w)); [discriminate |]. inversion Hb. auto. }
  destruct Hw1 as [C1 P1].
  apply bind_val_inv in H. destruct H as [eventCheck [w2 [Hq H]]].
  apply client_query_val_inv in Hq. destruct Hq as [Hq [Hc2 _]].
  unfold select_evento, with_param, select in Hq.
  destruct (pg_int4 (VStr eventoID)) as [id |] eqn:Hid; [| discriminate].
  inversion Hq as [[Hrows Hcur2 Hsq2]]. clear Hq.
  destruct eventCheck as [| ev evs].
  { apply bind_val_inv in H. destruct H as [? [? [_ H]]]. discriminate. }
  apply bind_val_inv in H. destruct H as [areaCheck [w3 [Hq H]]].
  apply client_query_val_inv in Hq. destruct Hq as [Hq [Hc3 _]].
  unfold select_area_in_lugar, with_param, select in Hq.
  destruct (pg_int4 areaID) as [aid |] eqn:Haid; [| discriminate].
  inversion Hq as [[Harea Hcur3 Hsq3]]. clear Hq.
  destruct areaCheck as [| a0 as0].
  { apply bind_val_inv in H. destruct H as [? [? [_ H]]]. discriminate. }
  apply bind_val_inv in H. destruct H as [parsedFila [w4 [H1 H]]].
  apply lift_inv in H1. destruct H1 as [_ ->].
  apply bind_val_inv in H. destruct H as [parsedColumna [w4 [H1 H]]].
  apply lift_inv in H1. destruct H1 as [_ ->].
  apply bind_val_inv in H. destruct H as [nuevo [w4 [Hq H]]].
  apply client_query_val_inv in Hq. destruct Hq as [Hq [Hc4 _]].
  apply bind_val_inv in H. destruct H as [[] [w5 [Hcm H]]].
  apply client_commit_ok in Hcm. destruct Hcm as [Hc5 _].
  apply ret_inv in H. destruct H as [H ->]. inversion H; subst status nuevo. clear H.
  assert (Ecur : current w1 = committed w) by (unfold current; rewrite P1; reflexivity).
  rewrite <- Hcur3, <- Hcur2, Ecur in Hq.
  rewrite <- Hcur2, Ecur in Harea. rewrite Ecur in Hrows.
  apply insert_asiento_inv in Hq.
  destruct Hq as [Hen [Hpa [Hvc [_ [Hfk Hd]]]]].
  split; [reflexivity |]. split; [congruence |]. split; [| split].
  - exists c. split; [symmetry; exact Hco |]. split.
    + intros E. rewrite E in Hc. discriminate.
    + destruct (Asiento.codigo row) as [stored |] eqn:Est.
      * apply pg_varchar_text, varchar_in_trimmed in Hvc. congruence.
      * unfold pg_varchar in Hvc. cbn [pg_text to_js_string] in Hvc.
        destruct (varchar_in 20 (js_trim c)); discriminate.
  - exists e. split; [symmetry; exact Hes |].
    apply negb_false_iff in Hst.
    change validSeatStates with estado_asiento in Hst.
    unfold pg_enum in Hen. cbn [to_js_string] in Hen.
    rewrite Hst in Hen. inversion Hen. split; [reflexivity | apply mem_string_In, Hst].
  - apply select_area_in_lugar_found in Harea.
    destruct Harea as [ar [m [Hin [Hm [Ham Hl]]]]].
    assert (Hev : In ev (filter (fun e0 => eqb_opt id (Evento.eventoID e0))
                                (tbl_Evento (committed w)))).
    { rewrite Hrows. left. reflexivity. }
    apply filter_In in Hev. destruct Hev as [Hev Hide].
    destruct id as [eid |]; [| discriminate]. simpl in Hide. apply Z.eqb_eq in Hide.
    assert (Hrow : Asiento.areaID row = n).
    { cbn [pg_int4] in Hpa.
      destruct (andb (-2147483648 <=? n) (n <=? 2147483647)); [congruence |].
      destruct (Z.abs n <? 10 ^ 21); discriminate. }
    exists ev, ar, areaID. split; [exact Hev |]. split; [congruence |].
    split; [symmetry; exact Har |]. split; [exact Hin |]. split; [exact Hl |].
    split; [congruence |]. split; [| split].
    + destruct (is_undefined areaID); [discriminate |].
      apply call_parseInt_val in Hn. congruence.
    + exact Hfk.
    + intros k ->. cbn [is_undefined] in Hn. apply call_parseInt_val in Hn.
      cbn [pg_int4 parseInt] in Haid, Hn.
      destruct (andb (-2147483648 <=? k) (k <=? 2147483647)) eqn:Hk.
      2:{ destruct (Z.abs k <? (10 ^ 21)); discriminate. }
      apply andb_true_iff in Hk. destruct Hk as [K1 K2].
      apply Z.leb_le in K1, K2.
      assert (Hs : (Z.abs k <? 2 ^ 53) = true)
        by (apply Z.ltb_lt; change (2 ^ 53) with 9007199254740992; lia).
      rewrite Hs in Hn. congruence.
Qed.
Lemma rollback_and_answer_committed {R} (r : R) w o w' :
  (client_rollback ;;; ret r) w = (o, w') -> committed w' = committed w.
Proof.
  intros H. apply bind_inv in H. destruct H as [[[] [w1 [Hr H]]] | [e [Hr _]]].
  - apply ret_inv in H. destruct H as [_ ->].
    apply (client_rollback_committed _ _ _ Hr).
  - apply (client_rollback_committed _ _ _ Hr).
Qed.

Lemma client_commit_throw w e w' :
  client_commit w = (Throw e, w') -> committed w' = committed w.
Proof.
  unfold client_commit. destruct (faulty w (issued w)).
  - intros H. inversion H. reflexivity.
  - destruct (pending w); discriminate.
Qed.

Lemma post_asiento_transaction_committed eventoID c fila columna upper areaID n w o w' :
  post_asiento_transaction eventoID c fila columna upper areaID n w = (o, w') ->
  (exists status row, o = Val (SeatCreated status row))
  \/ committed w' = committed w.
Proof.
  unfold post_asiento_transaction. intros H.
  apply bind_inv in H. destruct H as [[[] [w1 [Hb H]]] | [e [Hb _]]].
  2:{ right. apply (client_begin_committed _ _ _ Hb). }
  apply client_begin_ok in Hb. destruct Hb as [C1 P1].
  apply bind_inv in H. destruct H as [[rows [w2 [Hq H]]] | [e [Hq _]]].
  2:{ right. destruct (client_query_keeps_transaction _ _ _ _ Hq P1). congruence. }
  destruct (client_query_keeps_transaction _ _ _ _ Hq P1) as [C2 P2].
  destruct rows as [| ev evs].
  { right. apply rollback_and_answer_committed in H. congruence. }
  apply bind_inv in H. destruct H as [[areas [w3 [Hq3 H]]] | [e [Hq3 _]]].
  2:{ right. destruct (client_query_keeps_transaction _ _ _ _ Hq3 P2). congruence. }
  destruct (client_query_keeps_transaction _ _ _ _ Hq3 P2) as [C3 P3].
  destruct areas as [| a0 as0].
  { right. apply rollback_and_answer_committed in H. congruence. }
  apply bind_inv in H. destruct H as [[pf [w4 [Hl H]]] | [e [Hl _]]];
    apply lift_inv in Hl; destruct Hl as [_ Hl]; [subst w4 | right; congruence].
  apply bind_inv in H. destruct H as [[pc [w4 [Hl H]]] | [e [Hl _]]];
    apply lift_inv in Hl; destruct Hl as [_ Hl]; [subst w4 | right; congruence].
  apply bind_inv in H. destruct H as [[row [w4 [Hq4 H]]] | [e [Hq4 _]]].
  2:{ right. destruct (client_query_keeps_transaction _ _ _ _ Hq4 P3). congruence. }
  destruct (client_query_keeps_transaction _ _ _ _ Hq4 P3) as [C4 P4].
  apply bind_inv in H. destruct H as [[[] [w5 [Hc H]]] | [e [Hc _]]].
  - left. apply ret_inv in H. destruct H as [-> _]. eauto.
  - right. apply client_commit_throw in Hc. congruence.
Qed.

(** X16.  The POST handler changes the committed tables only when it answers
    with the created seat: after a 400, a 404, a 500 or an error that
    escapes, they are as before. *)
Theorem post_asiento_writes_only_when_created :
  forall eventoID body w,
    (exists status nuevoAsiento,
        fst (post_asiento eventoID body w) = Val (SeatCreated status nuevoAsiento))
    \/ committed (snd (post_asiento eventoID body w)) = committed w.
Proof.
  intros eventoID body w.
  destruct (post_asiento eventoID body w) as [o w'] eqn:H. simpl.
  unfold post_asiento in H.
  repeat (apply bind_inv in H;
          destruct H as [[? [? [Hl H]]] | [? [Hl _]]];
          apply lift_inv in Hl; destruct Hl as [_ Hl];
          [subst | right; congruence]).
  match type of H with (match ?c with _ => _ end) _ = _ => destruct c end;
    try (apply ret_inv in H; destruct H as [_ ->]; right; reflexivity).
  destruct (orb _ _); [apply ret_inv in H; destruct H as [_ ->]; right; reflexivity |].
  apply bind_inv in H. destruct H as [[parsed [w1 [Hl H]]] | [e [Hl _]]];
    apply lift_inv in Hl; destruct Hl as [_ Hl]; [subst w1 | right; congruence].
  destruct parsed as [n |];
    [| apply ret_inv in H; destruct H as [_ ->]; right; reflexivity].
  destruct (_ <=? 0); [apply ret_inv in H; destruct H as [_ ->]; right; reflexivity |].
  destruct (negb (truthy _));
    [apply ret_inv in H; destruct H as [_ ->]; right; reflexivity |].
  apply bind_inv in H. destruct H as [[upper [w1 [Hl H]]] | [e [Hl _]]];
    apply lift_inv in Hl; destruct Hl as [_ Hl]; [subst w1 | right; congruence].
  destruct (negb (mem_string _ _));
    [apply ret_inv in H; destruct H as [_ ->]; right; reflexivity |].
  unfold try_catch in H.
  match type of H with
  | (let (_, _) := ?m in _) = _ => destruct m as [[r | e] w1] eqn:Ht
  | (match ?m with _ => _ end) = _ => destruct m as [[r | e] w1] eqn:Ht
  end.
  - inversion H; subst. apply post_asiento_transaction_committed in Ht. exact Ht.
  - apply post_asiento_transaction_committed in Ht.
    destruct Ht as [[? [? Ht]] | Ht]; [discriminate |].
    right. apply rollback_and_answer_committed in H. congruence.
Qed.
(** *** Events of one venue *)

Lemma flat_map_event {B} (c : Evento.row -> bool) (id : Z) (b : B) l x :
  NoDup (map Evento.eventoID l) -> In x l -> Evento.eventoID x = id ->
  flat_map (fun e => if andb (c e) (eqb_opt (Some id) (Evento.eventoID e))
                     then [b] else []) l
  = if c x then [b] else [].
Proof.
  intros Hnd Hin Hid. subst id. induction l as [| y r IH]; [contradiction |].
  simpl in Hnd. inversion Hnd as [| ? ? Hny Hnr]; subst. cbn [flat_map eqb_opt].
  destruct Hin as [-> | Hin].
  - rewrite Z.eqb_refl, andb_true_r.
    rewrite (flat_map_nil _ r); [apply app_nil_r |].
    intros z Hz. cbn [eqb_opt].
    destruct (Evento.eventoID x =? Evento.eventoID z) eqn:E.
    + apply Z.eqb_eq in E. exfalso. apply Hny. rewrite E. apply in_map, Hz.
    + rewrite andb_false_r. reflexivity.
  - destruct (Evento.eventoID x =? Evento.eventoID y) eqn:E.
    + apply Z.eqb_eq in E. exfalso. apply Hny. rewrite <- E. apply in_map, Hin.
    + rewrite andb_false_r. simpl. apply IH; assumption.
Qed.

Lemma seats_of_one_venue d ev1 ev2 :
  NoDup (map Evento.eventoID (tbl_Evento d)) ->
  In ev1 (tbl_Evento d) -> In ev2 (tbl_Evento d) ->
  Evento.lugarID ev1 = Evento.lugarID ev2 ->
  seats_of_event_via_lugar d (Some (Evento.eventoID ev1))
  = seats_of_event_via_lugar d (Some (Evento.eventoID ev2)).
Proof.
  intros Hnd H1 H2 Hl. unfold seats_of_event_via_lugar. f_equal.
  apply flat_map_ext. intros a. apply flat_map_ext. intros ar.
  apply flat_map_ext. intros l.
  set (c := fun e => andb (Asiento.areaID a =? Area.areaID ar)
                          (andb (Area.lugarID ar =? l) (eqb_opt2 l (Evento.lugarID e)))).
  assert (E : forall id,
             flat_map (fun e =>
               if andb (Asiento.areaID a =? Area.areaID ar)
                       (andb (Area.lugarID ar =? l)
                             (andb (eqb_opt2 l (Evento.lugarID e))
                                   (eqb_opt (Some id) (Evento.eventoID e))))
               then [a] else []) (tbl_Evento d)
             = flat_map (fun e => if andb (c e) (eqb_opt (Some id) (Evento.eventoID e))
                                  then [a] else []) (tbl_Evento d)).
  { intros id. apply flat_map_ext. intros e. unfold c.
    rewrite <- !andb_assoc. reflexivity. }
  rewrite !E.
  rewrite (flat_map_event c _ a _ ev1 Hnd H1 eq_refl).
  rewrite (flat_map_event c _ a _ ev2 Hnd H2 eq_refl).
  unfold c. rewrite Hl. reflexivity.
Qed.

Lemma get_layout_run eventoID id ev w :
  (forall n, faulty w n = false) ->
  pg_int4 (VStr eventoID) = Val (Some id) ->
  In ev (tbl_Evento (committed w)) -> Evento.eventoID ev = id ->
  fst (get_layout eventoID w)
  = Val (Layout 200
           (first_or (map Croquis.configuracion
                          (filter (fun c => eqb_opt (Some id) (Croquis.eventoID c))
                                  (tbl_Croquis (committed w)))) VNull)
           (seats_of_event_via_lugar (committed w) (Some id))).
Proof.
  intros Hf Hid Hin He.
  unfold get_layout, try_catch, bind at 1, select_evento.
  rewrite (pool_query_select_run _ _ (Some id)) by auto.
  destruct (filter_In_nonempty (fun e => eqb_opt (Some id) (Evento.eventoID e))
              _ ev Hin) as [e0 [er Ee]].
  { simpl. rewrite He. apply Z.eqb_refl. }
  rewrite Ee.
  unfold bind, select_configuracion, select_seats_via_lugar.
  rewrite (pool_query_select_run _ _ (Some id)) by (simpl; auto).
  rewrite (pool_query_select_run _ _ (Some id)) by (simpl; auto).
  reflexivity.
Qed.

(** X17.  The seats belong to the venue, not to the event: on a store whose
    event identifiers are unique, the GET handler answers two events held at
    the same venue with the same list of seats, states included. *)
Theorem events_of_one_venue_share_their_seats :
  forall eventoID1 eventoID2 ev1 ev2 w,
    (forall n, faulty w n = false) ->
    NoDup (map Evento.eventoID (tbl_Evento (committed w))) ->
    In ev1 (tbl_Evento (committed w)) ->
    In ev2 (tbl_Evento (committed w)) ->
    pg_int4 (VStr eventoID1) = Val (Some (Evento.eventoID ev1)) ->
    pg_int4 (VStr eventoID2) = Val (Some (Evento.eventoID ev2)) ->
    Evento.lugarID ev1 = Evento.lugarID ev2 ->
    exists layoutConfig1 layoutConfig2 seats,
      fst (get_layout eventoID1 w) = Val (Layout 200 layoutConfig1 seats)
      /\ fst (get_layout eventoID2 w) = Val (Layout 200 layoutConfig2 seats).
Proof.
  intros e1 e2 ev1 ev2 w Hf Hnd H1 H2 P1 P2 Hl.
  rewrite (get_layout_run e1 _ ev1 w Hf P1 H1 eq_refl).
  rewrite (get_layout_run e2 _ ev2 w Hf P2 H2 eq_refl).
  rewrite (seats_of_one_venue _ ev1 ev2 Hnd H1 H2 Hl).
  eauto.
Qed.
(** *** Identifiers the database refuses *)

(** X18.  An event identifier that is not the text of a 32-bit integer is
    not turned away as a bad request: the database refuses it and the GET
    and PUT handlers answer 500, having changed nothing; so does the DELETE
    handler when [parseInt] reads a positive number at the head of the
    identifier, after a ROLLBACK. *)
Theorem malformed_event_identifier_is_a_500 :
  forall eventoID e w,
    pg_int4 (VStr eventoID) = Throw e ->
    faulty w (issued w) = false ->
    get_layout eventoID w
    = (Val (Failure 500 ("Error fetching layout and seats for event " ++ eventoID)),
       sent w (committed w) (pending w) (seqs w))
    /\ (forall configuracionCroquis asientos,
           put_layout eventoID configuracionCroquis asientos w
           = (Val (Failure 500 "Error processing layout request"),
              sent w (committed w) (pending w) (seqs w)))
    /\ (forall areaID,
           invalid_id eventoID = false ->
           invalid_id areaID = false ->
           pending w = None ->
           faulty w (S (issued w)) = false ->
           faulty w (S (S (issued w))) = false ->
           exists w',
             delete_area_route eventoID areaID w
             = (Val (Failure 500 "Error interno del servidor al eliminar el área."), w')
             /\ committed w' = committed w
             /\ pending w' = None).
Proof.
  intros eventoID e w He Hf. split; [| split].
  - unfold get_layout, try_catch, bind, pool_query, select_evento, with_param.
    rewrite Hf, He. reflexivity.
  - intros config asientos.
    unfold put_layout, try_catch, bind, pool_query, select_evento, with_param.
    rewrite Hf, He. reflexivity.
  - intros areaID Hve Hva Hp F1 F2.
    unfold delete_area_route. rewrite Hve, Hva. cbn [orb].
    unfold try_catch, bind at 1, client_begin. rewrite Hf, Hp.
    unfold bind at 1, client_query at 1, select_evento, with_param.
    cbn [faulty issued pending seqs committed sent]. rewrite F1, He.
    unfold bind, client_rollback, ret.
    cbn [faulty issued pending seqs committed sent]. rewrite F2.
    eexists. split; [reflexivity |]. split; reflexivity.
Qed.
(** *** A temporary entry without [areaid] *)

Lemma retarget_undefined real s s' :
  is_object s = true ->
  get_prop s "areaID" = Val VUndef \/ get_prop s "areaid" = Val VUndef ->
  retarget VUndef real s = Val s' ->
  get_prop s' "areaID" = Val real /\ get_prop s' "areaid" = Val real.
Proof.
  intros Ho Hu H. unfold retarget in H.
  assert (Hw : obind (set_prop s "areaID" real) (fun a => set_prop a "areaid" real)
               = Val s').
  { destruct (get_prop s "areaID") as [upper |] eqn:Eu; [| discriminate]. simpl in H.
    destruct (strict_eq upper VUndef) eqn:E1; [exact H |].
    destruct (get_prop s "areaid") as [lower |] eqn:El; [| discriminate]. simpl in H.
    destruct (strict_eq lower VUndef) eqn:E2; [exact H |].
    destruct Hu as [Hu | Hu]; inversion Hu; subst; discriminate. }
  destruct (set_prop s "areaID" real) as [a |] eqn:Ea; [| discriminate]. simpl in Hw.
  destruct (get_set_same _ _ _ _ Ho Ea) as [G1 Ho1].
  destruct (get_set_same _ _ _ _ Ho1 Hw) as [G2 _].
  split; [| exact G2].
  rewrite (get_set_other _ _ _ _ "areaID" Hw) by reflexivity. exact G1.
Qed.

(** X19.  A table entry taken for temporary because of its [id] alone, with
    no [areaid], takes over every seat descriptor that lacks one of its two
    area references: the loop compares them with [undefined], so each such
    seat leaves with both references set to the area created for the entry,
    whatever area it named. *)
Theorem entry_without_areaid_takes_unreferenced_seats :
  forall lugarIDDelEvento table asientos w r w',
    isTempTable table = Val true ->
    get_prop table "areaid" = Val VUndef ->
    create_area lugarIDDelEvento table asientos w = (Val r, w') ->
    exists realAreaId,
      get_prop (fst r) "areaid" = Val (VNum realAreaId)
      /\ In realAreaId (map Area.areaID (tbl_Area (current w')))
      /\ Forall2 (fun asiento asiento' =>
                    is_object asiento = true ->
                    get_prop asiento "areaID" = Val VUndef
                    \/ get_prop asiento "areaid" = Val VUndef ->
                    get_prop asiento' "areaID" = Val (VNum realAreaId)
                    /\ get_prop asiento' "areaid" = Val (VNum realAreaId))
                 asientos (snd r).
Proof.
  intros lugar table asientos w r w' Ht Hu H.
  destruct (create_area_inv _ _ _ _ _ _ Ht H)
    as [tmp [nombre [id [capacidad [tipo [row [Ha [_ [_ [_ [_ [Hins [Ga [_ Hfe]]]]]]]]]]]]]].
  assert (tmp = VUndef) by congruence. subst tmp.
  apply insert_area_inv in Hins. destruct Hins as [nm [cp [tp [_ [_ [_ [_ Hd]]]]]]].
  exists (Area.areaID row). split; [exact Ga |]. split.
  - rewrite Hd. simpl. rewrite map_app. apply in_or_app. right. left. reflexivity.
  - apply for_each_Forall2 in Hfe.
    eapply Forall2_impl; [| exact Hfe]. intros s s' Hr Ho Hs.
    eapply retarget_undefined; eauto.
Qed.
(** *** The answer of a deletion *)

Lemma client_query_select_val {P A} (o : outcome P) (f : P -> database -> A) w a w' :
  client_query (with_param o (fun p => select (f p))) w = (Val a, w') ->
  exists p, o = Val p /\ a = f p (current w) /\ current w' = current w.
Proof.
  intros H. apply client_query_val_inv in H. destruct H as [H _].
  apply with_param_select_inv in H. destruct H as [_ H].
  destruct (H _ _ eq_refl) as [-> [p [-> ->]]]. eauto.
Qed.

Lemma layout_of_none d eid :
  layout_of d eid = None ->
  filter (fun c => eqb_opt (Some eid) (Croquis.eventoID c)) (tbl_Croquis d) = [].
Proof.
  unfold layout_of. destruct (filter _ (tbl_Croquis d)); [reflexivity | discriminate].
Qed.

(** X20.  When an area is deleted for an event that has no layout document,
    the answer carries the document [{ tables: [] }], which is stored
    nowhere: the event still has no document afterwards, and a GET that no
    connection fault hits answers [null] for it. *)
Theorem delete_area_answers_a_document_it_does_not_store :
  forall eventoID areaID eid w s layoutConfig seats w',
    pending w = None ->
    pg_int4 (VStr eventoID) = Val (Some eid) ->
    layout_of (committed w) eid = None ->
    delete_area_route eventoID areaID w = (Val (Layout s layoutConfig seats), w') ->
    layoutConfig = VObj [("tables", VArr [] [])]
    /\ layout_of (committed w') eid = None
    /\ ((forall n, faulty w' n = false) ->
        exists seats', fst (get_layout eventoID w') = Val (Layout 200 VNull seats')).
Proof.
  intros eventoID areaID eid w s cfg seats w' Hp He Hnone H.
  unfold delete_area_route in H.
  destruct (orb _ _); [discriminate |].
  apply try_catch_val_inv in H. destruct H as [H | [e [w1 [_ H]]]].
  2:{ apply bind_val_inv in H. destruct H as [? [? [_ H]]]. discriminate. }
  apply bind_val_inv in H. destruct H as [[] [w1 [Hb H]]].
  assert (E1 : current w1 = committed w).
  { unfold client_begin in Hb. rewrite Hp in Hb.
    destruct (faulty w (issued w)); [discriminate |]. inversion Hb. reflexivity. }
  apply bind_val_inv in H. destruct H as [eventCheck [w2 [Hq H]]].
  apply client_query_select_val in Hq. destruct Hq as [id [Hid [Hrows E2]]].
  destruct eventCheck as [| ev evs].
  { apply bind_val_inv in H. destruct H as [? [? [_ H]]]. discriminate. }
  apply bind_val_inv in H. destruct H as [areaCheck [w3 [Hq H]]].
  assert (E3 : current w3 = current w2).
  { apply client_query_val_inv in Hq. destruct Hq as [Hq _].
    unfold select_area_of_event, with_param, select in Hq.
    destruct (pg_int4 (VStr areaID)); [| discriminate].
    destruct (pg_int4 (VStr eventoID)); [| discriminate].
    inversion Hq. auto. }
  destruct areaCheck as [| ar ars].
  { apply bind_val_inv in H. destruct H as [? [? [_ H]]]. discriminate. }
  apply bind_val_inv in H. destruct H as [n [w4 [Hq4 H]]].
  assert (E4 : tbl_Croquis (current w4) = tbl_Croquis (current w3)
               /\ tbl_Evento (current w4) = tbl_Evento (current w3)).
  { apply client_query_val_inv in Hq4. destruct Hq4 as [Hq4 _].
    unfold delete_area, with_param in Hq4.
    destruct (pg_int4 (VStr areaID)); [| discriminate].
    inversion Hq4 as [[Hn Hd Hs]]. split; reflexivity. }
  destruct E4 as [E4 E4e].
  destruct n as [| n].
  { apply bind_val_inv in H. destruct H as [? [? [_ H]]]. discriminate. }
  apply bind_val_inv in H. destruct H as [[] [w5 [Hpr H]]].
  assert (Hcr : tbl_Croquis (current w4) = tbl_Croquis (committed w)) by congruence.
  assert (E5 : current w5 = current w4).
  { unfold prune_croquis in Hpr.
    apply bind_val_inv in Hpr. destruct Hpr as [rows [w4' [Hqs Hpr]]].
    apply client_query_select_val in Hqs. destruct Hqs as [id' [Hid' [Hr E]]].
    assert (id' = Some eid) by congruence. subst id'.
    rewrite Hcr, (layout_of_none _ _ Hnone) in Hr. subst rows.
    apply ret_inv in Hpr. destruct Hpr as [_ ->]. exact E. }
  apply bind_val_inv in H. destruct H as [[] [w6 [Hc H]]].
  apply client_commit_ok in Hc. destruct Hc as [Hc6 [Hp6 [Hf6 _]]].
  unfold delete_area_final in H.
  apply bind_val_inv in H. destruct H as [cfgs [w7 [H7 H]]].
  apply bind_val_inv in H. destruct H as [sts [w8 [H8 H]]].
  apply (client_query_select_at_rest _ _ _ _ _ Hp6) in H7.
  destruct H7 as [[id7 [Hid7 Hcfgs]] [Hc7 [Hp7 _]]].
  apply (client_query_select_at_rest _ _ _ _ _ Hp7) in H8.
  destruct H8 as [_ [Hc8 _]].
  apply ret_inv in H. destruct H as [H ->]. inversion H; subst s cfg seats. clear H.
  assert (id7 = Some eid) by congruence. subst id7.
  assert (Hcr6 : tbl_Croquis (committed w6) = tbl_Croquis (committed w)) by congruence.
  assert (Hev6 : tbl_Evento (committed w6) = tbl_Evento (committed w)) by congruence.
  assert (Hempty : filter (fun c => eqb_opt (Some eid) (Croquis.eventoID c))
                          (tbl_Croquis (committed w6)) = []).
  { rewrite Hcr6. apply layout_of_none, Hnone. }
  split; [| split].
  - rewrite Hcfgs, Hempty. reflexivity.
  - unfold layout_of. rewrite Hc8, Hc7, Hempty. reflexivity.
  - intros Hf.
    assert (Hin : In ev (tbl_Evento (committed w8))).
    { rewrite Hc8, Hc7, Hev6, <- E1.
      assert (Hin : In ev (ev :: evs)) by (left; reflexivity).
      rewrite Hrows in Hin. apply filter_In in Hin. apply Hin. }
    assert (Hide : Evento.eventoID ev = eid).
    { assert (Hin' : In ev (ev :: evs)) by (left; reflexivity).
      rewrite Hrows in Hin'. apply filter_In in Hin'. destruct Hin' as [_ Hc].
      assert (id = Some eid) by congruence. subst id.
      simpl in Hc. apply Z.eqb_eq in Hc. auto. }
    rewrite (get_layout_run eventoID eid ev w8 Hf He Hin Hide).
    rewrite Hc8, Hc7, Hempty. simpl. eauto.
Qed.
(** *** All or nothing *)

Lemma final_response_committed eventoID w :
  pending w = None ->
  committed (snd (final_response eventoID w)) = committed w.
Proof.
  intros Hp. symmetry.
  apply (evolves_at_rest eq w _ Hp).
  apply (final_response_evolves eq); congruence.
Qed.

Lemma put_layout_transaction_committed ev eventoID config items w :
  pending w = None ->
  committed (snd (put_layout_transaction ev eventoID config items w)) = committed w
  \/ exists lugar w1 w2,
      Evento.lugarID ev = Some lugar
      /\ current w1 = committed w
      /\ reconcile lugar eventoID config items w1 = (Val tt, w2)
      /\ committed (snd (put_layout_transaction ev eventoID config items w)) = current w2.
Proof.
  intros Hp.
  destruct (put_layout_transaction ev eventoID config items w) as [o w'] eqn:H.
  simpl. unfold put_layout_transaction in H.
  apply bind_inv in H. destruct H as [[[] [w1 [Hb H]]] | [e [Hb _]]].
  2:{ left. apply (client_begin_committed _ _ _ Hb). }
  assert (Hw1 : committed w1 = committed w /\ current w1 = committed w
                /\ pending w1 <> None).
  { unfold client_begin in Hb. rewrite Hp in Hb.
    destruct (faulty w (issued w)); [discriminate |]. inversion Hb.
    unfold current. simpl. repeat split; auto. discriminate. }
  destruct Hw1 as [C1 [E1 P1]].
  destruct (Evento.lugarID ev) as [lugar |] eqn:El.
  2:{ left. apply rollback_and_answer_committed in H. congruence. }
  pose proof (reconcile_in_transaction lugar eventoID config items w1 P1) as Hin.
  apply bind_inv in H. destruct H as [[[] [w2 [Hr H]]] | [e [Hr _]]].
  2:{ left. rewrite Hr in Hin. simpl in Hin. destruct Hin as [Hin _]. congruence. }
  rewrite Hr in Hin. simpl in Hin. destruct Hin as [C2 P2].
  apply bind_inv in H. destruct H as [[[] [w3 [Hc H]]] | [e [Hc _]]].
  2:{ left. apply client_commit_throw in Hc. congruence. }
  apply client_commit_ok in Hc. destruct Hc as [C3 [P3 _]].
  right. exists lugar, w1, w2. split; [reflexivity |]. split; [exact E1 |].
  split; [exact Hr |].
  pose proof (final_response_committed eventoID w3 P3) as Hf.
  rewrite H in Hf. simpl in Hf. congruence.
Qed.

(** What a PUT leaves committed: the tables of before, or those of a
    complete run of steps 2 to 4. *)
Lemma put_layout_committed (P : database -> Prop) eventoID config asientos w :
  pending w = None ->
  P (committed w) ->
  (forall ev lugar items props w1 w2,
      In ev (tbl_Evento (committed w)) ->
      pg_int4 (VStr eventoID) = Val (Some (Evento.eventoID ev)) ->
      Evento.lugarID ev = Some lugar ->
      asientos = VArr items props ->
      current w1 = committed w ->
      reconcile lugar eventoID config items w1 = (Val tt, w2) ->
      P (current w2)) ->
  P (committed (snd (put_layout eventoID config asientos w))).
Proof.
  intros Hp Hsame Hrun.
  destruct (put_layout eventoID config asientos w) as [o w'] eqn:H. cbn [snd].
  unfold put_layout, try_catch in H.
  destruct (bind (pool_query (select_evento (VStr eventoID))) _ w) as [o1 wa] eqn:HA.
  assert (Hw' : committed w' = committed wa).
  { destruct o1; inversion H; reflexivity. }
  rewrite Hw'. clear H Hw'.
  apply bind_inv in HA. destruct HA as [[rows [w0 [Hq H]]] | [e [Hq _]]].
  2:{ pose proof (pool_query_select_evento_frame (VStr eventoID) w) as F.
      rewrite Hq in F. simpl in F. subst wa. exact Hsame. }
  pose proof (pool_query_select_evento_frame (VStr eventoID) w) as F.
  rewrite Hq in F. simpl in F.
  assert (C0 : committed w0 = committed w) by (subst w0; reflexivity).
  assert (P0 : pending w0 = None) by (subst w0; exact Hp).
  apply pool_query_select_inv in Hq. destruct Hq as [id [Hid Hrows]].
  destruct rows as [| ev rest].
  { apply ret_inv in H. destruct H as [_ ->]. rewrite C0. exact Hsame. }
  destruct (andb _ _).
  { apply ret_inv in H. destruct H as [_ ->]. rewrite C0. exact Hsame. }
  destruct asientos as [| | | | | items props |];
    try (apply ret_inv in H; destruct H as [_ ->]; rewrite C0; exact Hsame).
  unfold try_catch in H.
  pose proof (put_layout_transaction_committed ev eventoID config items w0 P0) as Ht.
  destruct (put_layout_transaction ev eventoID config items w0) as [o2 wt] eqn:Htx.
  simpl in Ht.
  assert (Hwa : committed wa = committed wt).
  { destruct o2 as [r | e].
    - inversion H. reflexivity.
    - apply rollback_and_answer_committed in H. exact H. }
  rewrite Hwa.
  destruct Ht as [Ht | [lugar [w1 [w2 [El [E1 [Hr Hc]]]]]]];
    [rewrite Ht, C0; exact Hsame |].
  assert (Hin : In ev (filter (fun e => eqb_opt id (Evento.eventoID e))
                              (tbl_Evento (committed w)))).
  { rewrite <- Hrows. left. reflexivity. }
  apply filter_In in Hin. destruct Hin as [Hin Hev].
  destruct id as [eid |]; [| discriminate]. simpl in Hev. apply Z.eqb_eq in Hev.
  rewrite Hc. apply (Hrun ev lugar items props w1 w2); auto.
  - rewrite Hid, Hev. reflexivity.
  - rewrite E1. exact C0.
Qed.

(** X21.  A PUT is all or nothing, whatever its answer and whatever the
    connection does: the committed tables afterwards are those of before, or
    those a complete run of steps 2 to 4, started on the tables of before for
    the venue of the event, has left; never those of a run that stopped
    halfway. *)
Theorem put_layout_is_all_or_nothing :
  forall eventoID configuracionCroquis asientos w,
    pending w = None ->
    committed (snd (put_layout eventoID configuracionCroquis asientos w)) = committed w
    \/ exists ev lugarIDDelEvento items props w1 w2,
        In ev (tbl_Evento (committed w))
        /\ pg_int4 (VStr eventoID) = Val (Some (Evento.eventoID ev))
        /\ Evento.lugarID ev = Some lugarIDDelEvento
        /\ asientos = VArr items props
        /\ current w1 = committed w
        /\ reconcile lugarIDDelEvento eventoID configuracionCroquis items w1 = (Val tt, w2)
        /\ committed (snd (put_layout eventoID configuracionCroquis asientos w))
           = current w2.
Proof.
  intros eventoID config asientos w Hp.
  set (d' := committed (snd (put_layout eventoID config asientos w))).
  apply (put_layout_committed
           (fun d =>
              d = committed w
              \/ exists ev lugar items props w1 w2,
                  In ev (tbl_Evento (committed w))
                  /\ pg_int4 (VStr eventoID) = Val (Some (Evento.eventoID ev))
                  /\ Evento.lugarID ev = Some lugar
                  /\ asientos = VArr items props
                  /\ current w1 = committed w
                  /\ reconcile lugar eventoID config items w1 = (Val tt, w2)
                  /\ d = current w2)
           eventoID config asientos w Hp).
  - left. reflexivity.
  - intros ev lugar items props w1 w2 Hin Hid El Has E1 Hr.
    right. exists ev, lugar, items, props, w1, w2. auto 10.
Qed.
(** *** The seats of the other venues *)

Section TracksWrites.
Variable Q : database -> database -> Prop.
Hypothesis Q_refl : forall d, Q d d.
Hypothesis Q_trans : forall a b c, Q a b -> Q b c -> Q a c.
Hypothesis Q_insert_area : forall n c t l, stmt_keeps Q (insert_area n c t l).
Hypothesis Q_update_croquis : forall c e, stmt_keeps Q (update_croquis c e).
Hypothesis Q_insert_croquis : forall e c, stmt_keeps Q (insert_croquis e c).

Let Tr := tracks_refl Q Q_refl.
Let Tt := tracks_trans Q Q_trans.

Lemma create_area_tracks lugar table asientos :
  preserves (tracks Q) (create_area lugar table asientos).
Proof.
  unfold create_area.
  do 6 (apply (preserves_bind _ Tt); [apply preserves_lift, Tr | intros ?]).
  apply (preserves_bind _ Tt);
    [apply (client_query_tracks _ Q_refl), Q_insert_area | intros ?].
  do 3 (apply (preserves_bind _ Tt); [apply preserves_lift, Tr | intros ?]).
  apply preserves_ret, Tr.
Qed.

Lemma remap_tables_tracks lugar tables :
  forall asientos, preserves (tracks Q) (remap_tables lugar tables asientos).
Proof.
  induction tables as [| table rest IH]; intros asientos; simpl.
  - apply preserves_ret, Tr.
  - apply (preserves_bind _ Tt); [apply preserves_lift, Tr |].
    intros [|].
    + apply (preserves_bind _ Tt); [apply create_area_tracks |].
      intros r. apply (preserves_bind _ Tt); [apply IH |].
      intros r'. apply preserves_ret, Tr.
    + apply (preserves_bind _ Tt); [apply IH |].
      intros r'. apply preserves_ret, Tr.
Qed.

Lemma remap_layout_tracks lugar config asientos :
  preserves (tracks Q) (remap_layout lugar config asientos).
Proof.
  unfold remap_layout. destruct (truthy config); [| apply preserves_ret, Tr].
  apply (preserves_bind _ Tt); [apply preserves_lift, Tr |].
  intros tables. destruct tables; try apply preserves_ret, Tr.
  apply (preserves_bind _ Tt); [apply remap_tables_tracks |].
  intros r. apply (preserves_bind _ Tt); [apply preserves_lift, Tr |].
  intros c. apply preserves_ret, Tr.
Qed.

Lemma upsert_croquis_tracks eventoID config :
  preserves (tracks Q) (upsert_croquis eventoID config).
Proof.
  unfold upsert_croquis.
  apply (preserves_bind _ Tt);
    [apply (client_query_tracks _ Q_refl), select_croquis_id_keeps, Q_refl |].
  intros rows. destruct (is_undefined config); [apply preserves_ret, Tr |].
  destruct rows; apply (client_query_tracks _ Q_refl); auto.
Qed.
End TracksWrites.

Lemma spares_refl lugar d : spares lugar d d.
Proof.
  intros Hk. split; [exact Hk |]. split; [exists []; rewrite app_nil_r; reflexivity |].
  auto.
Qed.

Lemma spares_trans lugar a b c :
  spares lugar a b -> spares lugar b c -> spares lugar a c.
Proof.
  intros H1 H2 Ka. destruct (H1 Ka) as [Kb [[x1 A1] S1]].
  destruct (H2 Kb) as [Kc [[x2 A2] S2]].
  split; [exact Kc |]. split.
  - exists (x1 ++ x2)%list. rewrite A2, A1, app_assoc. reflexivity.
  - intros s Hs Hf. destruct (S1 s Hs Hf) as [Hb Hfb]. apply S2; assumption.
Qed.

(** Tables whose Area and Seat rows are the same. *)
Lemma spares_same lugar d d' :
  tbl_Area d' = tbl_Area d -> tbl_Asiento d' = tbl_Asiento d -> spares lugar d d'.
Proof.
  intros A S Hk. unfold keys_ok, area_in_lugar in *. rewrite A, S.
  split; [exact Hk |]. split; [exists []; rewrite app_nil_r; reflexivity |]. auto.
Qed.

Lemma update_croquis_spares lugar c e : stmt_keeps (spares lugar) (update_croquis c e).
Proof.
  unfold update_croquis. do 2 (apply with_param_keeps; intros ? _).
  intros d q a d' q' H. inversion H; subst. apply spares_same; reflexivity.
Qed.

Lemma insert_croquis_spares lugar e c : stmt_keeps (spares lugar) (insert_croquis e c).
Proof.
  unfold insert_croquis. do 2 (apply with_param_keeps; intros ? _).
  intros d q a d' q' H. run_stmt H. apply spares_same; reflexivity.
Qed.

Lemma insert_area_spares lugar n c t l : stmt_keeps (spares lugar) (insert_area n c t l).
Proof.
  unfold insert_area. do 3 (apply with_param_keeps; intros ? _).
  intros d q row d' q' H.
  destruct (negb (0 <? p0)); [discriminate |].
  destruct (negb (mem_Z l (tbl_Lugar d))); [discriminate |].
  destruct (mem_Z _ (map Area.areaID (tbl_Area d))) eqn:Hpk; [discriminate |].
  inversion H; subst. clear H. intros [Ka [Ks Kf]].
  assert (Hfresh : ~ In (area_areaid_seq q) (map Area.areaID (tbl_Area d))).
  { intros Hin. apply mem_Z_In in Hin. congruence. }
  split; [| split].
  - unfold keys_ok. simpl. split; [| split].
    + rewrite map_app. simpl. apply NoDup_app; [exact Ka | repeat constructor; auto |].
      intros x Hx [<- | []]. exact (Hfresh Hx).
    + exact Ks.
    + intros a Ha. rewrite map_app. apply in_or_app. left. apply Kf, Ha.
  - eexists. reflexivity.
  - intros a Ha Hf. simpl. split; [exact Ha |].
    unfold area_in_lugar in *. cbn [tbl_Area with_Area].
    rewrite existsb_app, Hf. cbn [existsb orb Area.areaID].
    destruct (area_areaid_seq q =? Asiento.areaID a) eqn:E; [| reflexivity].
    apply Z.eqb_eq in E. exfalso. apply Hfresh. rewrite E. apply Kf, Ha.
Qed.
Lemma insert_asiento_spares lugar co fi cl es ar :
  stmt_keeps (spares lugar) (insert_asiento co fi cl es ar).
Proof.
  unfold insert_asiento. do 5 (apply with_param_keeps; intros ? _).
  intros d q row d' q' H.
  destruct (negb (mem_Z p3 (map Area.areaID (tbl_Area d)))) eqn:Hfk; [discriminate |].
  destruct (mem_Z _ (map Asiento.asientoID (tbl_Asiento d))) eqn:Hpk; [discriminate |].
  inversion H; subst. clear H. intros [Ka [Ks Kf]].
  apply negb_false_iff, mem_Z_In in Hfk.
  assert (Hfresh : ~ In (asiento_asientoid_seq q)
                        (map Asiento.asientoID (tbl_Asiento d))).
  { intros Hin. apply mem_Z_In in Hin. congruence. }
  split; [| split].
  - unfold keys_ok. simpl. split; [exact Ka |]. split.
    + rewrite map_app. simpl. apply NoDup_app; [exact Ks | repeat constructor; auto |].
      intros x Hx [<- | []]. exact (Hfresh Hx).
    + intros a Ha. apply in_app_or in Ha. destruct Ha as [Ha | [<- | []]];
        [apply Kf, Ha | exact Hfk].
  - exists []. simpl. rewrite app_nil_r. reflexivity.
  - intros a Ha Hf. simpl. split; [apply in_or_app; left; exact Ha | exact Hf].
Qed.

Lemma NoDup_map_same {A B} (f : A -> B) l x y :
  NoDup (map f l) -> In x l -> In y l -> f x = f y -> x = y.
Proof.
  induction l as [| z l IH]; simpl; intros Hnd Hx Hy E; [contradiction |].
  inversion Hnd as [| ? ? Hz Hl]; subst.
  destruct Hx as [-> | Hx], Hy as [-> | Hy]; auto.
  - exfalso. apply Hz. rewrite E. apply in_map, Hy.
  - exfalso. apply Hz. rewrite <- E. apply in_map, Hx.
Qed.

(** The UPDATE behind the check of lines 221-225. *)
Lemma update_in_venue_spares lugar oid es d x rows :
  flat_map (fun a =>
    flat_map (fun ar =>
      if andb (Asiento.areaID a =? Area.areaID ar)
              (andb (eqb_opt oid (Asiento.asientoID a)) (Area.lugarID ar =? lugar))
      then [Asiento.asientoID a] else [])
      (tbl_Area d))
    (tbl_Asiento d) = x :: rows ->
  spares lugar d
    (with_Asiento (map (fun r => if eqb_opt oid (Asiento.asientoID r)
                                 then Asiento.with_estado es r else r)
                       (tbl_Asiento d)) d).
Proof.
  intros Hrows [Ka [Ks Kf]].
  assert (Hx : In x (x :: rows)) by (left; reflexivity).
  rewrite <- Hrows in Hx.
  apply in_flat_map in Hx. destruct Hx as [s [Hs Hx]].
  apply in_flat_map in Hx. destruct Hx as [ar [Har Hx]].
  destruct (andb (Asiento.areaID s =? Area.areaID ar)
                 (andb (eqb_opt oid (Asiento.asientoID s)) (Area.lugarID ar =? lugar)))
    eqn:Hc; [| destruct Hx].
  apply andb_true_iff in Hc. destruct Hc as [C1 Hc].
  apply andb_true_iff in Hc. destruct Hc as [C2 C3].
  assert (Hin : area_in_lugar d (Asiento.areaID s) lugar = true).
  { unfold area_in_lugar. apply existsb_exists. exists ar. split; [exact Har |].
    apply Z.eqb_eq in C1. rewrite C1, Z.eqb_refl, C3. reflexivity. }
  set (f := fun r => if eqb_opt oid (Asiento.asientoID r)
                     then Asiento.with_estado es r else r).
  assert (Hid : forall r, Asiento.asientoID (f r) = Asiento.asientoID r).
  { intros r. unfold f. destruct (eqb_opt oid (Asiento.asientoID r)); reflexivity. }
  assert (Har' : forall r, Asiento.areaID (f r) = Asiento.areaID r).
  { intros r. unfold f. destruct (eqb_opt oid (Asiento.asientoID r)); reflexivity. }
  split; [| split].
  - unfold keys_ok. simpl. split; [exact Ka |]. split.
    + rewrite map_map. rewrite (map_ext _ _ Hid). exact Ks.
    + intros a Ha. apply in_map_iff in Ha. destruct Ha as [r [<- Hr]].
      rewrite Har'. apply Kf, Hr.
  - exists []. simpl. rewrite app_nil_r. reflexivity.
  - intros a Ha Hf. simpl. split; [| exact Hf].
    apply in_map_iff. exists a. split; [| exact Ha].
    unfold f. destruct (eqb_opt oid (Asiento.asientoID a)) eqn:E; [| reflexivity].
    exfalso. destruct oid as [n |]; [| discriminate]. simpl in C2, E.
    apply Z.eqb_eq in C2, E.
    assert (a = s).
    { apply (NoDup_map_same Asiento.asientoID (tbl_Asiento d)); auto. congruence. }
    subst a. congruence.
Qed.

Lemma process_seat_spares lugar asiento :
  preserves (tracks (spares lugar)) (process_seat lugar asiento).
Proof.
  pose proof (tracks_refl _ (spares_refl lugar)) as Tr.
  pose proof (tracks_trans _ (spares_trans lugar)) as Tt.
  unfold process_seat.
  apply (preserves_bind _ Tt); [apply preserves_lift, Tr |].
  intros [|].
  - apply (preserves_bind _ Tt); [apply preserves_lift, Tr |]. intros areaID.
    apply (preserves_bind _ Tt); [apply preserves_lift, Tr |]. intros [|].
    { repeat (apply (preserves_bind _ Tt); [apply preserves_lift, Tr | intros ?]).
      apply preserves_ret, Tr. }
    do 5 (apply (preserves_bind _ Tt); [apply preserves_lift, Tr | intros ?]).
    apply (preserves_bind _ Tt); [| intros ?; apply preserves_ret, Tr].
    apply (client_query_tracks _ (spares_refl lugar)), insert_asiento_spares.
  - apply (preserves_bind _ Tt); [apply preserves_lift, Tr |]. intros id.
    intros w. unfold bind at 1.
    destruct (client_query (select_asiento_in_lugar id lugar) w) as [[rows | e] w1] eqn:Hq.
    2:{ apply client_query_throw_inv in Hq. destruct Hq as [C P].
        unfold tracks, ret. cbn [snd]. rewrite (current_same _ _ C P). apply spares_refl. }
    apply client_query_select_val in Hq. destruct Hq as [oid [Hoid [Hrows E1]]].
    destruct rows as [| x rows].
    { unfold tracks, bind, lift, ret. destruct (ToString id); cbn [snd];
        rewrite E1; apply spares_refl. }
    unfold bind at 1, lift at 1.
    destruct (get_prop asiento "estado") as [estado |];
      [| unfold tracks, ret; cbn [snd]; rewrite E1; apply spares_refl].
    unfold bind at 1, lift at 1.
    destruct (call_toUpperCase estado) as [upper |];
      [| unfold tracks, ret; cbn [snd]; rewrite E1; apply spares_refl].
    destruct (client_query (update_asiento_estado (VStr upper) id) w1)
      as [[[] | e] w2] eqn:Hu.
    + apply client_query_val_inv in Hu. destruct Hu as [Hu _].
      unfold update_asiento_estado, with_param in Hu.
      destruct (obind _ _) as [es |]; [| discriminate].
      rewrite Hoid in Hu. inversion Hu as [[Hd Hs]].
      unfold tracks, ret. cbn [snd]. rewrite <- Hd, E1.
      apply (update_in_venue_spares lugar oid es (current w) x rows).
      symmetry. exact Hrows.
    + apply client_query_throw_inv in Hu. destruct Hu as [C P].
      unfold tracks, ret. cbn [snd]. rewrite (current_same _ _ C P), E1. apply spares_refl.
Qed.

Lemma reconcile_spares lugar eventoID config asientos :
  preserves (tracks (spares lugar)) (reconcile lugar eventoID config asientos).
Proof.
  pose proof (tracks_refl _ (spares_refl lugar)) as Tr.
  pose proof (tracks_trans _ (spares_trans lugar)) as Tt.
  unfold reconcile.
  apply (preserves_bind _ Tt).
  { apply (remap_layout_tracks _ (spares_refl lugar) (spares_trans lugar)).
    apply insert_area_spares. }
  intros r. apply (preserves_bind _ Tt).
  { apply (upsert_croquis_tracks _ (spares_refl lugar) (spares_trans lugar));
      auto using update_croquis_spares, insert_croquis_spares. }
  intros _.
  apply (preserves_process_list _ Tr Tt (fun _ => True) (process_seat lugar)).
  - intros [| x r']; reflexivity.
  - intros x _. apply process_seat_spares.
  - apply Forall_forall. trivial.
Qed.

(** X22.  A PUT for an event held at one venue never changes or removes a
    seat that lies outside that venue: on a store that honours the keys of
    [schema.sql], every Seat row whose area is not an area of the venue of
    the event is, after the request and whatever its outcome, still there
    and as it was. *)
Theorem put_layout_spares_the_other_venues :
  forall eventoID configuracionCroquis asientos w lugarIDDelEvento a,
    pending w = None ->
    keys_ok (committed w) ->
    (forall ev, In ev (tbl_Evento (committed w)) ->
                pg_int4 (VStr eventoID) = Val (Some (Evento.eventoID ev)) ->
                Evento.lugarID ev = Some lugarIDDelEvento) ->
    In a (tbl_Asiento (committed w)) ->
    area_in_lugar (committed w) (Asiento.areaID a) lugarIDDelEvento = false ->
    In a (tbl_Asiento (committed (snd (put_layout eventoID configuracionCroquis
                                                   asientos w)))).
Proof.
  intros eventoID config asientos w L a Hp Hk Hev Ha Hf.
  apply (put_layout_committed (fun d => In a (tbl_Asiento d))
           eventoID config asientos w Hp Ha).
  intros ev lugar items props w1 w2 Hin Hid El _ E1 Hr.
  assert (lugar = L).
  { specialize (Hev ev Hin Hid). congruence. }
  subst lugar.
  pose proof (reconcile_spares L eventoID config items w1) as Hs.
  rewrite Hr in Hs. unfold tracks in Hs. simpl in Hs. rewrite E1 in Hs.
  destruct (Hs Hk) as [_ [_ Hframe]]. apply Hframe; assumption.
Qed.

(* ------------------------------------------------------------------------- *)
(** ** The reconciler, step by step *)


(** *** Where the Seat rows come from *)
















(** *** Letter case *)

Lemma toUpperCase_capital d r :
  andb (Nat.leb 65 (nat_of_ascii d)) (Nat.leb (nat_of_ascii d) 90) = true ->
  toUpperCase (String d r) = String d (toUpperCase r)
  /\ toUpperCase (String (ascii_of_nat (nat_of_ascii d + 32)) r) = String d (toUpperCase r).
Proof.
  destruct d as [[] [] [] [] [] [] [] []]; simpl; try discriminate; intros _;
    split; reflexivity.
Qed.

Lemma spells_toUpperCase l :
  capitals l = true -> forall e, spells e l = true -> toUpperCase e = l.
Proof.
  induction l as [| d l IH]; intros Hl e He.
  - destruct e; [reflexivity | discriminate].
  - destruct e as [| c e]; [discriminate |]. cbn [spells capitals] in *.
    apply andb_true_iff in Hl. destruct Hl as [Hd Hl].
    apply andb_true_iff in He. destruct He as [Hc He].
    destruct (toUpperCase_capital d e Hd) as [U1 U2].
    rewrite (IH Hl e He) in U1, U2.
    apply orb_true_iff in Hc. destruct Hc as [Hc | Hc].
    + apply Ascii.eqb_eq in Hc. subst c. exact U1.
    + apply Nat.eqb_eq in Hc. rewrite <- Hc in U2.
      rewrite ascii_nat_embedding in U2. exact U2.
Qed.

Lemma estado_asiento_capitals l : In l estado_asiento -> capitals l = true.
Proof.
  intros H. repeat (destruct H as [<- | H]; [reflexivity |]). destruct H.
Qed.
(** C10.  The state of a seat descriptor goes to the server in upper case: a
    descriptor whose state spells a label of [estado_asiento] in whatever
    letter case is written with that label, by the INSERT of a new seat (when
    the server accepts the row) as by the UPDATE of a seat of the venue.  And
    after a reconciliation, whatever its outcome, every Seat row that was not
    already there as it is carries a label of the enumeration that is the
    upper-case form of a state submitted in the request. *)
Theorem put_layout_normalises_estado :
  forall lugarIDDelEvento asiento e l w,
    get_prop asiento "estado" = Val (VStr e) ->
    In l estado_asiento ->
    spells e l = true ->
    faulty w (issued w) = false ->
    (forall areaID codigo fila columna row d' q',
        isNewSeat asiento = Val true ->
        get_prop asiento "areaID" = Val areaID ->
        invalid_areaID areaID = Val false ->
        get_prop asiento "codigo" = Val codigo ->
        get_prop asiento "fila" = Val fila ->
        get_prop asiento "columna" = Val columna ->
        insert_asiento codigo (js_or fila VNull) (js_or columna VNull) (VStr l) areaID
                       (current w) (seqs w)
        = (Val (row, d'), q') ->
        exists w',
          process_seat lugarIDDelEvento asiento w = (Val tt, w')
          /\ tbl_Asiento (current w') = (tbl_Asiento (current w) ++ [row])%list
          /\ Asiento.estado row = l)
    /\ (forall id n a,
          isNewSeat asiento = Val false ->
          get_prop asiento "asientoID" = Val id ->
          pg_int4 id = Val (Some n) ->
          In a (tbl_Asiento (current w)) ->
          Asiento.asientoID a = n ->
          area_in_lugar (current w) (Asiento.areaID a) lugarIDDelEvento = true ->
          faulty w (S (issued w)) = false ->
          exists w',
            process_seat lugarIDDelEvento asiento w = (Val tt, w')
            /\ tbl_Asiento (current w')
               = map (fun r => if Asiento.asientoID r =? n
                               then Asiento.with_estado l r else r)
                     (tbl_Asiento (current w)))
    /\ (forall eventoID configuracionCroquis asientos w0,
          pending w0 = None ->
          seats_written (items_of asientos) (committed w0)
            (committed (snd (put_layout eventoID configuracionCroquis asientos w0)))).
Proof.
  intros lugar asiento e l w He Hl Hs F0.
  assert (Hup : toUpperCase e = l)
    by (apply spells_toUpperCase; [apply estado_asiento_capitals, Hl | exact Hs]).
  split; [| split].
  - intros areaID codigo fila columna row d' q' Hnew Ha Hinv Hco Hfi Hcl Hins.
    destruct (client_query_run _ w row d' q' F0 Hins) as [w1 [Hq [C1 _]]].
    exists w1. split.
    + unfold process_seat. rewrite Hnew, Ha, Hco, Hfi, Hcl, He.
      unfold bind at 1, lift at 1. unfold bind at 1, lift at 1. rewrite Hinv.
      unfold bind at 1, lift at 1.
      unfold bind at 1, lift at 1. unfold bind at 1, lift at 1.
      unfold bind at 1, lift at 1. unfold bind at 1, lift at 1.
      cbn [call_toUpperCase]. rewrite Hup.
      unfold bind at 1, lift at 1. unfold bind, ret. rewrite Hq. reflexivity.
    + apply insert_asiento_inv in Hins.
      destruct Hins as [Hen [_ [_ [_ [_ Hd]]]]].
      apply pg_enum_text in Hen. destruct Hen as [Hen _].
      rewrite C1, Hd. split; [reflexivity | exact Hen].
  - intros id n a Hnew Hid Hn Ha Han Hlu F1.
    destruct (select_asiento_in_lugar_found n lugar (current w) a Ha Han Hlu)
      as [x [rows Hrows]].
    destruct (client_query_run (select_asiento_in_lugar id lugar) w (x :: rows)
                (current w) (seqs w) F0) as [w1 [Hq [C1 [S1 [Ff1 I1]]]]].
    { unfold select_asiento_in_lugar, with_param, select. rewrite Hn, Hrows. reflexivity. }
    assert (F1' : faulty w1 (issued w1) = false) by (rewrite Ff1, I1; exact F1).
    destruct (client_query_run (update_asiento_estado (VStr l) id) w1 tt
                (with_Asiento
                   (map (fun r => if eqb_opt (Some n) (Asiento.asientoID r)
                                  then Asiento.with_estado l r else r)
                        (tbl_Asiento (current w1))) (current w1))
                (seqs w1) F1') as [w2 [Hq2 [C2 _]]].
    { unfold update_asiento_estado, with_param, pg_enum. cbn [to_js_string].
      rewrite (In_mem_string _ _ Hl), Hn. reflexivity. }
    exists w2. split.
    + unfold process_seat. rewrite Hnew, Hid, He.
      unfold bind at 1, lift at 1. unfold bind at 1, lift at 1.
      unfold bind at 1. rewrite Hq.
      unfold bind at 1, lift at 1. cbn [call_toUpperCase]. rewrite Hup.
      unfold bind, lift. exact Hq2.
    + rewrite C2, C1. cbn [tbl_Asiento with_Asiento].
      apply map_ext. intros r. simpl. rewrite Z.eqb_sym. reflexivity.
  - apply put_layout_seats_written.
Qed.

(* ------------------------------------------------------------------------- *)
(** ** The theorems at work on sample requests *)

(** The scenario of the specification: one Area row in venue 1, the table
    entry renamed, one Seat row under the new area, in state DISPONIBLE. *)
Example scenario_of_the_specification :
  exists w',
    put_layout "1" Sample.layout Sample.seats Sample.w
    = (Val (Layout 200
              (VObj [("tables",
                      VArr [VObj [("id", VStr "area-1"); ("areaid", VNum 1);
                                  ("nombre", VStr "Mesa 1"); ("capacidad", VNum 8);
                                  ("tipo", VStr "GENERAL")]] [])])
              [{| Asiento.asientoID := 1; Asiento.codigo := Some "A1";
                  Asiento.fila := None; Asiento.columna := None;
                  Asiento.estado := "DISPONIBLE"; Asiento.areaID := 1 |}]), w')
    /\ tbl_Area (committed w')
       = [{| Area.areaID := 1; Area.nombre := "Área Mesa 1"; Area.capacidad := 8;
             Area.tipo := "GENERAL"; Area.lugarID := 1 |}].
Proof. eexists. split; vm_compute; reflexivity. Qed.


Lemma put_layout_error_rolls_back_witness :
  exists message w',
    put_layout "1" Sample.layout (VArr [Sample.seat_without_estado] []) Sample.w
    = (Val (Failure 500 message), w')
    /\ committed w' = committed Sample.w /\ pending w' = None.
Proof.
  eassert (F : fails_before_commit "1" Sample.layout
                 (VArr [Sample.seat_without_estado] []) Sample.w _).
  { eapply fails_in_reconcile with (lugar := 1).
    - vm_compute. reflexivity.
    - split; [right; split; [reflexivity | discriminate] | reflexivity].
    - vm_compute. reflexivity.
    - reflexivity.
    - vm_compute. reflexivity. }
  destruct (put_layout_error_rolls_back _ _ _ _ _ F) as [message [w' [H1 [H2 H3]]]].
  exists message, w'. split; [exact H1 |]. split; [exact H2 |].
  apply H3; reflexivity.
Defined.


Lemma new_seat_is_inserted_witness :
  exists w' row,
    process_seat 1 Sample.seatB2 Sample.w_in_use = (Val tt, w')
    /\ tbl_Asiento (current w') = (tbl_Asiento (current Sample.w_in_use) ++ [row])%list
    /\ Asiento.areaID row = 10
    /\ Asiento.estado row = "RESERVADO".
Proof.
  eassert (E : process_seat 1 Sample.seatB2 Sample.w_in_use = (Val tt, _))
    by (vm_compute; reflexivity).
  destruct (new_seat_is_inserted 1 Sample.seatB2 VUndef (VBool true) Sample.w_in_use
              _ _ eq_refl eq_refl (or_intror (or_intror eq_refl)) E)
    as [_ [areaID [codigo [Ha [_ [_ [Hins _]]]]]]].
  vm_compute in Ha. inversion Ha; subst areaID.
  destruct (Hins eq_refl eq_refl) as [row [e [H1 [_ [H3 [H4 H5]]]]]].
  vm_compute in H3, H4. inversion H3. inversion H4; subst e.
  eexists. exists row. split; [exact E |]. split; [exact H1 |].
  split; [symmetry; assumption | exact H5].
Defined.


Lemma get_layout_after_put_layout_witness :
  exists s layoutConfig seats w',
    put_layout "1" Sample.layout Sample.seats Sample.w
    = (Val (Layout s layoutConfig seats), w')
    /\ s = 200
    /\ fst (get_layout "1" w') = Val (Layout 200 layoutConfig seats)
    /\ Sorted by_asientoID seats.
Proof.
  do 4 eexists. split; [vm_compute; reflexivity |].
  apply (get_layout_after_put_layout "1" Sample.layout Sample.seats Sample.w).
  - reflexivity.
  - split; [repeat constructor; simpl; tauto | intros ar []].
  - vm_compute. reflexivity.
  - intros n _. reflexivity.
Defined.


Lemma put_layout_without_temporaries_creates_nothing_witness :
  same_rows (committed Sample.w_in_use)
            (committed (snd (put_layout "1" Sample.layout_in_use
                               (VArr [Sample.seat100_ocupado] []) Sample.w_in_use))).
Proof.
  apply put_layout_without_temporaries_creates_nothing.
  - reflexivity.
  - intros items props H. vm_compute in H. inversion H; subst.
    repeat constructor; discriminate.
  - repeat constructor; discriminate.
Defined.

Lemma put_layout_normalises_estado_witness :
  (exists w' row,
      process_seat 1 Sample.seatB2 Sample.w_in_use = (Val tt, w')
      /\ tbl_Asiento (current w') = (tbl_Asiento (current Sample.w_in_use) ++ [row])%list
      /\ Asiento.estado row = "RESERVADO")
  /\ (exists w',
        process_seat 1 Sample.seat100_ocupado Sample.w_in_use = (Val tt, w')
        /\ map Asiento.estado (tbl_Asiento (current w')) = ["OCUPADO"; "DISPONIBLE"]).
Proof.
  split.
  - destruct (put_layout_normalises_estado 1 Sample.seatB2 "reservado" "RESERVADO"
                Sample.w_in_use eq_refl (or_intror (or_intror (or_introl eq_refl)))
                eq_refl eq_refl) as [Hnew _].
    eassert (Hins : insert_asiento (VStr "B2") (js_or VUndef VNull) (js_or VUndef VNull)
                      (VStr "RESERVADO") (VNum 10) (current Sample.w_in_use)
                      (seqs Sample.w_in_use) = (Val (_, _), _))
      by (vm_compute; reflexivity).
    destruct (Hnew _ _ _ _ _ _ _ eq_refl eq_refl eq_refl eq_refl eq_refl eq_refl Hins)
      as [w' [H1 [H2 H3]]].
    exists w'. eexists. split; [exact H1 |]. split; [exact H2 | exact H3].
  - destruct (put_layout_normalises_estado 1 Sample.seat100_ocupado "ocupado" "OCUPADO"
                Sample.w_in_use eq_refl (or_intror (or_introl eq_refl))
                eq_refl eq_refl) as [_ [Hold _]].
    destruct (Hold (VNum 100) 100
                {| Asiento.asientoID := 100; Asiento.codigo := Some "A1";
                   Asiento.fila := None; Asiento.columna := None;
                   Asiento.estado := "DISPONIBLE"; Asiento.areaID := 10 |}
                eq_refl eq_refl eq_refl (or_introl eq_refl) eq_refl eq_refl eq_refl)
      as [w' [H1 H2]].
    exists w'. split; [exact H1 |]. rewrite H2. reflexivity.
Defined.

Lemma reread_fault_after_commit_at_work :
  exists message w',
    put_layout "1" Sample.layout Sample.seats Sample.w_reread_fails
    = (Val (Failure 500 message), w')
    /\ List.length (tbl_Area (committed w')) = 1%nat.
Proof.
  edestruct (reread_fault_after_commit "1" Sample.layout Sample.seats
               Sample.w_reread_fails) as [message [w' [H1 H2]]].
  - vm_compute. reflexivity.
  - split; [right; split; [reflexivity | discriminate] | reflexivity].
  - vm_compute. reflexivity.
  - reflexivity.
  - vm_compute. reflexivity.
  - vm_compute. reflexivity.
  - reflexivity.
  - exists message, w'. split; [exact H1 |]. rewrite H2. reflexivity.
Qed.

(** A seat sent with a string for identifier and no marker goes through the
    update: the SELECT is refused and the whole request fails. *)
Example string_id_fails_the_request :
  isNewSeat Sample.seat_with_string_id = Val false
  /\ fst (process_seat 1 Sample.seat_with_string_id Sample.w_in_use)
     = Throw (DbError "invalid input syntax for type integer")
  /\ fst (put_layout "1" VUndef (VArr [Sample.seat_with_string_id] []) Sample.w_in_use)
     = Val (Failure 500 "Error saving layout and seat data")
  /\ committed (snd (put_layout "1" VUndef (VArr [Sample.seat_with_string_id] [])
                       Sample.w_in_use))
     = committed Sample.w_in_use.
Proof. repeat split; vm_compute; reflexivity. Qed.

(** A new seat whose area was never resolved: the INSERT is refused by
    [fk_asiento_area] and the whole request fails. *)
Example unresolved_area_fails_the_request :
  fst (process_seat 1 Sample.seatA1 Sample.w_tx) = Throw (DbError "fk_asiento_area")
  /\ fst (put_layout "1" VUndef Sample.seats Sample.w)
     = Val (Failure 500 "Error saving layout and seat data")
  /\ committed (snd (put_layout "1" VUndef Sample.seats Sample.w)) = committed Sample.w.
Proof. repeat split; vm_compute; reflexivity. Qed.

(** A foreign seat and a new seat without area among good ones: both are
    passed over, the request commits and answers 200 with the other writes
    done (seat 100 updated, seat B2 created) and seat 200 as it was. *)
Example skipped_seats_do_not_fail_the_request :
  exists layoutConfig w',
    put_layout "1" Sample.layout_in_use
      (VArr [Sample.seat200_ocupado; Sample.seat_without_area;
             Sample.seat100_ocupado; Sample.seatB2] []) Sample.w_in_use
    = (Val (Layout 200 layoutConfig
              [{| Asiento.asientoID := 100; Asiento.codigo := Some "A1";
                  Asiento.fila := None; Asiento.columna := None;
                  Asiento.estado := "OCUPADO"; Asiento.areaID := 10 |};
               {| Asiento.asientoID := 201; Asiento.codigo := Some "B2";
                  Asiento.fila := None; Asiento.columna := None;
                  Asiento.estado := "RESERVADO"; Asiento.areaID := 10 |}]), w')
    /\ In {| Asiento.asientoID := 200; Asiento.codigo := Some "S1";
             Asiento.fila := None; Asiento.columna := None;
             Asiento.estado := "DISPONIBLE"; Asiento.areaID := 20 |}
          (tbl_Asiento (committed w')).
Proof. do 2 eexists. split; [vm_compute; reflexivity |]. simpl. auto. Qed.

(** Two new tables sent with the same temporary identifier: two areas are
    created, the seat goes under the first. *)
Example shared_temporary_id_at_work :
  exists w',
    put_layout "1" Sample.twin_layout Sample.seats Sample.w
    = (Val (Layout 200
              (VObj [("tables",
                      VArr [VObj [("id", VStr "area-1"); ("areaid", VNum 1);
                                  ("nombre", VStr "Mesa 1"); ("capacidad", VNum 8);
                                  ("tipo", VStr "GENERAL")];
                            VObj [("id", VStr "area-2"); ("areaid", VNum 2);
                                  ("nombre", VStr "Mesa 2")]] [])])
              [{| Asiento.asientoID := 1; Asiento.codigo := Some "A1";
                  Asiento.fila := None; Asiento.columna := None;
                  Asiento.estado := "DISPONIBLE"; Asiento.areaID := 1 |}]), w').
Proof. eexists. vm_compute. reflexivity. Qed.

(** At the edges of what JavaScript, the driver and the server read.  A state
    spelled with the dotless i is a label once in upper case; an area given
    after a no-break space passes [parseInt] and is refused by the server;
    an object sent for code is stored as its JSON text; the spaces that
    exceed the twenty characters of a code are dropped; and a code that
    cannot be printed fails the seat that was to be passed over. *)
Example seats_at_the_edges :
  (exists w' row,
      process_seat 1 Sample.seat_dotless_i Sample.w_in_use = (Val tt, w')
      /\ In row (tbl_Asiento (current w')) /\ Asiento.asientoID row = 201
      /\ Asiento.estado row = "DISPONIBLE")
  /\ invalid_areaID (VStr Sample.nbsp_10) = Val false
  /\ fst (process_seat 1 Sample.seat_nbsp_area Sample.w_in_use) = Throw int4_syntax
  /\ (exists w' row,
        process_seat 1 Sample.seat_object_code Sample.w_in_use = (Val tt, w')
        /\ In row (tbl_Asiento (current w')) /\ Asiento.asientoID row = 201
        /\ Asiento.codigo row = Some "{}")
  /\ (exists w' row,
        process_seat 1 Sample.seat_padded_code Sample.w_in_use = (Val tt, w')
        /\ In row (tbl_Asiento (current w')) /\ Asiento.asientoID row = 201
        /\ Asiento.codigo row = Some "P1                  ")
  /\ process_seat 1 Sample.seat_unprintable_code Sample.w_in_use
     = (Throw TypeError, Sample.w_in_use).
Proof.
  split; [| split; [| split; [| split; [| split]]]].
  - do 2 eexists. split; [vm_compute; reflexivity |].
    split; [right; right; left; reflexivity | split; reflexivity].
  - reflexivity.
  - vm_compute. reflexivity.
  - do 2 eexists. split; [vm_compute; reflexivity |].
    split; [right; right; left; reflexivity | split; reflexivity].
  - do 2 eexists. split; [vm_compute; reflexivity |].
    split; [right; right; left; reflexivity | split; reflexivity].
  - vm_compute. reflexivity.
Qed.

(** A name that is a number prints as JavaScript prints it. *)
Example area_named_by_a_number :
  area_nombre (VObj [("id", VStr "new-table-1"); ("nombre", VNum (10 ^ 21))])
  = Val (VStr "Área 1e+21").
Proof. vm_compute. reflexivity. Qed.

(* ------------------------------------------------------------------------- *)
(** ** Further theorems at work on sample requests *)

Lemma put_layout_client_error_touches_nothing_witness :
  exists message w',
    put_layout "2" Sample.layout Sample.seats Sample.w = (Val (Failure 404 message), w')
    /\ w' = sent Sample.w (committed Sample.w) (pending Sample.w) (seqs Sample.w).
Proof.
  do 2 eexists. split; [vm_compute; reflexivity |].
  refine (proj1 (put_layout_client_error_touches_nothing
                   "2" Sample.layout Sample.seats Sample.w 404 _ _ _ _)).
  - vm_compute. reflexivity.
  - discriminate.
Defined.

Lemma put_layout_only_adds_witness :
  grows (committed Sample.w)
        (committed (snd (put_layout "1" Sample.layout Sample.seats Sample.w))).
Proof. apply put_layout_only_adds. reflexivity. Defined.

Lemma put_layout_touches_own_layout_only_witness :
  other_layouts
    (committed (snd (put_layout "1" Sample.layout Sample.seats Sample.w_in_use))) 1
  = other_layouts (committed Sample.w_in_use) 1.
Proof.
  exact (proj1 (put_layout_touches_own_layout_only
                  "1" 1 Sample.layout Sample.seats Sample.w_in_use eq_refl eq_refl)).
Defined.

Lemma delete_area_client_error_touches_nothing_witness :
  exists message w',
    delete_area_route "0" "10" Sample.w_in_use = (Val (Failure 400 message), w')
    /\ committed w' = committed Sample.w_in_use.
Proof.
  do 2 eexists. split; [vm_compute; reflexivity |].
  refine (proj1 (delete_area_client_error_touches_nothing
                   "0" "10" Sample.w_in_use 400 _ _ _ _)).
  - vm_compute. reflexivity.
  - discriminate.
Defined.

Lemma delete_area_of_another_venue_is_refused_witness :
  exists message w',
    delete_area_route "1" "20" Venue.w = (Val (Failure 404 message), w')
    /\ committed w' = committed Venue.w.
Proof.
  destruct (delete_area_of_another_venue_is_refused "1" "20" 1 20 Venue.w)
    as [message [w' [H1 [H2 _]]]].
  - reflexivity.
  - intros n. reflexivity.
  - reflexivity.
  - reflexivity.
  - reflexivity.
  - reflexivity.
  - intros [ar [e [Har [Haid [_ [Hev [Heid Hlug]]]]]]].
    simpl in Har, Hev.
    destruct Har as [<- | [<- | []]]; [discriminate |].
    destruct Hev as [<- | [<- | [<- | []]]]; discriminate.
  - exists message, w'. split; assumption.
Defined.

Lemma delete_area_removes_nothing_else_witness :
  deletes_only 10 1 (committed Venue.w)
               (committed (snd (delete_area_route "1" "10" Venue.w))).
Proof.
  apply (delete_area_removes_nothing_else "1" "10" 1 10 Venue.w); reflexivity.
Defined.


Lemma existing_seat_gets_submitted_state_witness :
  exists w',
    process_seat 1 Sample.seat100_ocupado Sample.w_in_use = (Val tt, w')
    /\ map Asiento.estado (tbl_Asiento (current w')) = ["OCUPADO"; "DISPONIBLE"].
Proof.
  destruct (existing_seat_gets_submitted_state
              1 Sample.seat100_ocupado (VNum 100) 100 "ocupado"
              {| Asiento.asientoID := 100; Asiento.codigo := Some "A1";
                 Asiento.fila := None; Asiento.columna := None;
                 Asiento.estado := "DISPONIBLE"; Asiento.areaID := 10 |}
              Sample.w_in_use) as [Hok _].
  - reflexivity.
  - reflexivity.
  - reflexivity.
  - reflexivity.
  - reflexivity.
  - left. reflexivity.
  - reflexivity.
  - reflexivity.
  - reflexivity.
  - destruct Hok as [w' [H1 H2]].
    + right. left. reflexivity.
    + exists w'. split; [exact H1 |]. rewrite H2. reflexivity.
Defined.

Lemma put_layout_answer_has_no_temporary_entry_witness :
  exists s layoutConfig seats w' items props,
    put_layout "1" Sample.layout Sample.seats Sample.w
    = (Val (Layout s layoutConfig seats), w')
    /\ get_prop layoutConfig "tables" = Val (VArr items props)
    /\ Forall (fun table => isTempTable table = Val false) items.
Proof.
  do 6 eexists. split; [vm_compute; reflexivity |].
  split; [vm_compute; reflexivity |].
  refine (put_layout_answer_has_no_temporary_entry
            "1" [("tables", VArr [Sample.mesa1] [])] Sample.seats Sample.w 200
            _ _ _ _ [] _ _ _ _).
  - reflexivity.
  - vm_compute. reflexivity.
  - repeat constructor. discriminate.
  - vm_compute. reflexivity.
Defined.

Lemma authenticateToken_reads_second_field_witness :
  authenticateToken Venue.verify (VStr "Basic token-of-luis")
  = Val (Pass (VObj [("userId", VNum 3); ("role", VStr "organizador")])).
Proof.
  exact (proj1 (authenticateToken_reads_second_field
                  Venue.verify "Basic" "token-of-luis" eq_refl eq_refl)).
Defined.

Lemma asistente_reads_but_does_not_write_witness :
  route_get_layout Venue.verify (VStr "Bearer token-of-ana") "1" Venue.w
  = get_layout "1" Venue.w
  /\ route_delete_area Venue.verify (VStr "Bearer token-of-ana") "1" "10" Venue.w
     = (Val (Failure 403 "Forbidden: You do not have the required role to access this resource."),
        Venue.w).
Proof.
  destruct (asistente_reads_but_does_not_write
              Venue.verify "Bearer" "token-of-ana"
              (VObj [("userId", VNum 7); ("role", VStr "Asistente")]) "Asistente"
              "1" "10" Sample.layout Sample.seats Venue.seat_body Venue.w
              eq_refl eq_refl eq_refl eq_refl eq_refl) as [H1 [_ [H3 _]]].
  split; [exact H1 | exact H3].
Defined.

Lemma organizer_reaches_the_handlers_witness :
  route_post_asiento Venue.verify (VStr "Bearer token-of-luis") "1" Venue.seat_body Venue.w
  = post_asiento "1" Venue.seat_body Venue.w.
Proof.
  destruct (organizer_reaches_the_handlers
              Venue.verify "Bearer" "token-of-luis"
              (VObj [("userId", VNum 3); ("role", VStr "organizador")]) "organizador"
              "1" "10" Sample.layout Sample.seats Venue.seat_body Venue.w
              eq_refl eq_refl eq_refl eq_refl (or_introl eq_refl)) as [_ [_ [_ H4]]].
  exact H4.
Defined.

Lemma post_asiento_creates_one_seat_witness :
  exists nuevoAsiento w',
    post_asiento "1" Venue.seat_body Venue.w = (Val (SeatCreated 201 nuevoAsiento), w')
    /\ Asiento.codigo nuevoAsiento = Some "B7"
    /\ committed w'
       = with_Asiento (tbl_Asiento (committed Venue.w) ++ [nuevoAsiento])%list
                      (committed Venue.w).
Proof.
  do 2 eexists. split; [vm_compute; reflexivity |].
  split; [reflexivity |].
  refine (proj1 (proj2 (post_asiento_creates_one_seat
                          "1" Venue.seat_body Venue.w 201 _ _ _ _))).
  - reflexivity.
  - vm_compute. reflexivity.
Defined.

Lemma events_of_one_venue_share_their_seats_witness :
  exists layoutConfig1 layoutConfig2 seats,
    fst (get_layout "1" Venue.w) = Val (Layout 200 layoutConfig1 seats)
    /\ fst (get_layout "2" Venue.w) = Val (Layout 200 layoutConfig2 seats).
Proof.
  apply (events_of_one_venue_share_their_seats
           "1" "2"
           {| Evento.eventoID := 1; Evento.lugarID := Some 1 |}
           {| Evento.eventoID := 2; Evento.lugarID := Some 1 |} Venue.w).
  - intros n. reflexivity.
  - repeat constructor; simpl; intuition discriminate.
  - left. reflexivity.
  - right. left. reflexivity.
  - reflexivity.
  - reflexivity.
  - reflexivity.
Defined.

Lemma malformed_event_identifier_is_a_500_witness :
  exists w',
    delete_area_route "12abc" "10" Venue.w
    = (Val (Failure 500 "Error interno del servidor al eliminar el área."), w')
    /\ committed w' = committed Venue.w.
Proof.
  destruct (malformed_event_identifier_is_a_500
              "12abc" (DbError "invalid input syntax for type integer") Venue.w
              eq_refl eq_refl) as [_ [_ H]].
  destruct (H "10" eq_refl eq_refl eq_refl eq_refl eq_refl) as [w' [H1 [H2 _]]].
  exists w'. split; assumption.
Defined.

Lemma entry_without_areaid_takes_unreferenced_seats_witness :
  exists r w',
    create_area 1 Venue.mesa_sin_areaid [Venue.seat_of_area_10] Venue.w_tx = (Val r, w')
    /\ exists realAreaId,
        get_prop (fst r) "areaid" = Val (VNum realAreaId)
        /\ Forall2 (fun asiento asiento' =>
                      get_prop asiento' "areaID" = Val (VNum realAreaId))
                   [Venue.seat_of_area_10] (snd r).
Proof.
  destruct (create_area 1 Venue.mesa_sin_areaid [Venue.seat_of_area_10] Venue.w_tx)
    as [[r | e] w'] eqn:E; [| vm_compute in E; discriminate].
  exists r, w'. split; [reflexivity |].
  destruct (entry_without_areaid_takes_unreferenced_seats
              1 Venue.mesa_sin_areaid [Venue.seat_of_area_10] Venue.w_tx r w'
              eq_refl eq_refl E) as [real [Hreal [_ Hall]]].
  exists real. split; [exact Hreal |].
  inversion Hall as [| a b la lb Hab Hrest Ea Eb]. subst.
  inversion Hrest. subst. constructor; [| constructor].
  apply Hab; [| right]; reflexivity.
Defined.

Lemma delete_area_answers_a_document_it_does_not_store_witness :
  exists seats w',
    delete_area_route "1" "10" Venue.w
    = (Val (Layout 200 (VObj [("tables", VArr [] [])]) seats), w')
    /\ layout_of (committed w') 1 = None.
Proof.
  do 2 eexists. split; [vm_compute; reflexivity |].
  refine (proj1 (proj2 (delete_area_answers_a_document_it_does_not_store
                          "1" "10" 1 Venue.w 200 _ _ _ _ _ _ _))).
  - reflexivity.
  - reflexivity.
  - reflexivity.
  - vm_compute. reflexivity.
Defined.

Lemma put_layout_is_all_or_nothing_witness :
  committed (snd (put_layout "1" Sample.layout (VArr [Sample.seat_without_estado] [])
                             Sample.w))
  = committed Sample.w
  \/ exists ev lugarIDDelEvento items props w1 w2,
      In ev (tbl_Evento (committed Sample.w))
      /\ pg_int4 (VStr "1") = Val (Some (Evento.eventoID ev))
      /\ Evento.lugarID ev = Some lugarIDDelEvento
      /\ VArr [Sample.seat_without_estado] [] = VArr items props
      /\ current w1 = committed Sample.w
      /\ reconcile lugarIDDelEvento "1" Sample.layout items w1 = (Val tt, w2)
      /\ committed (snd (put_layout "1" Sample.layout
                                    (VArr [Sample.seat_without_estado] []) Sample.w))
         = current w2.
Proof.
  apply (put_layout_is_all_or_nothing
           "1" Sample.layout (VArr [Sample.seat_without_estado] []) Sample.w).
  reflexivity.
Defined.

Lemma put_layout_spares_the_other_venues_witness :
  In {| Asiento.asientoID := 200; Asiento.codigo := Some "S1";
        Asiento.fila := None; Asiento.columna := None;
        Asiento.estado := "DISPONIBLE"; Asiento.areaID := 20 |}
     (tbl_Asiento
        (committed (snd (put_layout "1" VUndef (VArr [Sample.seat200_ocupado] [])
                                    Venue.w)))).
Proof.
  apply (put_layout_spares_the_other_venues
           "1" VUndef (VArr [Sample.seat200_ocupado] []) Venue.w 1).
  - reflexivity.
  - split; [| split].
    + repeat constructor; simpl; intuition discriminate.
    + repeat constructor; simpl; intuition discriminate.
    + intros a [<- | [<- | []]]; simpl; auto.
  - intros ev [<- | [<- | [<- | []]]] H; try reflexivity.
    vm_compute in H. discriminate.
  - right. left. reflexivity.
  - reflexivity.
Defined.

(** The POST handler reads [areaID] twice.  With "1_0" the server checks
    area 10, which lies in the venue of event 1, and the INSERT receives what
    [parseInt] reads, 1: the seat is created under area 1, in another
    venue. *)
Example post_asiento_reads_areaID_twice :
  exists w',
    post_asiento "1" Venue.seat_body_underscore Venue.w_with_area_1
    = (Val (SeatCreated 201
              {| Asiento.asientoID := 201; Asiento.codigo := Some "Z1";
                 Asiento.fila := None; Asiento.columna := None;
                 Asiento.estado := "DISPONIBLE"; Asiento.areaID := 1 |}), w')
    /\ area_in_lugar (committed w') 1 1 = false
    /\ area_in_lugar (committed w') 1 2 = true.
Proof. eexists. split; [vm_compute; reflexivity |]. split; reflexivity. Qed.

(** An event identifier in hexadecimal is one the server reads. *)
Example hexadecimal_event_identifier :
  exists layoutConfig seats,
    fst (get_layout "0x1" Venue.w) = Val (Layout 200 layoutConfig seats).
Proof. do 2 eexists. vm_compute. reflexivity. Qed.

